(** * The SimaPro importer of bw2data ([bw2data/io/import_simapro.py])

    A shallow embedding of the import-and-link pipeline: the name
    detoxifier, the dataset segmenter, the per-block extractors, the
    foreground and background indices, the exchange linker and the
    orchestrating [importer] method, together with the properties that the
    specification states about them.

    The module is Python 2 code ([StandardError], [dict.iteritems]); rows
    come from [csv.reader], so every field is a byte string ([str]),
    modelled by [string] (a list of 8-bit characters). *)

From Stdlib Require Import Ascii String.
From Stdlib Require Import Floats.SpecFloat.
From stdpp Require Import gmap strings list fin_maps pretty sorting.

Local Open Scope string_scope.
Local Open Scope list_scope.
Local Open Scope nat_scope.

(* stdpp keeps [simpl] and [cbn] from unfolding string append. *)
Local Arguments String.append !_ _ / : simpl nomatch.

(** ** Python exceptions and the logging effect *)

(** The exceptions the module can raise.  [MissingExchange] is the
    module's own class; the others are built-in.  [StoreError] stands for
    whatever the external store raises from one of its methods. *)
Inductive exn : Type :=
| AssertionError (msg : string)
| AttributeError (attr : string)
| IndexError
| KeyError (k : string)
| TypeError
| ValueError
| UnboundLocalError (var : string)
| UnicodeDecodeError
| IOError
| MissingExchange (msg : string)
| StoreError (msg : string).

Inductive result (A : Type) : Type :=
| Ok (a : A)
| Raise (e : exn).
Arguments Ok {A} a.
Arguments Raise {A} e.

(** Messages handed to the logger [self.log]. *)
Inductive log_record : Type :=
| Info (msg : string)
| Warning (msg : string).

(** A computation that may raise and that logs on the way: the outcome
    and the records emitted, in order.  What was logged before a raise is
    kept. *)
Definition L (A : Type) : Type := result A * list log_record.

Definition ret {A} (a : A) : L A := (Ok a, []).
Definition raise {A} (e : exn) : L A := (Raise e, []).
Definition tell (r : log_record) : L unit := (Ok tt, [r]).
Definition lift {A} (r : result A) : L A := (r, []).

Definition bind {A B} (m : L A) (k : A → L B) : L B :=
  match m with
  | (Ok a, w) => let '(r, w') := k a in (r, w ++ w')
  | (Raise e, w) => (Raise e, w)
  end.

Notation "'let*' x ':=' m 'in' k" := (bind m (fun x => k))
  (at level 10, x pattern, m at level 100, k at level 200).
Notation "m ';;' k" := (bind m (fun _ => k))
  (at level 100, k at level 200, right associativity).

(** Python's [assert cond, msg]. *)
Definition assert (cond : bool) (msg : string) : L unit :=
  if cond then ret tt else raise (AssertionError msg).

(** [seq[i]] on a list: [IndexError] out of range (indices here are
    never negative). *)
Definition getitem {A} (l : list A) (i : nat) : L A :=
  match l !! i with
  | Some x => ret x
  | None => raise IndexError
  end.

(** [[f(x) for x in l]], left to right, stopping at the first raise. *)
Fixpoint mapM {A B} (f : A → L B) (l : list A) : L (list B) :=
  match l with
  | [] => ret []
  | x :: l' => let* y := f x in let* ys := mapM f l' in ret (y :: ys)
  end.

(** ** Byte strings *)

Definition is_upper (c : ascii) : bool :=
  let n := nat_of_ascii c in (65 <=? n) && (n <=? 90).

(** [str.lower] of a byte string: only A-Z change. *)
Definition lower_ascii (c : ascii) : ascii :=
  if is_upper c then ascii_of_nat (nat_of_ascii c + 32) else c.

Fixpoint lower (s : string) : string :=
  match s with
  | EmptyString => EmptyString
  | String c s' => String (lower_ascii c) (lower s')
  end.

Definition is_ascii (c : ascii) : bool := nat_of_ascii c <? 128.

Fixpoint all_ascii (s : string) : bool :=
  match s with
  | EmptyString => true
  | String c s' => is_ascii c && all_ascii s'
  end.

Definition newline : ascii := ascii_of_nat 10.

(** [sub in s] for byte strings. *)
Fixpoint is_prefix (p s : string) : bool :=
  match p, s with
  | EmptyString, _ => true
  | String a p', String b s' => bool_decide (a = b) && is_prefix p' s'
  | String _ _, EmptyString => false
  end.

Fixpoint contains (sub s : string) : bool :=
  is_prefix sub s ||
  match s with
  | EmptyString => false
  | String _ s' => contains sub s'
  end.

(** [s.split(sep)] for a one-character separator. *)
Fixpoint split (sep : ascii) (s : string) : list string :=
  match s with
  | EmptyString => [EmptyString]
  | String c s' =>
      if bool_decide (c = sep) then EmptyString :: split sep s'
      else match split sep s' with
           | w :: ws => String c w :: ws
           | [] => [String c EmptyString]
           end
  end.

(** ** The name detoxifier

    [detoxify_pattern = '/(?P<geo>[A-Z]{2,10})(/I)? [SU]$'], run by a
    backtracking matcher as [re] does. *)

(** [$]: at the end of the string, or just before a final newline. *)
Definition at_end (t : string) : bool :=
  match t with
  | EmptyString => true
  | String c EmptyString => bool_decide (c = newline)
  | _ => false
  end.

(** [" [SU]$"]: the number of characters consumed. *)
Definition match_qualifier (t : string) : option nat :=
  match t with
  | String a (String c r) =>
      if bool_decide (a = " "%char)
         && (bool_decide (c = "S"%char) || bool_decide (c = "U"%char))
         && at_end r
      then Some 2 else None
  | _ => None
  end.

(** ["(/I)? [SU]$"]: the optional group is tried first (greedy), then
    skipped.  Returns the text of group 2 and the length consumed. *)
Definition match_tail (t : string) : option (string * nat) :=
  let skipped := (fun n => ("", n)) <$> match_qualifier t in
  match t with
  | String a (String b r) =>
      if bool_decide (a = "/"%char) && bool_decide (b = "I"%char)
      then match match_qualifier r with
           | Some n => Some ("/I", 2 + n)
           | None => skipped
           end
      else skipped
  | _ => skipped
  end.

(** ["[A-Z]{2,10}(/I)? [SU]$"] after [n] capitals have been taken: one
    more capital is tried first (greedy), and the rest of the pattern
    once at least two are taken.  Returns group [geo] (the part taken
    from here on), group 2 and the length consumed. *)
Fixpoint match_geo (n : nat) (s : string) : option (string * string * nat) :=
  let stop :=
    if 2 <=? n
    then (fun '(g2, len) => (EmptyString, g2, len)) <$> match_tail s
    else None in
  match s with
  | String c s' =>
      if is_upper c && (n <? 10)
      then match match_geo (S n) s' with
           | Some (geo, g2, len) => Some (String c geo, g2, S len)
           | None => stop
           end
      else stop
  | EmptyString => stop
  end.

(** The whole pattern at the start of [s]. *)
Definition match_here (s : string) : option (string * string * nat) :=
  match s with
  | String a s' =>
      if bool_decide (a = "/"%char)
      then (fun '(geo, g2, len) => (geo, g2, S len)) <$> match_geo 0 s'
      else None
  | EmptyString => None
  end.

(** [detoxify_re.findall(string)]: the groups of the non-overlapping
    matches, scanning left to right; [skip] characters of the previous
    match are still to be passed. *)
Fixpoint findall (skip : nat) (s : string) : list (string * string) :=
  match s with
  | EmptyString => []
  | String c s' =>
      match skip with
      | S k => findall k s'
      | O =>
          match match_here s with
          | Some (geo, g2, len) => (geo, g2) :: findall (len - 1) s'
          | None => findall 0 s'
          end
      end
  end.

(** [re.sub(detoxify_pattern, '', string)]. *)
Fixpoint re_sub (skip : nat) (s : string) : string :=
  match s with
  | EmptyString => EmptyString
  | String c s' =>
      match skip with
      | S k => re_sub k s'
      | O =>
          match match_here s with
          | Some (_, _, len) => re_sub (len - 1) s'
          | None => String c (re_sub 0 s')
          end
      end
  end.

(** The second component of what [detoxify] returns: a geography code
    or [False]. *)
Inductive pygeo : Type :=
| GeoFalse
| GeoStr (s : string).

(** [u"Name '%s' doesn't have SimaPro slashes(TM) - matched without
    slashes" % string]: the template is a [unicode] literal, so the byte
    string is decoded as ASCII first. *)
Definition format_no_slashes (s : string) : L string :=
  if all_ascii s
  then ret ("Name '" +:+ s +:+
            "' doesn't have SimaPro slashes™ - matched without slashes")
  else raise UnicodeDecodeError.

Definition detoxify (s : string) : L (string * pygeo) :=
  match findall 0 s with
  | [] =>
      let* msg := format_no_slashes s in
      tell (Warning msg) ;;
      ret (s, GeoFalse)
  | (geo, _) :: _ => ret (re_sub 0 s, GeoStr geo)
  end.

Example detoxify_electricity :
  detoxify "Electricity/CH U" = (Ok ("Electricity", GeoStr "CH"), []).
Proof. reflexivity. Qed.

Example detoxify_odd_name :
  ∃ msg, detoxify "Odd Name" = (Ok ("Odd Name", GeoFalse), [Warning msg]).
Proof. eexists. reflexivity. Qed.

(** ** Rows, exchanges and datasets *)

(** A row of the file is the list of its fields; a block (and the whole
    file) is a list of rows. *)
Abbreviation row := (list string).

(** A key of the store, and the code of a dataset: [(database, code)]. *)
Abbreviation key := (string * string)%type.

(** An exchange is a Python [dict]; a key that may be absent is an
    optional field.  The extractor sets the first six, the production
    exchange only [amount], [input], [uncertainty type] and [type]. *)
Record exchange : Type := Exchange {
  exc_name : option string;
  exc_amount : option spec_float;
  exc_comment : option string;
  exc_unit : option string;
  exc_uncertainty : option string;
  exc_location : option pygeo;
  exc_input : option key;
  exc_uncertainty_type : option Z;
  exc_type : option string
}.

Definition set_input (k : key) (e : exchange) : exchange :=
  Exchange (exc_name e) (exc_amount e) (exc_comment e) (exc_unit e)
    (exc_uncertainty e) (exc_location e) (Some k)
    (exc_uncertainty_type e) (exc_type e).

Definition set_type (t : string) (e : exchange) : exchange :=
  Exchange (exc_name e) (exc_amount e) (exc_comment e) (exc_unit e)
    (exc_uncertainty e) (exc_location e) (exc_input e)
    (exc_uncertainty_type e) (Some t).

Definition set_uncertainty_type (u : Z) (e : exchange) : exchange :=
  Exchange (exc_name e) (exc_amount e) (exc_comment e) (exc_unit e)
    (exc_uncertainty e) (exc_location e) (exc_input e)
    (Some u) (exc_type e).

(** A value of the ['simapro metadata'] dict: a string, or the list of a
    multi-line entry. *)
Inductive meta_value : Type :=
| MStr (s : string)
| MList (l : list string).

(** The structured dataset, a [dict] as well: [define_dataset] sets the
    first five keys, [process_data] adds the last two. *)
Record dataset : Type := Dataset {
  ds_name : string;
  ds_unit : string;
  ds_location : string;
  ds_categories : list string;
  ds_code : key;
  ds_simapro_metadata : option (gmap string meta_value);
  ds_exchanges : option (list exchange)
}.

Definition set_simapro_metadata (m : gmap string meta_value) (d : dataset) : dataset :=
  Dataset (ds_name d) (ds_unit d) (ds_location d) (ds_categories d) (ds_code d)
    (Some m) (ds_exchanges d).

Definition set_exchanges (l : list exchange) (d : dataset) : dataset :=
  Dataset (ds_name d) (ds_unit d) (ds_location d) (ds_categories d) (ds_code d)
    (ds_simapro_metadata d) (Some l).

(** [d[k]] on a dict: [KeyError] when the key is absent. *)
Definition item {A} (k : string) (v : option A) : L A :=
  match v with
  | Some x => ret x
  | None => raise (KeyError k)
  end.

Definition SIMAPRO_BIOSPHERE : gset string :=
  {[ "Resources"; "Emissions to air"; "Emissions to water"; "Emissions to soil" ]}.

(** ** Keys of the background index

    [load_background] stores 3-tuples and 2-tuples in one dict. *)

Global Instance pygeo_eq_dec : EqDecision pygeo.
Proof. solve_decision. Defined.

Global Instance pygeo_countable : Countable pygeo.
Proof.
  refine (inj_countable' (λ g, match g with GeoFalse => None | GeoStr s => Some s end)
            (λ o, match o with None => GeoFalse | Some s => GeoStr s end) _).
  by intros [].
Defined.

Inductive bg_key : Type :=
| Key3 (name unit : string) (location : pygeo)
| Key2 (name unit : string).

Global Instance bg_key_eq_dec : EqDecision bg_key.
Proof. solve_decision. Defined.

Global Instance bg_key_countable : Countable bg_key.
Proof.
  refine (inj_countable'
            (λ k, match k with
                  | Key3 n u l => inl (n, u, l)
                  | Key2 n u => inr (n, u)
                  end)
            (λ s, match s with
                  | inl (n, u, l) => Key3 n u l
                  | inr (n, u) => Key2 n u
                  end) _).
  by intros [].
Defined.

(** A record of a dependency database, as far as the importer reads it. *)
Record bg_record : Type := BgRecord {
  rec_name : string;
  rec_unit : string;
  rec_location : string
}.

(** ** The segmenter *)

(** [data[a:b]] for non-negative bounds. *)
Definition slice {A} (l : list A) (a b : nat) : list A := take (b - a) (drop a l).

(** [row and row[0] == "Process" and len(row) == 1] *)
Definition is_process_row (r : row) : bool :=
  match r with
  | [] => false
  | f :: _ => bool_decide (f = "Process") && bool_decide (length r = 1)
  end.

Definition get_process_indices (data : list row) : list nat :=
  filter (λ x, is_process_row (default [] (data !! x)))
    (seq 2 (length data - 2))
  ++ [length data + 1].

(** [clean_data] sets [self.db_name] when it is [None]; the name in
    force afterwards is returned with the blocks. *)
Definition clean_data (db_name : option string) (data : list row)
  : L (string * list (list row)) :=
  let* name :=
    match db_name with
    | Some n => ret n
    | None =>
        let* r1 := getitem data 1 in
        let* f0 := getitem r1 0 in
        assert (bool_decide (f0 = "Project")) "Can't determine SimaPro project name" ;;
        let* r1' := getitem data 1 in
        getitem r1' 1
    end in
  let process_indices := get_process_indices data in
  let process_data :=
    (λ x, slice data (default 0 (process_indices !! x))
                     (default 0 (process_indices !! (x + 1))))
    <$> seq 0 (length process_indices - 1) in
  ret (name, process_data).

(** ** The extractors, the indices and the linker *)

Section Importer.

(** Collaborators that live outside the module: Python's [float] on a
    string ([None] when it raises [ValueError]), [normalize_units],
    [activity_hash] (read at the four keys present when it is called)
    and [pprint.pformat] on an exchange. *)
Variable py_float : string → option spec_float.
Variable normalize_units : string → string.
Variable activity_hash : string → string → string → list string → string.
Variable pformat : exchange → string.

Definition float (s : string) : L spec_float :=
  match py_float s with
  | Some x => ret x
  | None => raise ValueError
  end.

(** [row and row[0] == 'Products'] *)
Definition is_products_row (r : row) : bool :=
  match r with
  | [] => false
  | f :: _ => bool_decide (f = "Products")
  end.

(** [get_exchanges_index]: falls off the loop, returning [None], when
    no row qualifies. *)
Fixpoint get_exchanges_index (block : list row) : option nat :=
  match block with
  | [] => None
  | r :: rest =>
      if is_products_row r then Some 0 else S <$> get_exchanges_index rest
  end.

(** [x + n] where [x] may be [None]. *)
Definition plus_index (x : option nat) (n : nat) : L nat :=
  match x with
  | Some i => ret (i + n)
  | None => raise TypeError
  end.

(** [geo or default_geo] *)
Definition geo_or (geo : pygeo) (default_geo : string) : string :=
  match geo with
  | GeoStr (String c s) => String c s
  | GeoStr EmptyString => default_geo
  | GeoFalse => default_geo
  end.

Definition backslash : ascii := ascii_of_nat 92.

Definition define_dataset (db_name default_geo : string) (block : list row)
  : L dataset :=
  let* i := plus_index (get_exchanges_index block) 1 in
  let* line := getitem block i in
  let* f0 := getitem line 0 in
  let* (name, geo) := detoxify f0 in
  let* f2 := getitem line 2 in
  let unit := normalize_units f2 in
  let location := geo_or geo default_geo in
  let* f5 := getitem line 5 in
  let categories := split backslash f5 in
  ret (Dataset name unit location categories
         (db_name, activity_hash name unit location categories) None None).

(** [bool(line and len(line) > 1 and line[0] and line[1])] *)
Definition has_key_and_value (line : row) : bool :=
  match line with
  | f0 :: f1 :: _ => negb (bool_decide (f0 = "")) && negb (bool_decide (f1 = ""))
  | _ => false
  end.

(** [y and not y[0]] *)
Definition is_continuation (y : row) : bool :=
  match y with
  | [] => false
  | f :: _ => bool_decide (f = "")
  end.

(** [itertools.takewhile] *)
Fixpoint takewhile {A} (p : A → bool) (l : list A) : list A :=
  match l with
  | [] => []
  | x :: l' => if p x then x :: takewhile p l' else []
  end.

(** The loop of [get_dataset_metadata] over [dataset[index:]]; the body
    only looks forward, at [dataset[index + 1:]].  The raw block is
    called [dataset] in the source and [block] here. *)
Fixpoint get_dataset_metadata_loop (rows : list row)
    (metadata : gmap string meta_value) : L (gmap string meta_value) :=
  match rows with
  | [] => ret metadata
  | line :: rest =>
      if is_products_row line then ret metadata
      else if negb (has_key_and_value line) then
        get_dataset_metadata_loop rest metadata
      else
        let* next := getitem rest 0 in
        let* f0 := getitem line 0 in
        let* f1 := getitem line 1 in
        if is_continuation next then
          let* more := mapM (λ x, getitem x 1) (takewhile is_continuation rest) in
          get_dataset_metadata_loop rest (<[f0 := MList (f1 :: more)]> metadata)
        else
          get_dataset_metadata_loop rest (<[f0 := MStr f1]> metadata)
  end.

Definition get_dataset_metadata (block : list row) : L (gmap string meta_value) :=
  get_dataset_metadata_loop block ∅.

(** The loop of [get_exchanges].  [label] is a local that is unbound
    ([None]) until the first one-field row assigns it. *)
Fixpoint get_exchanges_loop (lines : list row) (label : option string)
    (exchanges : list exchange) : L (list exchange) :=
  match lines with
  | [] => ret exchanges
  | line :: rest =>
      if bool_decide (length line = 0) then
        get_exchanges_loop rest label exchanges
      else if bool_decide (length line = 1) then
        let* f0 := getitem line 0 in
        get_exchanges_loop rest (Some f0) exchanges
      else
        match label with
        | None => raise (UnboundLocalError "label")
        | Some lab =>
            if bool_decide (lab ∈ SIMAPRO_BIOSPHERE) then
              get_exchanges_loop rest label exchanges
            else
              let* f0 := getitem line 0 in
              let* (name, geo) := detoxify f0 in
              let* f1 := getitem line 1 in
              let* amount := float f1 in
              let* f2 := getitem line 2 in
              let* f3 := getitem line 3 in
              get_exchanges_loop rest label
                (exchanges ++
                 [Exchange (Some name) (Some amount) (Some lab)
                    (Some (normalize_units f2)) (Some f3) (Some geo)
                    None None None])
        end
  end.

Definition get_exchanges (block : list row) : L (list exchange) :=
  let x := get_exchanges_index block in
  let* i := plus_index x 2 in
  let* r := getitem block i in
  assert (bool_decide (length r = 0)) "Can't import multioutput datasets" ;;
  let* j := plus_index x 3 in
  get_exchanges_loop (drop j block) None [].

Definition get_production_exchange (data : dataset) (block : list row)
  : L exchange :=
  let* i := plus_index (get_exchanges_index block) 1 in
  let* line := getitem block i in
  let* f1 := getitem line 1 in
  let* amount := float f1 in
  ret (Exchange None (Some amount) None None None None
         (Some (ds_code data)) (Some 0%Z) (Some "production")).

Definition process_data (db_name default_geo : string) (block : list row)
  : L dataset :=
  let* data := define_dataset db_name default_geo block in
  let* metadata := get_dataset_metadata block in
  let data := set_simapro_metadata metadata data in
  let* exchanges := get_exchanges block in
  let data := set_exchanges exchanges data in
  let* exchanges := item "exchanges" (ds_exchanges data) in
  let* production := get_production_exchange data block in
  ret (set_exchanges (exchanges ++ [production]) data).

(** [dict([...])]: a later pair with the same key replaces an earlier
    one. *)
Definition create_foreground (data : list dataset) : gmap (string * string) key :=
  foldl (λ fg ds, <[(ds_name ds, ds_unit ds) := ds_code ds]> fg) ∅ data.

(** The second half of [load_background], on the merged records.  The
    order in which a Python 2 dict is iterated is unspecified; it only
    matters when two records yield the same index key. *)
Definition index_background (background_data : gmap key bg_record)
  : gmap bg_key key :=
  map_fold
    (λ k value bg,
       <[Key2 (lower (rec_name value)) (rec_unit value) := k]>
         (<[Key3 (lower (rec_name value)) (rec_unit value)
                 (GeoStr (rec_location value)) := k]> bg))
    ∅ background_data.

(** [link_exchange].  The third test repeats the second one, as in the
    source. *)
Definition link_exchange (foreground : gmap (string * string) key)
    (background : gmap bg_key key) (exc : exchange) : L exchange :=
  if bool_decide (exc_type exc = Some "production") then ret exc
  else
    let* name := item "name" (exc_name exc) in
    let* unit := item "unit" (exc_unit exc) in
    let* (exc, found) :=
      match foreground !! (name, unit) with
      | Some code => ret (set_input code exc, true)
      | None =>
          let* location := item "location" (exc_location exc) in
          match background !! Key3 (lower name) unit location with
          | Some k => ret (set_input k exc, true)
          | None =>
              let* name := item "name" (exc_name exc) in
              let* unit := item "unit" (exc_unit exc) in
              let* location := item "location" (exc_location exc) in
              match background !! Key3 (lower name) unit location with
              | Some k => ret (set_input k exc, true)
              | None => ret (exc, false)
              end
          end
      end in
    if found then
      ret (set_uncertainty_type 0 (set_type "technosphere" exc))
    else
      raise (MissingExchange ("Can't find exchange" +:+ String newline (pformat exc))).

Definition link_exchanges (foreground : gmap (string * string) key)
    (background : gmap bg_key key) (ds : dataset) : L dataset :=
  let* exchanges := item "exchanges" (ds_exchanges ds) in
  let* linked := mapM (link_exchange foreground background) exchanges in
  ret (set_exchanges linked ds).

End Importer.

(** ** The orchestrator and the external store *)

(** The calls made on database objects ([Database(name).method(...)]),
    in the order they are made. *)
Inductive store_call : Type :=
| CallLoad (name : string)
| CallRegister (name format : string) (depends : list string) (num_processes : nat)
| CallWrite (name : string) (data : gmap key dataset)
| CallProcess (name : string).

Definition is_load (c : store_call) : bool :=
  match c with CallLoad _ => true | _ => false end.

(** The instance attributes set by [__init__]. *)
Record importer_self : Type := ImporterSelf {
  filepath : string;
  delimiter : string;
  depends : list string;
  overwrite : bool;
  db_name : option string;
  default_geo : string;
  logfile : string
}.

(** Every name that [self.<name>] finds on a [SimaProImporter]: what
    [__init__], [create_foreground] and [load_background] assign, and the
    methods of the class. *)
Definition instance_attributes : list string :=
  [ "filepath"; "delimiter"; "depends"; "overwrite"; "db_name";
    "default_geo"; "log"; "logfile"; "foreground"; "background";
    "importer"; "load_file"; "verify_simapro_file"; "clean_data";
    "get_process_indices"; "process_data"; "define_dataset";
    "get_dataset_metadata"; "get_exchanges"; "get_exchanges_index";
    "get_production_exchange"; "create_foreground"; "load_background";
    "link_exchanges"; "link_exchange" ].

Definition str_of_name (n : option string) : string :=
  match n with Some s => s | None => "None" end.

Fixpoint join (sep : string) (l : list string) : string :=
  match l with
  | [] => ""
  | [x] => x
  | x :: l' => x +:+ sep +:+ join sep l'
  end.

Definition tab : string := String (ascii_of_nat 9) EmptyString.
Definition nl : string := String newline EmptyString.

(** [INTRODUCTION % (filepath, delimiter, ", ".join(depends), db_name,
    default_geo)] *)
Definition INTRODUCTION (self : importer_self) : string :=
  "Starting SimaPro import:" +:+ nl +:+
  tab +:+ "Filepath: " +:+ filepath self +:+ nl +:+
  tab +:+ "Delimiter: " +:+ delimiter self +:+ nl +:+
  tab +:+ "Depends: " +:+ join ", " (depends self) +:+ nl +:+
  tab +:+ "Name: " +:+ str_of_name (db_name self) +:+ nl +:+
  tab +:+ "Default geo: " +:+ default_geo self +:+ nl.

Section Orchestrator.

Variable py_float : string → option spec_float.
Variable normalize_units : string → string.
Variable activity_hash : string → string → string → list string → string.
Variable pformat : exchange → string.

(** The file system as [csv.reader(open(filepath), delimiter=...)] sees
    it: the rows of the file, or [None] when there is no such file. *)
Variable read_csv : string → string → option (list row).

(** The path that [get_io_logger("SimaPro importer")] returns with the
    logger. *)
Variable io_logfile : string.

(** The store behind [databases] and [Database(name)]: [name in
    databases], and the four methods the importer calls on a
    [Database(name)], each taken together with the [Database(name)] that
    precedes it.  [Database] is [DatabaseChooser], which rewrites and
    flushes the metadata of a database whose backend is "default": so
    every one of the four, [load] included, may change the store, and
    any of them may raise. *)
Variable store : Type.
Variable db_contains : store → string → bool.
Variable db_load : store → string → result (gmap key bg_record) * store.
Variable db_register :
  store → string → string → list string → nat → result unit * store.
Variable db_write : store → string → gmap key dataset → result unit * store.
Variable db_process : store → string → result unit * store.

(** What a run can change: the store, the calls made on it and the log. *)
Record world : Type := World {
  w_store : store;
  w_calls : list store_call;
  w_log : list log_record
}.

Definition M (A : Type) : Type := world → result A * world.

Definition mret {A} (a : A) : M A := λ w, (Ok a, w).
Definition mraise {A} (e : exn) : M A := λ w, (Raise e, w).
Definition mbind {A B} (m : M A) (k : A → M B) : M B :=
  λ w, match m w with
       | (Ok a, w') => k a w'
       | (Raise e, w') => (Raise e, w')
       end.

Notation "'let!' x ':=' m 'in' k" := (mbind m (fun x => k))
  (at level 10, x pattern, m at level 100, k at level 200).
Notation "m ';;;' k" := (mbind m (fun _ => k))
  (at level 100, k at level 200, right associativity).

(** A logging computation run inside the orchestrator. *)
Definition liftL {A} (m : L A) : M A :=
  λ w, (m.1, World (w_store w) (w_calls w) (w_log w ++ m.2)).

Definition called (c : store_call) : M unit :=
  λ w, (Ok tt, World (w_store w) (w_calls w ++ [c]) (w_log w)).

(** A method of [Database(name)]: it may change the store. *)
Definition command {A} (c : store_call) (f : store → result A * store) : M A :=
  called c ;;;
  λ w, let '(r, s) := f (w_store w) in (r, World s (w_calls w) (w_log w)).

(** [name in databases] *)
Definition in_databases (name : string) : M bool :=
  λ w, (Ok (db_contains (w_store w) name), w).

(** [self.<attr>]: [AttributeError] for a name the instance lacks. *)
Definition getattr (attr : string) : M unit :=
  if bool_decide (attr ∈ instance_attributes) then mret tt
  else mraise (AttributeError attr).

(** [__init__]: [None] stands for the failed assertion that the path
    exists. *)
Definition init (filepath delimiter : string) (depends : list string)
    (overwrite : bool) (name : option string) (default_geo : string)
  : result importer_self :=
  match read_csv filepath delimiter with
  | Some _ =>
      Ok (ImporterSelf filepath delimiter depends overwrite name default_geo
            io_logfile)
  | None => Raise (AssertionError ("Can't find file " +:+ filepath))
  end.

Definition load_file (self : importer_self) : M (list row) :=
  match read_csv (filepath self) (delimiter self) with
  | Some rows => mret rows
  | None => mraise IOError
  end.

Definition verify_simapro_file (data : list row) : L unit :=
  let* r0 := getitem data 0 in
  let* f0 := getitem r0 0 in
  assert (contains "SimaPro" f0) "File is not valid SimaPro export".

(** [load_background]: the records of the dependencies, a later
    database replacing the records of an earlier one under the same key,
    then the index. *)
Fixpoint load_background_data (dbs : list string)
    (background_data : gmap key bg_record) : M (gmap key bg_record) :=
  match dbs with
  | [] => mret background_data
  | db :: dbs' =>
      let! loaded := command (CallLoad db) (λ s, db_load s db) in
      load_background_data dbs' (loaded ∪ background_data)
  end.

Definition load_background (self : importer_self) : M (gmap bg_key key) :=
  let! background_data := load_background_data (depends self) ∅ in
  mret (index_background background_data).

(** [dict([(obj['code'], obj) for obj in data])] *)
Definition by_code (data : list dataset) : gmap key dataset :=
  foldl (λ m obj, <[ds_code obj := obj]> m) ∅ data.

Definition ALREADY_IMPORTED : string :=
  "Already imported this project" +:+ nl +:+
  "Delete existing database, give new name, or use ``overwrite``.".

Definition importer (self : importer_self) : M (string * string) :=
  liftL (tell (Info (INTRODUCTION self))) ;;;
  let! data := load_file self in
  liftL (verify_simapro_file data) ;;;
  let! format := liftL (let* r0 := getitem data 0 in getitem r0 0) in
  let! (name, data) := liftL (clean_data (db_name self) data) in
  liftL (tell (Info ("Found " +:+ pretty (length data) +:+ " datasets"))) ;;;
  let! data :=
    liftL (mapM (process_data py_float normalize_units activity_hash
                   name (default_geo self)) data) in
  let foreground := create_foreground data in
  let! background := load_background self in
  let! data := liftL (mapM (link_exchanges pformat foreground background) data) in
  (if negb (overwrite self) then
     let! present := in_databases name in
     liftL (assert (negb present) ALREADY_IMPORTED) ;;;
     command (CallRegister name format (depends self) (length data))
       (λ s, db_register s name format (depends self) (length data))
   else
     let! present := in_databases name in
     if present then getattr "warning" else mret tt) ;;;
  command (CallWrite name (by_code data)) (λ s, db_write s name (by_code data)) ;;;
  command (CallProcess name) (λ s, db_process s name) ;;;
  getattr "logile" ;;;
  mret (name, logfile self).

End Orchestrator.

(** ** The error taxonomy of the specification

    The name under which the specification knows an exception that the
    module raises itself; [None] for an exception outside the taxonomy. *)
Inductive taxon : Type :=
| FormatError
| MultiOutputUnsupportedError
| NumericParseError
| UnlinkedExchangeError
| DuplicateImportError.

Definition taxonomy (e : exn) : option taxon :=
  match e with
  | AssertionError msg =>
      if bool_decide (msg = "File is not valid SimaPro export") then Some FormatError
      else if bool_decide (msg = "Can't import multioutput datasets")
      then Some MultiOutputUnsupportedError
      else if bool_decide (msg = ALREADY_IMPORTED) then Some DuplicateImportError
      else None
  | ValueError => Some NumericParseError
  | MissingExchange _ => Some UnlinkedExchangeError
  | _ => None
  end.

(** ** The linker: two tiers, foreground first *)

Section Linker.

Variable pformat : exchange → string.
Variables (foreground : gmap (string * string) key) (background : gmap bg_key key).

(** The resolution as the specification words it: production passes
    through, then the foreground index, then the background index, else
    the exchange is reported missing. *)
Definition link_exchange_two_tier (exc : exchange) : L exchange :=
  if bool_decide (exc_type exc = Some "production") then ret exc
  else
    let* name := item "name" (exc_name exc) in
    let* unit := item "unit" (exc_unit exc) in
    let* (exc, found) :=
      match foreground !! (name, unit) with
      | Some code => ret (set_input code exc, true)
      | None =>
          let* location := item "location" (exc_location exc) in
          match background !! Key3 (lower name) unit location with
          | Some k => ret (set_input k exc, true)
          | None => ret (exc, false)
          end
      end in
    if found then
      ret (set_uncertainty_type 0 (set_type "technosphere" exc))
    else
      raise (MissingExchange ("Can't find exchange" +:+ String newline (pformat exc))).

Lemma link_exchange_third_test_dead (exc : exchange) :
  link_exchange pformat foreground background exc = link_exchange_two_tier exc.
Proof.
  unfold link_exchange_two_tier, link_exchange.
  case_bool_decide as Hprod; [reflexivity|].
  destruct (exc_name exc) as [name|]; [|reflexivity].
  destruct (exc_unit exc) as [unit|]; [|reflexivity].
  cbn [item bind ret].
  destruct (foreground !! (name, unit)) as [code|]; [reflexivity|].
  destruct (exc_location exc) as [location|]; [|reflexivity].
  cbn [item bind ret].
  destruct (background !! Key3 (lower name) unit location) as [k|];
    [reflexivity|].
  reflexivity.
Qed.

(** C9: with the repeated background test removed, the linker computes
    the same outcome (result or exception, and log) on every exchange:
    the third branch is dead, and resolution has exactly the two tiers
    foreground, then background. *)
Theorem link_exchange_two_tier_eq (exc : exchange) :
  link_exchange_two_tier exc = link_exchange pformat foreground background exc.
Proof. symmetry. apply link_exchange_third_test_dead. Qed.

(** What a successful link of a non-production exchange looks like. *)
Definition linked_to (k : key) (exc : exchange) : exchange :=
  set_uncertainty_type 0 (set_type "technosphere" (set_input k exc)).

Lemma link_exchange_foreground (exc : exchange) name unit code :
  exc_type exc ≠ Some "production" →
  exc_name exc = Some name →
  exc_unit exc = Some unit →
  foreground !! (name, unit) = Some code →
  link_exchange pformat foreground background exc = (Ok (linked_to code exc), []).
Proof.
  intros Hprod Hname Hunit Hfg. unfold link_exchange.
  rewrite bool_decide_eq_false_2 by done.
  rewrite Hname, Hunit. cbn [item bind ret]. rewrite Hfg. reflexivity.
Qed.

Lemma link_exchange_success (exc exc' : exchange) w :
  exc_type exc ≠ Some "production" →
  link_exchange pformat foreground background exc = (Ok exc', w) →
  ∃ k, exc' = linked_to k exc ∧ w = [].
Proof.
  intros Hprod. rewrite link_exchange_third_test_dead.
  unfold link_exchange_two_tier.
  rewrite bool_decide_eq_false_2 by done.
  destruct (exc_name exc) as [name|]; [|discriminate].
  destruct (exc_unit exc) as [unit|]; [|discriminate].
  cbn [item bind ret].
  destruct (foreground !! (name, unit)) as [code|].
  - cbn. intros [= <- <-]. by exists code.
  - destruct (exc_location exc) as [location|]; [|discriminate].
    cbn [item bind ret].
    destruct (background !! Key3 (lower name) unit location) as [k|].
    + cbn. intros [= <- <-]. by exists k.
    + cbn. discriminate.
Qed.

(** C4: an exchange that is not a production exchange and whose
    [(name, unit)] is in the foreground index is bound to the foreground
    code, whatever the background index holds (also when it has the
    exchange's [(lower name, unit, location)]); and every successful link
    of such an exchange sets [type] to "technosphere" and
    [uncertainty type] to 0. *)
Theorem link_exchange_foreground_precedence (exc : exchange) name unit code :
  exc_type exc ≠ Some "production" →
  exc_name exc = Some name →
  exc_unit exc = Some unit →
  foreground !! (name, unit) = Some code →
  (∃ exc', link_exchange pformat foreground background exc = (Ok exc', []) ∧
           exc_input exc' = Some code) ∧
  (∀ e e' w, exc_type e ≠ Some "production" →
     link_exchange pformat foreground background e = (Ok e', w) →
     exc_type e' = Some "technosphere" ∧ exc_uncertainty_type e' = Some 0%Z).
Proof.
  intros Hprod Hname Hunit Hfg. split.
  - exists (linked_to code exc). split; [|reflexivity].
    by eapply link_exchange_foreground.
  - intros e e' w He Hlink.
    destruct (link_exchange_success e e' w He Hlink) as (k & -> & _).
    by split.
Qed.

End Linker.

(** ** The segmenter: blocks run from one marker to the next *)

Section Segmenter.

Variable data : list row.

(** The blocks cut at consecutive indices of [idx]. *)
Fixpoint cut (idx : list nat) : list (list row) :=
  match idx with
  | a :: (b :: _) as rest => slice data a b :: cut rest
  | _ => []
  end.

Fixpoint ascending (idx : list nat) : Prop :=
  match idx with
  | a :: (b :: _) as rest => a ≤ b ∧ ascending rest
  | _ => True
  end.

Lemma comprehension_cut (idx : list nat) :
  (λ x, slice data (default 0 (idx !! x)) (default 0 (idx !! (x + 1))))
    <$> seq 0 (length idx - 1) = cut idx.
Proof.
  induction idx as [|a [|b rest] IH]; [reflexivity..|].
  replace (length (a :: b :: rest) - 1) with (S (length (b :: rest) - 1))
    by (cbn [length]; lia).
  change (cut (a :: b :: rest)) with (slice data a b :: cut (b :: rest)).
  cbn [seq fmap list_fmap]. f_equal.
  rewrite <- IH, <- fmap_S_seq, <- list_fmap_compose.
  apply list_fmap_ext. intros _ x _. reflexivity.
Qed.

Lemma length_cut (idx : list nat) : length (cut idx) = length idx - 1.
Proof.
  induction idx as [|a [|b rest] IH]; [reflexivity..|].
  cbn [cut length] in *. lia.
Qed.

Lemma slice_slice (l : list row) a b c :
  a ≤ b → b ≤ c → slice l a b ++ slice l b c = slice l a c.
Proof.
  intros Hab Hbc. unfold slice.
  replace (drop b l) with (drop (b - a) (drop a l))
    by (rewrite drop_drop; f_equal; lia).
  rewrite take_take_drop. f_equal. lia.
Qed.

Lemma ascending_last_ge (a : nat) (idx : list nat) z :
  ascending (a :: idx) → last (a :: idx) = Some z → a ≤ z.
Proof.
  revert a. induction idx as [|b rest IH]; intros a Hasc Hlast.
  - cbn in Hlast. injection Hlast as <-. lia.
  - destruct Hasc as [Hab Hasc]. specialize (IH b Hasc Hlast). lia.
Qed.

Lemma concat_cut (a : nat) (idx : list nat) z :
  ascending (a :: idx) → last (a :: idx) = Some z →
  concat (cut (a :: idx)) = slice data a z.
Proof.
  revert a. induction idx as [|b rest IH]; intros a Hasc Hlast.
  - cbn in Hlast. injection Hlast as <-. unfold slice.
    rewrite Nat.sub_diag. reflexivity.
  - destruct Hasc as [Hab Hasc]. change (last (b :: rest) = Some z) in Hlast.
    change (cut (a :: b :: rest)) with (slice data a b :: cut (b :: rest)).
    cbn [concat]. rewrite (IH b Hasc Hlast).
    apply slice_slice; [done|]. by eapply ascending_last_ge.
Qed.

Lemma slice_to_end (a : nat) : slice data a (length data + 1) = drop a data.
Proof. unfold slice. apply take_ge. rewrite length_drop. lia. Qed.

(** The marker rows: the indices [x >= 2] with [data[x] == ["Process"]]. *)
Definition markers : list nat :=
  filter (λ x, is_process_row (default [] (data !! x))) (seq 2 (length data - 2)).

Lemma is_process_row_spec (r : row) : is_process_row r = true ↔ r = ["Process"].
Proof.
  destruct r as [|f [|g r]]; cbn; split; try discriminate; try done.
  - rewrite andb_true_r. intros H%bool_decide_eq_true. by subst.
  - intros [= ->]. reflexivity.
  - rewrite andb_false_r. discriminate.
Qed.

Lemma elem_of_markers (x : nat) :
  x ∈ markers ↔ 2 ≤ x ∧ data !! x = Some ["Process"].
Proof.
  unfold markers. rewrite list_elem_of_filter, elem_of_seq, Is_true_true.
  rewrite is_process_row_spec. split.
  - intros [Hrow Hx]. split; [lia|].
    destruct (data !! x) as [r|]; cbn in Hrow; [by subst|discriminate].
  - intros [Hx Hrow]. rewrite Hrow. split; [done|].
    apply lookup_lt_Some in Hrow. lia.
Qed.

Lemma filter_seq_ascending (P : nat → Prop) `{!∀ x, Decision (P x)} (a n z : nat) :
  (0 < n → a + n ≤ z) → ascending (filter P (seq a n) ++ [z]).
Proof.
  revert a. induction n as [|n IH]; intros a Hz; [exact I|].
  specialize (Hz ltac:(lia)).
  cbn [seq]. rewrite filter_cons. specialize (IH (S a) ltac:(lia)).
  destruct (decide (P a)); [|done].
  cbn [app]. destruct (filter P (seq (S a) n) ++ [z]) as [|b rest] eqn:Heq.
  - exact I.
  - split; [|done].
    assert (Hb : b ∈ filter P (seq (S a) n) ++ [z]) by (rewrite Heq; left).
    rewrite elem_of_app, list_elem_of_filter, elem_of_seq, list_elem_of_singleton in Hb.
    destruct Hb as [[_ ?]| ->]; lia.
Qed.

Lemma length_filter_seq (p : row → bool) (pre l : list row) :
  length (filter (λ x, p (default [] ((pre ++ l) !! x))) (seq (length pre) (length l)))
  = length (filter (λ r, p r) l).
Proof.
  revert pre. induction l as [|r l IH]; intros pre; [reflexivity|].
  cbn [length seq]. rewrite !filter_cons.
  rewrite (list_lookup_middle pre l r (length pre) eq_refl).
  change (default [] (Some r)) with r.
  specialize (IH (pre ++ [r])). rewrite <- app_assoc, length_app in IH.
  cbn [length app] in IH. rewrite Nat.add_1_r in IH.
  destruct (decide (p r)); cbn [length]; by rewrite IH.
Qed.

(** The number of marker rows, counted on the rows themselves. *)
Definition marker_count : nat := length (filter (λ r, is_process_row r) (drop 2 data)).

Lemma length_markers : length markers = marker_count.
Proof.
  unfold markers, marker_count.
  destruct (decide (2 ≤ length data)) as [Hlen|Hlen].
  - pose proof (length_filter_seq is_process_row (take 2 data) (drop 2 data)) as H.
    rewrite take_drop, length_take, length_drop in H.
    by replace (2 `min` length data) with 2 in H by lia.
  - replace (length data - 2) with 0 by lia.
    rewrite drop_ge by lia. reflexivity.
Qed.

End Segmenter.

Lemma clean_data_named (n : string) (data : list row) :
  clean_data (Some n) data = (Ok (n, cut data (get_process_indices data)), []).
Proof. unfold clean_data. cbn [bind ret]. by rewrite comprehension_cut. Qed.

Lemma get_process_indices_markers (data : list row) :
  get_process_indices data = markers data ++ [length data + 1].
Proof. reflexivity. Qed.

(** The reading of the coverage sentence: the two header rows followed
    by the blocks, in order, are the input. *)
Definition segmenter_covers_input (data : list row) : Prop :=
  ∀ n blocks, clean_data (Some n) data = (Ok (n, blocks), []) →
              take 2 data ++ concat blocks = data.

(** C6, counterexample: a row between the header rows and the first
    marker belongs to no block, so the header rows and the blocks do not
    make up the input. *)
Lemma segmenter_leaves_preamble_out :
  let data := [ ["{SimaPro 7.3}"]; ["Project"; "p"]; ["{Date: today}"];
                ["Process"]; ["Products"] ] in
  clean_data (Some "p") data = (Ok ("p", [[["Process"]; ["Products"]]]), []) ∧
  take 2 data ++ concat [[["Process"]; ["Products"]]] ≠ data ∧
  ¬ segmenter_covers_input data.
Proof.
  split; [reflexivity|]. split; [discriminate|].
  intros H. specialize (H "p" _ eq_refl). discriminate H.
Qed.

(** C6, as the code has it: a file with [K] marker rows (rows equal to
    [["Process"]] at an index from 2 on) is cut into exactly [K] blocks;
    block [i] is [data[idx[i]:idx[i+1]]], where [idx] lists the marker
    indices followed by [len(data) + 1], so it starts with its marker
    row; the blocks are consecutive and together are exactly the rows
    from the first marker row to the end of the input (the rows before
    the first marker are in no block); no marker row gives no block and
    no error. *)
Theorem clean_data_blocks (n : string) (data : list row) :
  ∃ blocks,
    clean_data (Some n) data = (Ok (n, blocks), []) ∧
    length blocks = marker_count data ∧
    (∀ x, x ∈ markers data ↔ 2 ≤ x ∧ data !! x = Some ["Process"]) ∧
    get_process_indices data = markers data ++ [length data + 1] ∧
    (∀ i a b, get_process_indices data !! i = Some a →
              get_process_indices data !! (i + 1) = Some b →
              a ≤ b ∧ blocks !! i = Some (slice data a b)) ∧
    concat blocks = drop (default (length data) (head (markers data))) data ∧
    (marker_count data = 0 → blocks = []).
Proof.
  exists (cut data (get_process_indices data)).
  pose proof (filter_seq_ascending
                (λ x, is_process_row (default [] (data !! x)))
                2 (length data - 2) (length data + 1) ltac:(lia)) as Hasc.
  fold (markers data) in Hasc.
  split; [apply clean_data_named|].
  split; [|split; [|split; [|split; [|split]]]].
  - rewrite length_cut, get_process_indices_markers, length_app, length_markers.
    cbn [length]. lia.
  - apply elem_of_markers.
  - reflexivity.
  - intros i a b Ha Hb. rewrite get_process_indices_markers in *.
    assert (Hi : i < length (markers data ++ [length data + 1]) - 1).
    { apply lookup_lt_Some in Hb. lia. }
    split.
    + clear Hi. revert i Ha Hb Hasc.
      generalize (markers data ++ [length data + 1]).
      intros idx. induction idx as [|x [|y idx] IH]; intros i Ha Hb Hasc.
      * done.
      * rewrite Nat.add_1_r in Hb. done.
      * destruct Hasc as [Hxy Hasc]. destruct i as [|i].
        -- cbn in Ha, Hb. by simplify_eq.
        -- apply (IH i); done.
    + rewrite <- comprehension_cut, list_lookup_fmap, lookup_seq_lt by done.
      cbn [fmap option_fmap option_map]. rewrite Nat.add_0_l, Ha, Hb. reflexivity.
  - rewrite get_process_indices_markers.
    destruct (markers data) as [|m ms] eqn:Hm.
    + cbn. by rewrite drop_all.
    + cbn [head default from_option id]. rewrite <- app_comm_cons in *.
      rewrite (concat_cut data m (ms ++ [length data + 1]) (length data + 1)).
      * apply slice_to_end.
      * exact Hasc.
      * rewrite app_comm_cons. apply last_snoc.
  - intros HK. rewrite get_process_indices_markers.
    rewrite <- length_markers in HK. apply nil_length_inv in HK. by rewrite HK.
Qed.

(** ** The detoxifier: the suffix is found wherever the name ends in it *)

Fixpoint all_upper (s : string) : bool :=
  match s with
  | EmptyString => true
  | String a s' => is_upper a && all_upper s'
  end.

Lemma append_assoc (a b c : string) : (a +:+ b) +:+ c = a +:+ (b +:+ c).
Proof. induction a as [|x a IH]; simpl; [reflexivity|by rewrite IH]. Qed.

Lemma append_nil_r (a : string) : a +:+ "" = a.
Proof. induction a as [|x a IH]; simpl; [reflexivity|by rewrite IH]. Qed.

Lemma length_append (a b : string) :
  String.length (a +:+ b) = String.length a + String.length b.
Proof. induction a as [|x a IH]; simpl; [reflexivity|by rewrite IH]. Qed.

Lemma at_end_long (x : string) a b y :
  at_end (x +:+ String a (String b y)) = false.
Proof. destruct x as [|? [|? ?]]; reflexivity. Qed.

Lemma re_sub_skip_all (s : string) k :
  String.length s ≤ k → re_sub k s = "".
Proof.
  revert k. induction s as [|a s IH]; intros k Hk; [reflexivity|].
  cbn in Hk. destruct k as [|k]; [lia|]. cbn. apply IH. lia.
Qed.

(** The suffix [/<geo><q> <c>]: [geo] of 2 to 10 capitals, [q] the
    optional [/I], then a blank and [S] or [U]. *)
Definition qualifier (c : ascii) : string := String " " (String c "").
Definition suffix (geo q : string) (c : ascii) : string :=
  String "/" (geo +:+ q +:+ qualifier c).

Definition is_group (q : string) : Prop := q = "" ∨ q = "/I".
Definition is_qualifier (c : ascii) : Prop := c = "S"%char ∨ c = "U"%char.

Lemma match_qualifier_here c : is_qualifier c → match_qualifier (qualifier c) = Some 2.
Proof. intros [-> | ->]; reflexivity. Qed.

Lemma match_tail_here q c :
  is_group q → is_qualifier c →
  match_tail (q +:+ qualifier c) = Some (q, String.length q + 2).
Proof.
  intros [-> | ->] Hc.
  - unfold match_tail. cbn [String.append]. rewrite match_qualifier_here by done.
    destruct Hc as [-> | ->]; reflexivity.
  - unfold match_tail. cbn [String.append].
    rewrite !bool_decide_eq_true_2 by done.
    cbn [andb]. fold (qualifier c). rewrite match_qualifier_here by done.
    reflexivity.
Qed.

Lemma not_upper_after_geo q c :
  is_group q → ∃ a t, q +:+ qualifier c = String a t ∧ is_upper a = false.
Proof. intros [-> | ->]; eexists _, _; split; reflexivity. Qed.

Lemma match_geo_here (g q : string) (c : ascii) (n : nat) :
  is_group q → is_qualifier c →
  all_upper g = true → 2 ≤ n + String.length g → n + String.length g ≤ 10 →
  match_geo n (g +:+ q +:+ qualifier c)
  = Some (g, q, String.length g + (String.length q + 2)).
Proof.
  intros Hq Hc. revert n. induction g as [|a g IH]; intros n Hup Hmin Hmax.
  - cbn [String.append String.length] in *.
    destruct (not_upper_after_geo q c Hq) as (a & t & Heq & Ha).
    rewrite Heq. cbn [match_geo]. rewrite Ha. cbn [andb].
    replace (2 <=? n) with true by (symmetry; apply Nat.leb_le; lia).
    rewrite <- Heq, (match_tail_here q c Hq Hc). reflexivity.
  - cbn [all_upper] in Hup. apply andb_true_iff in Hup as [Ha Hg].
    cbn [String.append String.length] in *. cbn [match_geo]. rewrite Ha.
    replace (n <? 10) with true by (symmetry; apply Nat.ltb_lt; lia).
    cbn [andb]. rewrite (IH (S n)) by (done || lia). reflexivity.
Qed.

Lemma match_here_suffix (geo q : string) (c : ascii) :
  is_group q → is_qualifier c →
  all_upper geo = true → 2 ≤ String.length geo → String.length geo ≤ 10 →
  match_here (suffix geo q c) = Some (geo, q, String.length (suffix geo q c)).
Proof.
  intros Hq Hc Hup Hmin Hmax.
  unfold suffix, match_here. rewrite bool_decide_eq_true_2 by done.
  rewrite match_geo_here by (done || lia).
  cbn [fmap option_fmap option_map String.length].
  rewrite !length_append. reflexivity.
Qed.

Lemma at_end_length t : at_end t = true → String.length t ≤ 1.
Proof. destruct t as [|? [|? ?]]; cbn; (lia || discriminate). Qed.

Lemma match_qualifier_shape t n :
  match_qualifier t = Some n →
  ∃ r, t = String " " r ∧ String.length r ≤ 2.
Proof.
  destruct t as [|a [|b r]]; cbn; try discriminate.
  destruct (bool_decide (a = " "%char)) eqn:Ha; [|discriminate].
  apply bool_decide_eq_true in Ha as ->.
  destruct (at_end r) eqn:Hend; [|by rewrite andb_false_r].
  intros _. apply at_end_length in Hend. eexists. split; [reflexivity|].
  cbn [String.length]. lia.
Qed.

Lemma match_tail_shape t g n :
  match_tail t = Some (g, n) →
  String.length t ≤ 3 ∨
  ∃ r, t = String "/" (String "I" (String " " r)) ∧ String.length r ≤ 2.
Proof.
  unfold match_tail.
  assert (Hskip : (λ n, ("", n)) <$> match_qualifier t = Some (g, n) →
                  String.length t ≤ 3).
  { destruct (match_qualifier t) eqn:Hq; [|discriminate].
    intros _. apply match_qualifier_shape in Hq as (r & -> & Hr).
    cbn [String.length]. lia. }
  destruct t as [|a [|b r]]; [by left; apply Hskip..|].
  destruct (bool_decide (a = "/"%char) && bool_decide (b = "I"%char)) eqn:Hab;
    [|by left; apply Hskip].
  apply andb_true_iff in Hab as [->%bool_decide_eq_true ->%bool_decide_eq_true].
  destruct (match_qualifier r) eqn:Hq; [|by left; apply Hskip].
  intros _. right. apply match_qualifier_shape in Hq as (r' & -> & Hr).
  by exists r'.
Qed.

Section NoEarlierMatch.

Variables (geo q : string) (c : ascii).
Hypothesis geo_upper : all_upper geo = true.
Hypothesis geo_min : 2 ≤ String.length geo.

Lemma length_suffix :
  String.length (suffix geo q c) = String.length geo + String.length q + 3.
Proof.
  unfold suffix, qualifier. cbn [String.length].
  rewrite !length_append. cbn [String.length]. lia.
Qed.

(** Nowhere in front of the suffix can the rest of the pattern match: too
    much text follows. *)
Lemma match_tail_before (x : string) : match_tail (x +:+ suffix geo q c) = None.
Proof.
  destruct (match_tail (x +:+ suffix geo q c)) as [[g n]|] eqn:Htail; [|reflexivity].
  exfalso. apply match_tail_shape in Htail.
  pose proof length_suffix as Hlen.
  destruct Htail as [Hshort | (r & Heq & Hr)].
  - rewrite length_append in Hshort. lia.
  - destruct x as [|x0 [|x1 x]].
    + unfold suffix in Heq. cbn [String.append] in Heq.
      destruct geo as [|g0 [|g1 geo']]; cbn [String.length] in geo_min; [lia..|].
      cbn [String.append] in Heq. injection Heq as -> -> _.
      cbn [all_upper] in geo_upper.
      apply andb_true_iff in geo_upper as [_ [Hg1 _]%andb_true_iff].
      discriminate Hg1.
    + unfold suffix in Heq. cbn [String.append] in Heq. discriminate Heq.
    + cbn [String.append] in Heq. injection Heq as _ _ Heq.
      apply (f_equal String.length) in Heq.
      rewrite length_append in Heq. cbn [String.length] in Heq. lia.
Qed.

Lemma match_geo_before (x : string) (n : nat) :
  match_geo n (x +:+ suffix geo q c) = None.
Proof.
  revert n. induction x as [|a x IH]; intros n.
  - pose proof (match_tail_before "") as Htail. cbn [String.append] in *.
    unfold suffix in *. cbn [match_geo]. rewrite Htail.
    change (is_upper "/") with false. cbn [andb]. by destruct (2 <=? n).
  - pose proof (match_tail_before (String a x)) as Htail.
    cbn [String.append] in *. cbn [match_geo]. rewrite IH, Htail.
    by destruct (is_upper a && (n <? 10)), (2 <=? n).
Qed.

Lemma match_here_before (a : ascii) (x : string) :
  match_here (String a x +:+ suffix geo q c) = None.
Proof.
  cbn [String.append match_here]. rewrite match_geo_before.
  by destruct (bool_decide (a = "/"%char)).
Qed.

End NoEarlierMatch.

Section SuffixMatch.

Variables (geo q : string) (c : ascii).
Hypothesis q_group : is_group q.
Hypothesis c_qualifier : is_qualifier c.
Hypothesis geo_upper : all_upper geo = true.
Hypothesis geo_min : 2 ≤ String.length geo.
Hypothesis geo_max : String.length geo ≤ 10.

Lemma findall_suffix (pre : string) :
  ∃ more, findall 0 (pre +:+ suffix geo q c) = (geo, q) :: more.
Proof.
  induction pre as [|a pre IH].
  - cbn [String.append].
    pose proof (match_here_suffix geo q c q_group c_qualifier geo_upper
                  geo_min geo_max) as Hm.
    unfold suffix in *. cbn [findall]. rewrite Hm. eauto.
  - pose proof (match_here_before geo q c geo_upper geo_min a pre) as Hm.
    cbn [String.append] in *. cbn [findall]. rewrite Hm. exact IH.
Qed.

Lemma re_sub_suffix (pre : string) : re_sub 0 (pre +:+ suffix geo q c) = pre.
Proof.
  induction pre as [|a pre IH].
  - cbn [String.append].
    pose proof (match_here_suffix geo q c q_group c_qualifier geo_upper
                  geo_min geo_max) as Hm.
    unfold suffix in *. cbn [re_sub]. rewrite Hm.
    apply re_sub_skip_all. cbn [String.length]. lia.
  - pose proof (match_here_before geo q c geo_upper geo_min a pre) as Hm.
    cbn [String.append] in *. cbn [re_sub]. rewrite Hm. by rewrite IH.
Qed.

Lemma detoxify_suffix (pre : string) :
  detoxify (pre +:+ suffix geo q c) = (Ok (pre, GeoStr geo), []).
Proof.
  unfold detoxify. destruct (findall_suffix pre) as [more ->].
  by rewrite re_sub_suffix.
Qed.

End SuffixMatch.

Lemma detoxify_no_match (s : string) :
  findall 0 s = [] →
  detoxify s =
    if all_ascii s
    then (Ok (s, GeoFalse),
          [Warning ("Name '" +:+ s +:+
                    "' doesn't have SimaPro slashes™ - matched without slashes")])
    else (Raise UnicodeDecodeError, []).
Proof.
  intros Hnone. unfold detoxify, format_no_slashes. rewrite Hnone.
  by destruct (all_ascii s).
Qed.

(** C7: [detoxify] maps "Electricity/CH U" to [("Electricity", "CH")]
    without logging, and "Odd Name" to [("Odd Name", False)] with exactly
    one warning; every name that ends in the suffix comes back with the
    suffix stripped, paired with the geography code; a name without a
    match comes back unchanged, paired with [False], with one warning,
    when it is plain ASCII, but when it holds a byte above 127 the
    formatting of the warning raises [UnicodeDecodeError] and nothing is
    returned (the name "Béton", in UTF-8, is such a name). *)
Theorem detoxify_contract :
  detoxify "Electricity/CH U" = (Ok ("Electricity", GeoStr "CH"), []) ∧
  (∃ msg, detoxify "Odd Name" = (Ok ("Odd Name", GeoFalse), [Warning msg])) ∧
  (∀ pre geo q c,
     is_group q → is_qualifier c → all_upper geo = true →
     2 ≤ String.length geo → String.length geo ≤ 10 →
     detoxify (pre +:+ suffix geo q c) = (Ok (pre, GeoStr geo), [])) ∧
  (∀ s, findall 0 s = [] → all_ascii s = true →
        ∃ msg, detoxify s = (Ok (s, GeoFalse), [Warning msg])) ∧
  (∀ s, findall 0 s = [] → all_ascii s = false →
        detoxify s = (Raise UnicodeDecodeError, [])) ∧
  detoxify "Béton" = (Raise UnicodeDecodeError, []).
Proof.
  split; [reflexivity|]. split; [eexists; reflexivity|].
  split; [intros; by apply detoxify_suffix|].
  split; [|split; [|reflexivity]].
  - intros s Hnone Hascii. rewrite detoxify_no_match, Hascii by done. eauto.
  - intros s Hnone Hascii. by rewrite detoxify_no_match, Hascii.
Qed.

Lemma detoxify_contract_witness :
  detoxify ("Transport, lorry 16t" +:+ suffix "RER" "/I" "U")
  = (Ok ("Transport, lorry 16t", GeoStr "RER"), []).
Proof.
  apply detoxify_contract;
    [by right | by right | reflexivity | cbn; lia | cbn; lia].
Defined.

(** ** Laws of the logging monad *)

Lemma bind_ret_l {A B} (a : A) (k : A → L B) : bind (ret a) k = k a.
Proof. unfold bind, ret. by destruct (k a). Qed.

Lemma bind_Ok_inv {A B} (m : L A) (k : A → L B) b w :
  bind m k = (Ok b, w) →
  ∃ a w1 w2, m = (Ok a, w1) ∧ k a = (Ok b, w2) ∧ w = w1 ++ w2.
Proof.
  unfold bind. destruct m as [[a|e] w1]; [|discriminate].
  destruct (k a) as [r w2] eqn:Hk. intros [= -> <-]. by exists a, w1, w2.
Qed.

Lemma bind_Ok {A B} (m : L A) (k : A → L B) a w1 :
  m = (Ok a, w1) → bind m k = ((k a).1, w1 ++ (k a).2).
Proof. intros ->. unfold bind. by destruct (k a). Qed.

Lemma bind_Raise {A B} (m : L A) (k : A → L B) e w1 :
  m = (Raise e, w1) → bind m k = (Raise e, w1).
Proof. by intros ->. Qed.

Lemma getitem_Ok_inv {A} (l : list A) i x w :
  getitem l i = (Ok x, w) → l !! i = Some x ∧ w = [].
Proof. unfold getitem. destruct (l !! i); [|discriminate]. by intros [= -> <-]. Qed.

Lemma getitem_Some {A} (l : list A) i x : l !! i = Some x → getitem l i = ret x.
Proof. unfold getitem. by intros ->. Qed.

Lemma assert_Ok_inv cond msg u w :
  assert cond msg = (Ok u, w) → cond = true ∧ w = [].
Proof. unfold assert. destruct cond; [|discriminate]. by intros [= <- <-]. Qed.

Lemma item_Ok_inv {A} k (v : option A) x w :
  item k v = (Ok x, w) → v = Some x ∧ w = [].
Proof. unfold item. destruct v; [|discriminate]. by intros [= -> <-]. Qed.

Lemma list_filter_fmap_seq {A B} (f : A → B) (P : B → Prop)
    `{!∀ x, Decision (P x)} (l : list A) :
  filter P (f <$> l) = f <$> filter (P ∘ f) l.
Proof.
  induction l as [|x l IH]; [reflexivity|].
  cbn [fmap list_fmap]. rewrite !filter_cons. unfold compose at 1.
  destruct (decide (P (f x))); cbn [fmap list_fmap]; by rewrite IH.
Qed.

(** ** The exchange extractor: which rows become exchanges *)

(** The label a one-field row assigns. *)
Definition label_of_row (r : row) : option string :=
  match r with
  | [f] => Some f
  | _ => None
  end.

(** The value of [label] when the loop, entered with [l0], reaches row
    [i] of [rows]: the field of the last one-field row before [i]. *)
Definition label_from (l0 : option string) (rows : list row) (i : nat)
  : option string :=
  match last (omap label_of_row (take i rows)) with
  | Some f => Some f
  | None => l0
  end.

Definition step_label (l0 : option string) (line : row) : option string :=
  match label_of_row line with
  | Some f => Some f
  | None => l0
  end.

Lemma label_from_0 l0 rows : label_from l0 rows 0 = l0.
Proof. unfold label_from. by rewrite take_0. Qed.

Lemma label_from_S l0 line rest i :
  label_from l0 (line :: rest) (S i) = label_from (step_label l0 line) rest i.
Proof.
  unfold label_from, step_label. cbn [take omap list_omap].
  destruct (label_of_row line) as [f|]; [|reflexivity].
  rewrite last_cons. by destruct (last (omap label_of_row (take i rest))).
Qed.

(** Row [i] is a row of two fields or more under a label that is not a
    biosphere label. *)
Definition yields (l0 : option string) (rows : list row) (i : nat) : bool :=
  match rows !! i, label_from l0 rows i with
  | Some line, Some lab =>
      bool_decide (2 ≤ length line)
      && negb (bool_decide (lab ∈ SIMAPRO_BIOSPHERE))
  | _, _ => false
  end.

Lemma yields_S l0 line rest i :
  yields l0 (line :: rest) (S i) = yields (step_label l0 line) rest i.
Proof. unfold yields. by rewrite label_from_S. Qed.

Lemma filter_yields_cons l0 line rest :
  filter (λ i, yields l0 (line :: rest) i) (seq 0 (S (length rest)))
  = (if yields l0 (line :: rest) 0 then [0] else [])
    ++ (S <$> filter (λ i, yields (step_label l0 line) rest i)
                (seq 0 (length rest))).
Proof.
  cbn [seq]. rewrite filter_cons, <- fmap_S_seq, list_filter_fmap_seq.
  rewrite (list_filter_iff _ (λ i, yields (step_label l0 line) rest i)).
  - by destruct (yields l0 (line :: rest) 0).
  - intros i. unfold compose. by rewrite yields_S.
Qed.

Section Extractor.

Variable py_float : string → option spec_float.
Variable normalize_units : string → string.
Variable activity_hash : string → string → string → list string → string.

Lemma float_Ok_inv s x w : float py_float s = (Ok x, w) → py_float s = Some x ∧ w = [].
Proof. unfold float. destruct (py_float s); [|discriminate]. by intros [= -> <-]. Qed.

(** The exchange that the loop builds from [line] under label [lab]. *)
Definition exchange_of_row (lab : string) (line : row) (e : exchange) : Prop :=
  ∃ f0 f1 f2 f3 name geo amount w,
    line !! 0 = Some f0 ∧ line !! 1 = Some f1 ∧
    line !! 2 = Some f2 ∧ line !! 3 = Some f3 ∧
    detoxify f0 = (Ok (name, geo), w) ∧ py_float f1 = Some amount ∧
    e = Exchange (Some name) (Some amount) (Some lab)
          (Some (normalize_units f2)) (Some f3) (Some geo) None None None.

(** Exchange [e] comes from row [i]. *)
Definition from_row (l0 : option string) (rows : list row) (i : nat)
    (e : exchange) : Prop :=
  ∃ line lab, rows !! i = Some line ∧ label_from l0 rows i = Some lab ∧
              exchange_of_row lab line e.

Lemma from_row_S l0 line rest i e :
  from_row l0 (line :: rest) (S i) e ↔ from_row (step_label l0 line) rest i e.
Proof. unfold from_row. by rewrite label_from_S. Qed.

Lemma Forall2_from_row_shift l0 line rest idxs new :
  Forall2 (from_row (step_label l0 line) rest) idxs new →
  Forall2 (from_row l0 (line :: rest)) (S <$> idxs) new.
Proof.
  intros H. apply Forall2_fmap_l. eapply Forall2_impl; [exact H|].
  intros i e Hie. by apply from_row_S.
Qed.

(** The loop invariant: on success the result is the accumulator
    followed by one exchange per yielding row, in row order, and every
    row of two fields or more was reached with [label] bound. *)
Lemma get_exchanges_loop_spec lines l0 acc exs w :
  get_exchanges_loop py_float normalize_units lines l0 acc = (Ok exs, w) →
  ∃ new, exs = acc ++ new ∧
    Forall2 (from_row l0 lines)
      (filter (λ i, yields l0 lines i) (seq 0 (length lines))) new ∧
    (∀ i line, lines !! i = Some line → 2 ≤ length line →
               is_Some (label_from l0 lines i)).
Proof.
  revert l0 acc exs w. induction lines as [|line rest IH]; intros l0 acc exs w Hloop.
  - cbn in Hloop. injection Hloop as <- <-. exists [].
    rewrite app_nil_r. split; [done|]. split; [constructor|]. intros i line Hi. done.
  - cbn [get_exchanges_loop] in Hloop. cbn [length].
    rewrite filter_yields_cons.
    assert (Hy0 : yields l0 (line :: rest) 0 =
                  match l0 with
                  | Some lab => bool_decide (2 ≤ length line)
                                && negb (bool_decide (lab ∈ SIMAPRO_BIOSPHERE))
                  | None => false
                  end).
    { unfold yields. rewrite label_from_0. reflexivity. }
    rewrite Hy0.
    assert (Hrest :
      (∀ i ln, rest !! i = Some ln → 2 ≤ length ln →
               is_Some (label_from (step_label l0 line) rest i)) →
      (2 ≤ length line → is_Some l0) →
      ∀ i ln, (line :: rest) !! i = Some ln → 2 ≤ length ln →
              is_Some (label_from l0 (line :: rest) i)).
    { intros Hr H0 [|i] ln Hi Hln.
      - rewrite label_from_0. cbn in Hi. injection Hi as ->. by apply H0.
      - rewrite label_from_S. by eapply Hr. }
    destruct (decide (length line = 0)) as [Hlen0|Hlen0];
      [rewrite (bool_decide_eq_true_2 _ Hlen0) in Hloop
      |rewrite (bool_decide_eq_false_2 _ Hlen0) in Hloop].
    { (* a blank row *)
      apply nil_length_inv in Hlen0 as ->.
      apply IH in Hloop as (new & -> & HF & Hlab). exists new.
      split; [done|]. split.
      - replace (match l0 with Some lab => _ | None => false end) with false
          by (by destruct l0).
        cbn [app]. by apply Forall2_from_row_shift.
      - apply Hrest; [exact Hlab|]. cbn. lia. }
    destruct (decide (length line = 1)) as [Hlen1|Hlen1];
      [rewrite (bool_decide_eq_true_2 _ Hlen1) in Hloop
      |rewrite (bool_decide_eq_false_2 _ Hlen1) in Hloop].
    { (* a label row *)
      destruct line as [|f [|??]]; try discriminate Hlen1.
      rewrite (getitem_Some [f] 0 f eq_refl), bind_ret_l in Hloop.
      apply IH in Hloop as (new & -> & HF & Hlab). exists new.
      split; [done|]. split.
      - replace (match l0 with Some lab => _ | None => false end) with false
          by (by destruct l0).
        cbn [app]. by apply Forall2_from_row_shift.
      - apply Hrest; [exact Hlab|]. cbn. lia. }
    assert (Hlen : 2 ≤ length line) by lia.
    rewrite (bool_decide_eq_true_2 _ Hlen). cbn [andb].
    destruct l0 as [lab|]; [|discriminate Hloop].
    assert (Hstep : step_label (Some lab) line = Some lab).
    { unfold step_label. by destruct line as [|? [|??]]; try (cbn in *; lia). }
    rewrite Hstep in *.
    destruct (decide (lab ∈ SIMAPRO_BIOSPHERE)) as [Hbio|Hbio];
      [rewrite (bool_decide_eq_true_2 _ Hbio) in *
      |rewrite (bool_decide_eq_false_2 _ Hbio) in *].
    { (* under a biosphere label *)
      apply IH in Hloop as (new & -> & HF & Hlab). exists new.
      split; [done|]. split.
      - cbn [negb app]. by apply Forall2_from_row_shift; rewrite Hstep.
      - apply Hrest; [exact Hlab|]. eauto. }
    (* an exchange row *)
    apply bind_Ok_inv in Hloop as (f0 & ? & ? & [Hf0 ->]%getitem_Ok_inv & Hloop & ->).
    apply bind_Ok_inv in Hloop as ([name geo] & wd & ? & Hdetox & Hloop & ->).
    apply bind_Ok_inv in Hloop as (f1 & ? & ? & [Hf1 ->]%getitem_Ok_inv & Hloop & ->).
    apply bind_Ok_inv in Hloop as (amount & ? & ? & [Hamount ->]%float_Ok_inv & Hloop & ->).
    apply bind_Ok_inv in Hloop as (f2 & ? & ? & [Hf2 ->]%getitem_Ok_inv & Hloop & ->).
    apply bind_Ok_inv in Hloop as (f3 & ? & ? & [Hf3 ->]%getitem_Ok_inv & Hloop & ->).
    apply IH in Hloop as (new & -> & HF & Hlab).
    eexists (_ :: new). split; [by rewrite <- app_assoc|]. split.
    + cbn [negb app fmap list_fmap]. constructor.
      * exists line, lab. split; [done|]. split; [by rewrite label_from_0|].
        by exists f0, f1, f2, f3, name, geo, amount, wd.
      * by apply Forall2_from_row_shift; rewrite Hstep.
    + apply Hrest; [exact Hlab|]. eauto.
Qed.

Lemma get_exchanges_eq block x :
  get_exchanges_index block = Some x → block !! (x + 2) = Some [] →
  get_exchanges py_float normalize_units block
  = get_exchanges_loop py_float normalize_units (drop (x + 3) block) None [].
Proof.
  intros Hx Hrow. unfold get_exchanges. rewrite Hx. cbn [plus_index].
  rewrite bind_ret_l, (getitem_Some _ _ _ Hrow), bind_ret_l.
  cbn [length bool_decide]. rewrite bool_decide_eq_true_2 by done.
  cbn [assert]. by rewrite !bind_ret_l.
Qed.

Lemma get_exchanges_Ok_inv block exs w :
  get_exchanges py_float normalize_units block = (Ok exs, w) →
  ∃ x, get_exchanges_index block = Some x ∧ block !! (x + 2) = Some [] ∧
       get_exchanges_loop py_float normalize_units (drop (x + 3) block) None []
       = (Ok exs, w).
Proof.
  intros Hget. unfold get_exchanges in Hget.
  destruct (get_exchanges_index block) as [x|] eqn:Hx; [|discriminate Hget].
  exists x. split; [done|]. cbn [plus_index] in Hget.
  rewrite bind_ret_l in Hget.
  apply bind_Ok_inv in Hget as (r & ? & ? & [Hr ->]%getitem_Ok_inv & Hget & ->).
  apply bind_Ok_inv in Hget as ([] & ? & ? & [Hlen ->]%assert_Ok_inv & Hget & ->).
  apply bool_decide_eq_true, nil_length_inv in Hlen as ->.
  rewrite bind_ret_l in Hget. done.
Qed.

Lemma label_from_None_Some rows i lab :
  label_from None rows i = Some lab → ∃ j, j < i ∧ rows !! j = Some [lab].
Proof.
  unfold label_from.
  destruct (last (omap label_of_row (take i rows))) as [f|] eqn:Hlast; [|discriminate].
  intros [= ->]. apply last_Some_elem_of, list_elem_of_omap in Hlast as (r & Hr & Hlab).
  apply list_elem_of_lookup in Hr as [j Hj].
  assert (r = [lab]) as ->.
  { destruct r as [|? [|??]]; cbn in Hlab; by simplify_eq. }
  exists j. pose proof (lookup_lt_Some _ _ _ Hj) as Hlt.
  rewrite length_take in Hlt. split; [lia|].
  by rewrite lookup_take_lt in Hj by lia.
Qed.

Lemma get_exchanges_loop_blanks blanks line rest acc :
  Forall (λ r : row, r = []) blanks → 2 ≤ length line →
  get_exchanges_loop py_float normalize_units (blanks ++ line :: rest) None acc
  = (Raise (UnboundLocalError "label"), []).
Proof.
  intros Hblanks Hline. induction Hblanks as [|r blanks -> _ IH].
  - cbn [app get_exchanges_loop].
    rewrite !bool_decide_eq_false_2 by lia. reflexivity.
  - cbn [app get_exchanges_loop length]. by rewrite bool_decide_eq_true_2.
Qed.

(** C10: when a row of two fields or more comes before any one-field
    row among the rows from [p + 3] on (only blank rows before it), the
    extractor raises [UnboundLocalError] for [label], which is no error
    of the taxonomy; so whenever the extractor returns, every row of two
    fields or more has a one-field row before it. *)
Theorem get_exchanges_unbound_label block x :
  get_exchanges_index block = Some x → block !! (x + 2) = Some [] →
  (∀ blanks line rest,
     drop (x + 3) block = blanks ++ line :: rest →
     Forall (λ r : row, r = []) blanks → 2 ≤ length line →
     get_exchanges py_float normalize_units block
     = (Raise (UnboundLocalError "label"), []) ∧
     taxonomy (UnboundLocalError "label") = None) ∧
  (∀ exs w,
     get_exchanges py_float normalize_units block = (Ok exs, w) →
     ∀ i line, drop (x + 3) block !! i = Some line → 2 ≤ length line →
               ∃ j f, j < i ∧ drop (x + 3) block !! j = Some [f]).
Proof.
  intros Hx Hrow. rewrite (get_exchanges_eq block x Hx Hrow). split.
  - intros blanks line rest -> Hblanks Hline. split; [|reflexivity].
    by apply get_exchanges_loop_blanks.
  - intros exs w Hloop i line Hi Hline.
    apply get_exchanges_loop_spec in Hloop as (new & _ & _ & Hlab).
    destruct (Hlab i line Hi Hline) as [lab Hsome].
    apply label_from_None_Some in Hsome as (j & Hj & Hrowj). eauto.
Qed.

(** C8: the exchanges extracted from a block are, in order, one per row
    of two fields or more whose current label is no biosphere label; a
    row under a biosphere label and a one-field row are the origin of no
    exchange, and no exchange carries a biosphere label. *)
Theorem get_exchanges_skips_biosphere block exs w :
  get_exchanges py_float normalize_units block = (Ok exs, w) →
  ∃ x idxs,
    get_exchanges_index block = Some x ∧
    let rows := drop (x + 3) block in
    idxs = filter (λ i, yields None rows i) (seq 0 (length rows)) ∧
    Forall2 (from_row None rows) idxs exs ∧
    (∀ i line lab, rows !! i = Some line → label_from None rows i = Some lab →
                   lab ∈ SIMAPRO_BIOSPHERE → i ∉ idxs) ∧
    (∀ i f, rows !! i = Some [f] → i ∉ idxs) ∧
    (∀ e, e ∈ exs → ∃ lab, exc_comment e = Some lab ∧ lab ∉ SIMAPRO_BIOSPHERE).
Proof.
  intros Hget. apply get_exchanges_Ok_inv in Hget as (x & Hx & _ & Hloop).
  apply get_exchanges_loop_spec in Hloop as (new & Hexs & HF & _).
  cbn [app] in Hexs. subst new.
  exists x, (filter (λ i, yields None (drop (x + 3) block) i)
               (seq 0 (length (drop (x + 3) block)))).
  split; [done|]. cbn zeta. split; [done|]. split; [done|].
  split; [|split].
  - intros i line lab Hi Hlab Hbio [Hy _]%list_elem_of_filter.
    unfold yields in Hy. rewrite Hi, Hlab in Hy.
    rewrite (bool_decide_eq_true_2 _ Hbio), andb_false_r in Hy. done.
  - intros i f Hi [Hy _]%list_elem_of_filter.
    unfold yields in Hy. rewrite Hi in Hy.
    destruct (label_from None (drop (x + 3) block) i); [|done].
    cbn [length] in Hy. rewrite bool_decide_eq_false_2 in Hy by lia. done.
  - intros e [k Hk]%list_elem_of_lookup.
    destruct (Forall2_lookup_r _ _ _ _ _ HF Hk) as (i & Hi & line & lab & Hrow & Hlab & Hex).
    exists lab. split.
    + destruct Hex as (?&?&?&?&?&?&?&?&_&_&_&_&_&_&->). reflexivity.
    + assert (Hin : i ∈ filter (λ i, yields None (drop (x + 3) block) i)
                        (seq 0 (length (drop (x + 3) block))))
        by (apply list_elem_of_lookup; eauto).
      apply list_elem_of_filter in Hin as [Hy _].
      unfold yields in Hy. rewrite Hrow, Hlab in Hy.
      apply Is_true_true, andb_true_iff in Hy as [_ Hy].
      apply negb_true_iff, bool_decide_eq_false in Hy. done.
Qed.

(** What the extractor leaves in an exchange: the keys the linker reads,
    and no [type]. *)
Definition raw_exchange (e : exchange) : Prop :=
  exc_type e = None ∧ is_Some (exc_name e) ∧ is_Some (exc_unit e) ∧
  is_Some (exc_location e).

Lemma get_exchanges_raw block exs w :
  get_exchanges py_float normalize_units block = (Ok exs, w) →
  Forall raw_exchange exs.
Proof.
  intros (x & _ & _ & Hloop)%get_exchanges_Ok_inv.
  apply get_exchanges_loop_spec in Hloop as (new & Hexs & HF & _).
  cbn [app] in Hexs. subst new.
  eapply Forall2_Forall_r; [exact HF|]. apply Forall_forall.
  intros i _ e (line & lab & _ & _ & Hex).
  destruct Hex as (?&?&?&?&?&?&?&?&_&_&_&_&_&_&->).
  by repeat split; eauto.
Qed.

End Extractor.

(** ** The structured dataset *)

(** ** Where the exchange table starts *)

Lemma is_products_row_head (r : row) :
  is_products_row r = true ↔ head r = Some "Products".
Proof.
  destruct r as [|f r]; cbn; [split; discriminate|].
  rewrite bool_decide_eq_true. split; [by intros ->|by intros [= ->]].
Qed.

Lemma get_exchanges_index_Some (block : list row) x :
  get_exchanges_index block = Some x →
  (∃ r, block !! x = Some r ∧ head r = Some "Products") ∧
  (∀ j r, j < x → block !! j = Some r → head r ≠ Some "Products").
Proof.
  revert x. induction block as [|r0 block IH]; intros x; [discriminate|].
  cbn [get_exchanges_index]. destruct (is_products_row r0) eqn:Hr0.
  - intros [= <-]. apply is_products_row_head in Hr0.
    split; [by exists r0|]. intros j r Hj. lia.
  - destruct (get_exchanges_index block) as [y|]; [|discriminate].
    intros [= <-]. destruct (IH y eq_refl) as [Hex Hfirst].
    split; [exact Hex|]. intros [|j] r Hj Hr.
    + injection Hr as <-. intros Hhead%is_products_row_head. congruence.
    + apply (Hfirst j r); [lia|done].
Qed.

Lemma get_exchanges_index_None (block : list row) :
  get_exchanges_index block = None →
  ∀ j r, block !! j = Some r → head r ≠ Some "Products".
Proof.
  induction block as [|r0 block IH]; [done|].
  cbn [get_exchanges_index]. destruct (is_products_row r0) eqn:Hr0; [discriminate|].
  destruct (get_exchanges_index block) as [y|]; [discriminate|].
  intros _ [|j] r Hr.
  - injection Hr as <-. intros Hhead%is_products_row_head. congruence.
  - by apply (IH eq_refl j r).
Qed.

Section ProcessData.

Variable py_float : string → option spec_float.
Variable normalize_units : string → string.
Variable activity_hash : string → string → string → list string → string.

Definition is_production (e : exchange) : Prop := exc_type e = Some "production".

Global Instance is_production_dec e : Decision (is_production e).
Proof. unfold is_production. apply _. Defined.

Lemma get_production_exchange_Ok_inv data block prod w :
  get_production_exchange py_float data block = (Ok prod, w) →
  ∃ x line f1 amount,
    get_exchanges_index block = Some x ∧ block !! (x + 1) = Some line ∧
    line !! 1 = Some f1 ∧ py_float f1 = Some amount ∧
    prod = Exchange None (Some amount) None None None None
             (Some (ds_code data)) (Some 0%Z) (Some "production").
Proof.
  unfold get_production_exchange. intros Hprod.
  destruct (get_exchanges_index block) as [x|]; [|discriminate Hprod].
  cbn [plus_index] in Hprod. rewrite bind_ret_l in Hprod.
  apply bind_Ok_inv in Hprod as (line & ? & ? & [Hline ->]%getitem_Ok_inv & Hprod & ->).
  apply bind_Ok_inv in Hprod as (f1 & ? & ? & [Hf1 ->]%getitem_Ok_inv & Hprod & ->).
  apply bind_Ok_inv in Hprod as (amount & ? & ? & [Ham ->]%float_Ok_inv & Hprod & ->).
  injection Hprod as <- <-. by exists x, line, f1, amount.
Qed.

(** The exchanges of a structured dataset: what the extractor found,
    then the production exchange. *)
Lemma process_data_exchanges db_name default_geo block d w :
  process_data py_float normalize_units activity_hash db_name default_geo block
  = (Ok d, w) →
  ∃ raw prod wp,
    ds_exchanges d = Some (raw ++ [prod]) ∧ Forall raw_exchange raw ∧
    get_production_exchange py_float
      (set_exchanges raw
         (set_simapro_metadata (default ∅ (ds_simapro_metadata d))
            (Dataset (ds_name d) (ds_unit d) (ds_location d) (ds_categories d)
               (ds_code d) None None))) block = (Ok prod, wp).
Proof.
  unfold process_data. intros Hpd.
  apply bind_Ok_inv in Hpd as (data & ? & ? & Hdef & Hpd & ->).
  apply bind_Ok_inv in Hpd as (metadata & ? & ? & Hmeta & Hpd & ->).
  apply bind_Ok_inv in Hpd as (raw & ? & ? & Hget & Hpd & ->).
  apply bind_Ok_inv in Hpd as (raw' & ? & ? & [Hraw ->]%item_Ok_inv & Hpd & ->).
  cbn in Hraw. injection Hraw as <-.
  apply bind_Ok_inv in Hpd as (prod & wp & ? & Hprod & Hpd & ->).
  injection Hpd as <- <-. exists raw, prod, wp.
  split; [reflexivity|]. split; [by eapply get_exchanges_raw|].
  unfold define_dataset in Hdef.
  apply bind_Ok_inv in Hdef as (? & ? & ? & _ & Hdef & ->).
  apply bind_Ok_inv in Hdef as (? & ? & ? & _ & Hdef & ->).
  apply bind_Ok_inv in Hdef as (? & ? & ? & _ & Hdef & ->).
  apply bind_Ok_inv in Hdef as ([??] & ? & ? & _ & Hdef & ->).
  apply bind_Ok_inv in Hdef as (? & ? & ? & _ & Hdef & ->).
  apply bind_Ok_inv in Hdef as (? & ? & ? & _ & Hdef & ->).
  injection Hdef as <- <-. exact Hprod.
Qed.

Lemma filter_production_raw (raw : list exchange) :
  Forall raw_exchange raw → filter is_production raw = [].
Proof.
  induction 1 as [|e raw [Htype _] _ IH]; [reflexivity|].
  rewrite filter_cons_False; [done|]. unfold is_production. by rewrite Htype.
Qed.

(** C5: a structured dataset built from a block has exactly one
    exchange of type "production", and its amount is [float] of field 1
    of the definition line: the row after the "Products" marker, which
    is the first row of the block whose first field is "Products". *)
Theorem process_data_one_production db_name default_geo block d w :
  process_data py_float normalize_units activity_hash db_name default_geo block
  = (Ok d, w) →
  ∃ exs x marker line f1 amount,
    ds_exchanges d = Some exs ∧
    length (filter is_production exs) = 1 ∧
    get_exchanges_index block = Some x ∧
    block !! x = Some marker ∧ head marker = Some "Products" ∧
    (∀ j r, j < x → block !! j = Some r → head r ≠ Some "Products") ∧
    block !! (x + 1) = Some line ∧
    line !! 1 = Some f1 ∧ py_float f1 = Some amount ∧
    (∀ e, e ∈ exs → is_production e → exc_amount e = Some amount).
Proof.
  intros (raw & prod & wp & Hexs & Hraw & Hprod)%process_data_exchanges.
  apply get_production_exchange_Ok_inv in Hprod
    as (x & line & f1 & amount & Hx & Hline & Hf1 & Ham & ->).
  destruct (get_exchanges_index_Some block x Hx)
    as [(marker & Hmarker & Hhead) Hfirst].
  exists (raw ++ [Exchange None (Some amount) None None None None
                    (Some (ds_code d)) (Some 0%Z) (Some "production")]),
         x, marker, line, f1, amount.
  split; [exact Hexs|].
  split; [by rewrite filter_app, filter_production_raw|].
  repeat (split; [done|]).
  intros e [He| ->%list_elem_of_singleton]%elem_of_app Hp; [|reflexivity].
  rewrite Forall_forall in Hraw. destruct (Hraw e He) as [Htype _].
  unfold is_production in Hp. congruence.
Qed.

End ProcessData.

(** ** The orchestrator: what a run does to the store *)

Lemma mapM_Ok_inv {A B} (f : A → L B) (l : list A) ys w :
  mapM f l = (Ok ys, w) → Forall2 (λ x y, ∃ wx, f x = (Ok y, wx)) l ys.
Proof.
  revert ys w. induction l as [|x l IH]; intros ys w Hm.
  - cbn in Hm. injection Hm as <- <-. constructor.
  - cbn [mapM] in Hm.
    apply bind_Ok_inv in Hm as (y & wx & ? & Hx & Hm & ->).
    apply bind_Ok_inv in Hm as (ys' & ? & ? & Hl & Hm & ->).
    injection Hm as <- <-. constructor; [eauto|]. by eapply IH.
Qed.

(** If every element either succeeds or raises an exception in [P], and
    some element raises, then the comprehension raises an exception in
    [P]. *)
Lemma mapM_Raise {A B} (P : exn → Prop) (f : A → L B) (l : list A) :
  Forall (λ x, (∃ y w, f x = (Ok y, w)) ∨ (∃ e w, P e ∧ f x = (Raise e, w))) l →
  Exists (λ x, ∃ e w, f x = (Raise e, w)) l →
  ∃ e w, P e ∧ mapM f l = (Raise e, w).
Proof.
  induction 1 as [|x l Hx _ IH]; intros Hex; [by apply Exists_nil in Hex|].
  cbn [mapM]. destruct Hx as [(y & w & Hy)|(e & w & He & Hraise)].
  - apply Exists_cons in Hex as [(e & w' & He)|Hex]; [congruence|].
    destruct (IH Hex) as (e & w' & He & Hl).
    exists e, (w ++ w'). split; [done|].
    rewrite (bind_Ok _ _ _ _ Hy), (bind_Raise _ _ _ _ Hl). reflexivity.
  - exists e, w. split; [done|]. by rewrite (bind_Raise _ _ _ _ Hraise).
Qed.

Lemma mapM_Raise_inv {A B} (f : A → L B) (l : list A) e w :
  mapM f l = (Raise e, w) → Exists (λ x, ∃ e w, f x = (Raise e, w)) l.
Proof.
  revert e w. induction l as [|x l IH]; intros e w Hm; [discriminate Hm|].
  cbn [mapM] in Hm. destruct (f x) as [[y|ex] wx] eqn:Hx.
  - destruct (mapM f l) as [[ys|el] wl] eqn:Hl.
    + cbn in Hm. discriminate Hm.
    + apply Exists_cons_tl. by eapply IH.
  - apply Exists_cons_hd. eauto.
Qed.

Definition missing_exchange (e : exn) : Prop := ∃ msg, e = MissingExchange msg.

Section LinkOutcome.

Variable pformat : exchange → string.
Variables (foreground : gmap (string * string) key) (background : gmap bg_key key).

Lemma link_exchange_outcome (e : exchange) :
  raw_exchange e ∨ is_production e →
  (∃ e' w, link_exchange pformat foreground background e = (Ok e', w)) ∨
  (∃ x w, missing_exchange x ∧
          link_exchange pformat foreground background e = (Raise x, w)).
Proof.
  rewrite link_exchange_third_test_dead. unfold link_exchange_two_tier.
  intros [(Htype & [n Hn] & [u Hu] & [loc Hloc])|Hprod].
  - rewrite Htype, Hn, Hu, Hloc. rewrite bool_decide_eq_false_2 by done.
    cbn [item bind ret].
    destruct (foreground !! (n, u)); [left; eauto|].
    cbn [item bind ret].
    destruct (background !! Key3 (lower n) u loc); [left; eauto|].
    right. eexists _, _. split; [|reflexivity]. by eexists.
  - rewrite (bool_decide_eq_true_2 _ Hprod). eauto.
Qed.

Lemma link_exchange_unmatched (e : exchange) n u loc :
  exc_type e ≠ Some "production" →
  exc_name e = Some n → exc_unit e = Some u → exc_location e = Some loc →
  foreground !! (n, u) = None →
  background !! Key3 (lower n) u loc = None →
  ∃ x w, link_exchange pformat foreground background e = (Raise x, w).
Proof.
  intros Htype Hn Hu Hloc Hfg Hbg.
  rewrite link_exchange_third_test_dead. unfold link_exchange_two_tier.
  rewrite bool_decide_eq_false_2 by done. rewrite Hn, Hu.
  cbn [item bind ret]. rewrite Hfg, Hloc. cbn [item bind ret]. rewrite Hbg.
  eauto.
Qed.

(** A dataset as [process_data] leaves it. *)
Definition structured (ds : dataset) : Prop :=
  ∃ exs, ds_exchanges ds = Some exs ∧
         Forall (λ e, raw_exchange e ∨ is_production e) exs.

Lemma link_exchanges_outcome (ds : dataset) :
  structured ds →
  (∃ ds' w, link_exchanges pformat foreground background ds = (Ok ds', w)) ∨
  (∃ x w, missing_exchange x ∧
          link_exchanges pformat foreground background ds = (Raise x, w)).
Proof.
  intros (exs & Hexs & Hall). unfold link_exchanges. rewrite Hexs.
  cbn [item]. rewrite bind_ret_l.
  destruct (mapM (link_exchange pformat foreground background) exs)
    as [[linked|x] w] eqn:Hmap.
  - left. cbn. eauto.
  - right. exists x, w. split; [|reflexivity].
    destruct (mapM_Raise missing_exchange
                (link_exchange pformat foreground background) exs)
      as (x' & w' & Hx' & Hmap').
    + eapply Forall_impl; [exact Hall|]. intros e He.
      by apply link_exchange_outcome.
    + by eapply mapM_Raise_inv.
    + rewrite Hmap in Hmap'. by injection Hmap' as <- <-.
Qed.

Lemma link_exchanges_unmatched (ds : dataset) exs e n u loc :
  ds_exchanges ds = Some exs → e ∈ exs →
  exc_type e ≠ Some "production" →
  exc_name e = Some n → exc_unit e = Some u → exc_location e = Some loc →
  foreground !! (n, u) = None →
  background !! Key3 (lower n) u loc = None →
  structured ds →
  ∃ x w, link_exchanges pformat foreground background ds = (Raise x, w).
Proof.
  intros Hexs He Htype Hn Hu Hloc Hfg Hbg (exs' & Hexs' & Hall).
  assert (exs' = exs) as -> by congruence.
  destruct (mapM_Raise missing_exchange
              (link_exchange pformat foreground background) exs)
    as (x & w & _ & Hmap).
  - eapply Forall_impl; [exact Hall|]. intros e' He'.
    by apply link_exchange_outcome.
  - apply Exists_exists. exists e. split; [done|].
    by eapply link_exchange_unmatched.
  - unfold link_exchanges. rewrite Hexs. cbn [item]. rewrite bind_ret_l.
    rewrite (bind_Raise _ _ _ _ Hmap). eauto.
Qed.

End LinkOutcome.

Section Run.

Variable py_float : string → option spec_float.
Variable normalize_units : string → string.
Variable activity_hash : string → string → string → list string → string.
Variable pformat : exchange → string.
Variable read_csv : string → string → option (list row).
Variable store : Type.
Variable db_contains : store → string → bool.
Variable db_load : store → string → result (gmap key bg_record) * store.
Variable db_register :
  store → string → string → list string → nat → result unit * store.
Variable db_write : store → string → gmap key dataset → result unit * store.
Variable db_process : store → string → result unit * store.

Local Abbreviation run :=
  (importer py_float normalize_units activity_hash pformat read_csv store
     db_contains db_load db_register db_write db_process).
Local Abbreviation process :=
  (process_data py_float normalize_units activity_hash).

(** What the dependencies hold and the store that loading them leaves:
    [load_background] without the bookkeeping of the calls. *)
Fixpoint loaded_records (s : store) (dbs : list string)
    (acc : gmap key bg_record) : result (gmap key bg_record) * store :=
  match dbs with
  | [] => (Ok acc, s)
  | db :: dbs' =>
      match db_load s db with
      | (Ok r, s') => loaded_records s' dbs' (r ∪ acc)
      | (Raise e, s') => (Raise e, s')
      end
  end.

Lemma load_background_data_Ok dbs acc recs s s' calls log :
  loaded_records s dbs acc = (Ok recs, s') →
  load_background_data store db_load dbs acc (World store s calls log)
  = (Ok recs, World store s' (calls ++ (CallLoad <$> dbs)) log).
Proof.
  revert acc s calls. induction dbs as [|db dbs IH]; intros acc s calls Hrec.
  - cbn in *. injection Hrec as -> ->. by rewrite app_nil_r.
  - cbn [loaded_records] in Hrec. cbn [load_background_data].
    unfold mbind at 1, command, called, mbind. cbn [w_store w_calls w_log].
    destruct (db_load s db) as [[r|e] s1]; [|discriminate Hrec].
    cbn [w_store w_calls w_log].
    rewrite (IH _ _ _ Hrec). cbn [fmap list_fmap]. by rewrite <- app_assoc.
Qed.

(** Loading leaves the store alone when no [load] of a dependency
    writes. *)
Lemma loaded_records_store dbs acc s :
  (∀ s0 db, db ∈ dbs → (db_load s0 db).2 = s0) →
  (loaded_records s dbs acc).2 = s.
Proof.
  revert acc. induction dbs as [|db dbs IH]; intros acc Hread; [reflexivity|].
  cbn [loaded_records]. pose proof (Hread s db (list_elem_of_here _ _)) as Hdb.
  destruct (db_load s db) as [[r|e] s1]; cbn [snd] in Hdb; subst s1;
    [|reflexivity].
  apply IH. intros s0 db0 Hin. apply Hread. by right.
Qed.

Lemma getattr_warning : getattr store "warning" = mraise store (AttributeError "warning").
Proof.
  unfold getattr.
  replace (bool_decide ("warning" ∈ instance_attributes)) with false
    by (vm_compute; reflexivity).
  reflexivity.
Qed.

Lemma getattr_logile : getattr store "logile" = mraise store (AttributeError "logile").
Proof.
  unfold getattr.
  replace (bool_decide ("logile" ∈ instance_attributes)) with false
    by (vm_compute; reflexivity).
  reflexivity.
Qed.

(** The part of [importer] that follows the linking. *)
Definition importer_commit (self : importer_self) (name format : string)
    (data : list dataset) : M store (string * string) :=
  mbind store
    (if negb (overwrite self) then
       mbind store (in_databases store db_contains name) (λ present,
       mbind store (liftL store (assert (negb present) ALREADY_IMPORTED)) (λ _,
       command store (CallRegister name format (depends self) (length data))
         (λ s, db_register s name format (depends self) (length data))))
     else
       mbind store (in_databases store db_contains name) (λ present,
       if present then getattr store "warning" else mret store tt))
    (λ _,
     mbind store
       (command store (CallWrite name (by_code data))
          (λ s, db_write s name (by_code data))) (λ _,
     mbind store (command store (CallProcess name) (λ s, db_process s name)) (λ _,
     mbind store (getattr store "logile") (λ _,
     mret store (name, logfile self))))).

(** A run whose file parses and whose dependencies load reaches the
    linking with the store as the loads left it and only [load] calls
    made. *)
Lemma importer_stages self s s' calls log data r0 format name blocks dss l2 l3
    recs :
  read_csv (filepath self) (delimiter self) = Some data →
  data !! 0 = Some r0 → r0 !! 0 = Some format →
  contains "SimaPro" format = true →
  clean_data (db_name self) data = (Ok (name, blocks), l2) →
  mapM (process name (default_geo self)) blocks = (Ok dss, l3) →
  loaded_records s (depends self) ∅ = (Ok recs, s') →
  ∃ log1,
    run self (World store s calls log)
    = mbind store
        (liftL store
           (mapM (link_exchanges pformat (create_foreground dss)
                    (index_background recs)) dss))
        (importer_commit self name format)
        (World store s' (calls ++ (CallLoad <$> depends self)) log1).
Proof.
  intros Hread Hr0 Hformat Hsima Hclean Hproc Hrec.
  eexists. unfold importer.
  unfold mbind at 1. cbn [liftL tell fst snd w_store w_calls w_log].
  unfold mbind at 1. unfold load_file. rewrite Hread. cbn [mret].
  unfold mbind at 1. unfold verify_simapro_file.
  rewrite (getitem_Some _ _ _ Hr0), bind_ret_l.
  rewrite (getitem_Some _ _ _ Hformat), bind_ret_l.
  rewrite Hsima. cbn [assert ret liftL fst snd w_store w_calls w_log].
  unfold mbind at 1. cbn [liftL fst snd w_store w_calls w_log].
  unfold mbind at 1. rewrite Hclean. cbn [liftL fst snd w_store w_calls w_log].
  unfold mbind at 1. cbn [liftL tell fst snd w_store w_calls w_log].
  unfold mbind at 1. rewrite Hproc. cbn [liftL fst snd w_store w_calls w_log].
  unfold mbind at 1. unfold load_background. unfold mbind at 1.
  rewrite (load_background_data_Ok _ _ _ _ _ _ _ Hrec). cbn [mret].
  rewrite bind_ret_l, (getitem_Some _ _ _ Hformat). cbn [ret fst snd].
  reflexivity.
Qed.

Lemma process_data_structured db_name default_geo block d w :
  process db_name default_geo block = (Ok d, w) → structured d.
Proof.
  intros (raw & prod & wp & Hexs & Hraw & Hprod)%process_data_exchanges.
  exists (raw ++ [prod]). split; [done|].
  apply Forall_app. split.
  - eapply Forall_impl; [exact Hraw|]. by left.
  - apply Forall_singleton. right.
    by apply get_production_exchange_Ok_inv in Hprod as (?&?&?&?&_&_&_&_&->).
Qed.

Lemma mapM_process_structured db_name default_geo blocks dss w :
  mapM (process db_name default_geo) blocks = (Ok dss, w) →
  Forall structured dss.
Proof.
  intros HF%mapM_Ok_inv. eapply Forall2_Forall_r; [exact HF|].
  apply Forall_forall. intros block _ d [wd Hd].
  by eapply process_data_structured.
Qed.

(** C1: when the file parses and the dependencies load, and some
    exchange of some dataset is in neither index, the run raises
    [MissingExchange] (the specification's UnlinkedExchangeError) with
    only [load] calls made on the store: no [register], [write] or
    [process] call. The store is as the loads of the dependencies left
    it: as it was before the run when loading a dependency writes
    nothing. *)
Theorem importer_unlinked_exchange self s s' calls log data r0 format name blocks
    dss l2 l3 recs ds exs e n u loc :
  read_csv (filepath self) (delimiter self) = Some data →
  data !! 0 = Some r0 → r0 !! 0 = Some format →
  contains "SimaPro" format = true →
  clean_data (db_name self) data = (Ok (name, blocks), l2) →
  mapM (process name (default_geo self)) blocks = (Ok dss, l3) →
  loaded_records s (depends self) ∅ = (Ok recs, s') →
  ds ∈ dss → ds_exchanges ds = Some exs → e ∈ exs →
  exc_type e ≠ Some "production" →
  exc_name e = Some n → exc_unit e = Some u → exc_location e = Some loc →
  create_foreground dss !! (n, u) = None →
  index_background recs !! Key3 (lower n) u loc = None →
  ∃ msg w1,
    run self (World store s calls log) = (Raise (MissingExchange msg), w1) ∧
    taxonomy (MissingExchange msg) = Some UnlinkedExchangeError ∧
    w_store store w1 = s' ∧
    ((∀ s0 db, db ∈ depends self → (db_load s0 db).2 = s0) →
     w_store store w1 = s) ∧
    w_calls store w1 = calls ++ (CallLoad <$> depends self) ∧
    Forall (λ c, is_load c = true) (CallLoad <$> depends self).
Proof.
  intros Hread Hr0 Hformat Hsima Hclean Hproc Hrec Hds Hexs He Htype Hn Hu
    Hloc Hfg Hbg.
  destruct (importer_stages self s s' calls log data r0 format name blocks dss
              l2 l3 recs Hread Hr0 Hformat Hsima Hclean Hproc Hrec)
    as [log1 Hrun].
  pose proof (mapM_process_structured _ _ _ _ _ Hproc) as Hstructured.
  destruct (mapM_Raise missing_exchange
              (link_exchanges pformat (create_foreground dss)
                 (index_background recs)) dss)
    as (x & w & [msg ->] & Hmap).
  - eapply Forall_impl; [exact Hstructured|]. intros d Hd.
    by apply link_exchanges_outcome.
  - apply Exists_exists. exists ds. split; [done|].
    eapply link_exchanges_unmatched; try done.
    rewrite Forall_forall in Hstructured. by apply Hstructured.
  - exists msg. eexists. rewrite Hrun. unfold mbind, liftL. rewrite Hmap.
    cbn [fst snd w_store w_calls w_log].
    split; [reflexivity|]. split; [reflexivity|].
    split; [reflexivity|].
    split; [intros Hreads; by rewrite <- (loaded_records_store _ ∅ s Hreads), Hrec|].
    split; [reflexivity|].
    apply Forall_fmap, Forall_forall. by intros.
Qed.

(** C3: when the run has linked every exchange and the target name is
    in [databases] at that point: without [overwrite] the assertion
    fails (the specification's DuplicateImportError); with [overwrite]
    the lookup of [self.warning] raises [AttributeError].  Either way the
    store is as the loads of the dependencies left it and only [load]
    calls were made: nothing is replaced. *)
Theorem importer_existing_name self s s' calls log data r0 format name blocks
    dss l2 l3 recs linked l4 :
  read_csv (filepath self) (delimiter self) = Some data →
  data !! 0 = Some r0 → r0 !! 0 = Some format →
  contains "SimaPro" format = true →
  clean_data (db_name self) data = (Ok (name, blocks), l2) →
  mapM (process name (default_geo self)) blocks = (Ok dss, l3) →
  loaded_records s (depends self) ∅ = (Ok recs, s') →
  mapM (link_exchanges pformat (create_foreground dss) (index_background recs))
    dss = (Ok linked, l4) →
  db_contains s' name = true →
  ∃ w1,
    run self (World store s calls log)
    = (Raise (if overwrite self then AttributeError "warning"
              else AssertionError ALREADY_IMPORTED), w1) ∧
    taxonomy (AssertionError ALREADY_IMPORTED) = Some DuplicateImportError ∧
    taxonomy (AttributeError "warning") = None ∧
    w_store store w1 = s' ∧
    w_calls store w1 = calls ++ (CallLoad <$> depends self).
Proof.
  intros Hread Hr0 Hformat Hsima Hclean Hproc Hrec Hlink Hpresent.
  destruct (importer_stages self s s' calls log data r0 format name blocks dss
              l2 l3 recs Hread Hr0 Hformat Hsima Hclean Hproc Hrec)
    as [log1 Hrun].
  rewrite Hrun. unfold mbind at 1. unfold liftL at 1. rewrite Hlink.
  cbn [fst snd w_store w_calls w_log]. unfold importer_commit.
  rewrite getattr_warning.
  destruct (overwrite self); cbn [negb];
    unfold mbind, in_databases, liftL; cbn [w_store w_calls w_log];
    rewrite Hpresent; cbn [negb assert raise mraise fst snd];
    eexists; (split; [reflexivity|]); (split; [reflexivity|]); by repeat split.
Qed.

(** C2: a first import that links and whose [register], [write] and
    [process] calls return has committed its datasets when the final
    [return] looks up [self.logile], an attribute that does not exist:
    the run ends in [AttributeError] and returns no pair. *)
Theorem importer_commit_then_raises self s s' calls log data r0 format name blocks
    dss l2 l3 recs linked l4 s1 s2 s3 :
  read_csv (filepath self) (delimiter self) = Some data →
  data !! 0 = Some r0 → r0 !! 0 = Some format →
  contains "SimaPro" format = true →
  clean_data (db_name self) data = (Ok (name, blocks), l2) →
  mapM (process name (default_geo self)) blocks = (Ok dss, l3) →
  loaded_records s (depends self) ∅ = (Ok recs, s') →
  mapM (link_exchanges pformat (create_foreground dss) (index_background recs))
    dss = (Ok linked, l4) →
  overwrite self = false →
  db_contains s' name = false →
  db_register s' name format (depends self) (length linked) = (Ok tt, s1) →
  db_write s1 name (by_code linked) = (Ok tt, s2) →
  db_process s2 name = (Ok tt, s3) →
  ∃ w1,
    run self (World store s calls log) = (Raise (AttributeError "logile"), w1) ∧
    w_store store w1 = s3 ∧
    w_calls store w1
    = ((((calls ++ (CallLoad <$> depends self))
         ++ [CallRegister name format (depends self) (length linked)])
        ++ [CallWrite name (by_code linked)])
       ++ [CallProcess name]).
Proof.
  intros Hread Hr0 Hformat Hsima Hclean Hproc Hrec Hlink Hover Hfresh Hreg
    Hwrite Hprocess.
  destruct (importer_stages self s s' calls log data r0 format name blocks dss
              l2 l3 recs Hread Hr0 Hformat Hsima Hclean Hproc Hrec)
    as [log1 Hrun].
  eexists. rewrite Hrun. unfold mbind at 1. unfold liftL at 1. rewrite Hlink.
  cbn [fst snd w_store w_calls w_log]. unfold importer_commit.
  rewrite Hover. cbn [negb].
  unfold mbind, in_databases, liftL, command, called, mbind.
  cbn [w_store w_calls w_log]. rewrite Hfresh.
  cbn [negb assert ret fst snd w_store w_calls w_log]. rewrite Hreg.
  cbn [w_store w_calls w_log]. rewrite Hwrite.
  cbn [w_store w_calls w_log]. rewrite Hprocess.
  cbn [w_store w_calls w_log]. rewrite getattr_logile. cbn [mraise].
  by repeat split.
Qed.

(** No run returns: the last step of [importer] always raises. *)
Lemma importer_never_returns self w :
  ∃ e, (run self w).1 = Raise e.
Proof.
  destruct (run self w) as [[v|e] w'] eqn:Hrun; [|by exists e].
  exfalso. unfold importer in Hrun. rewrite getattr_logile in Hrun.
  repeat match type of Hrun with
         | mbind _ (mraise _ _) _ _ = _ =>
             unfold mbind at 1, mraise in Hrun; discriminate Hrun
         | mbind _ ?m ?k ?w0 = _ =>
             unfold mbind at 1 in Hrun;
             destruct (m w0) as [[?|?] ?]; [|discriminate Hrun]
         | (let '(_, _) := ?p in _) _ = _ => destruct p
         end.
Qed.

End Run.

(** ** A worked import

    The collaborators instantiated, and the two-block file of the
    specification's end-to-end scenario: block A produces ("Widget",
    "kg"), block B consumes 2.5 kg of "Widget". *)

Definition demo_float (s : string) : option spec_float :=
  if bool_decide (s = "1") then Some (S754_finite false 1 0)
  else if bool_decide (s = "2.5") then Some (S754_finite false 5 (-1))
  else None.

Definition demo_units (s : string) : string := s.

Definition demo_hash (name unit location : string) (categories : list string)
  : string :=
  name +:+ "|" +:+ unit +:+ "|" +:+ location.

Definition demo_pformat (e : exchange) : string := default "?" (exc_name e).

Definition block_a : list row :=
  [ ["Process"]; ["Category type"; "material"]; []; ["Products"];
    ["Widget"; "1"; "kg"; "100"; "not defined"; "Others\Demo"]; [];
    ["Materials/fuels"]; [] ].

Definition block_b : list row :=
  [ ["Process"]; []; ["Products"];
    ["Gadget"; "1"; "kg"; "100"; "not defined"; "Others"]; [];
    ["Materials/fuels"]; ["Widget"; "2.5"; "kg"; "Undefined"];
    ["Emissions to air"]; ["Carbon dioxide"; "1"; "kg"; "Undefined"] ].

(** Block B with an input that nothing produces. *)
Definition block_c : list row :=
  [ ["Process"]; []; ["Products"];
    ["Gadget"; "1"; "kg"; "100"; "not defined"; "Others"]; [];
    ["Materials/fuels"]; ["Steel/RER U"; "2.5"; "kg"; "Undefined"] ].

(** A block whose first row after the definition is an exchange row. *)
Definition block_d : list row :=
  [ ["Process"]; ["Products"];
    ["Gadget"; "1"; "kg"; "100"; "not defined"; "Others"]; []; [];
    ["Steel/RER U"; "2.5"; "kg"; "Undefined"] ].

Definition header : list row := [ ["{SimaPro 7.3}"]; ["Project"; "demo"] ].

Definition demo_read_csv (path delimiter : string) : option (list row) :=
  if bool_decide (path = "widgets.csv") then Some (header ++ block_a ++ block_b)
  else if bool_decide (path = "steel.csv") then Some (header ++ block_a ++ block_c)
  else None.

(** A store that only remembers the registered names. *)
Definition demo_contains (s : list string) (name : string) : bool :=
  bool_decide (name ∈ s).
Definition demo_load (s : list string) (name : string)
  : result (gmap key bg_record) * list string := (Ok ∅, s).
Definition demo_register (s : list string) (name format : string)
    (depends : list string) (n : nat) : result unit * list string :=
  (Ok tt, name :: s).
Definition demo_write (s : list string) (name : string)
    (data : gmap key dataset) : result unit * list string := (Ok tt, s).
Definition demo_process (s : list string) (name : string)
  : result unit * list string := (Ok tt, s).

Definition demo_importer : importer_self → M (list string) (string * string) :=
  importer demo_float demo_units demo_hash demo_pformat demo_read_csv
    (list string) demo_contains demo_load demo_register demo_write demo_process.

Definition demo_self (path : string) (overwrite : bool) : importer_self :=
  ImporterSelf path tab [] overwrite None "GLO" "simapro-import.log".

(** The value of a computation known to succeed. *)
Definition value {A} (d : A) (m : L A) : A :=
  match m.1 with
  | Ok a => a
  | Raise _ => d
  end.

Definition demo_process_data : list row → L dataset :=
  process_data demo_float demo_units demo_hash "demo" "GLO".

Definition demo_datasets (blocks : list (list row)) : list dataset :=
  value [] (mapM demo_process_data blocks).

Definition demo_link (dss : list dataset) : L (list dataset) :=
  mapM (link_exchanges demo_pformat (create_foreground dss)
          (index_background ∅)) dss.

Definition steel : exchange :=
  Exchange (Some "Steel") (Some (S754_finite false 5 (-1)))
    (Some "Materials/fuels") (Some "kg") (Some "Undefined")
    (Some (GeoStr "RER")) None None None.

Definition widget : exchange :=
  Exchange (Some "Widget") (Some (S754_finite false 5 (-1)))
    (Some "Materials/fuels") (Some "kg") (Some "Undefined")
    (Some GeoFalse) None None None.

Example demo_extracts_widget :
  (get_exchanges demo_float demo_units block_b).1 = Ok [widget].
Proof. vm_compute. reflexivity. Qed.

Definition demo_fg : gmap (string * string) key :=
  {[ ("Steel", "kg") := ("demo", "steel-here") ]}.

Definition demo_bg : gmap bg_key key :=
  {[ Key3 "steel" "kg" (GeoStr "RER") := ("ecoinvent", "steel-there") ]}.

Lemma link_exchange_foreground_precedence_witness :
  demo_bg !! Key3 (lower "Steel") "kg" (GeoStr "RER")
  = Some ("ecoinvent", "steel-there") ∧
  (∃ exc', link_exchange demo_pformat demo_fg demo_bg steel = (Ok exc', []) ∧
           exc_input exc' = Some ("demo", "steel-here")) ∧
  (∀ e e' w, exc_type e ≠ Some "production" →
     link_exchange demo_pformat demo_fg demo_bg e = (Ok e', w) →
     exc_type e' = Some "technosphere" ∧ exc_uncertainty_type e' = Some 0%Z).
Proof.
  split; [vm_compute; reflexivity|].
  apply (link_exchange_foreground_precedence demo_pformat demo_fg demo_bg steel
           "Steel" "kg" ("demo", "steel-here"));
    [discriminate | reflexivity | reflexivity | vm_compute; reflexivity].
Defined.

Definition no_dataset : dataset := Dataset "" "" "" [] ("", "") None None.

Definition demo_dataset_b : dataset := value no_dataset (demo_process_data block_b).

Lemma process_data_one_production_witness :
  ∃ exs x marker line f1 amount,
    ds_exchanges demo_dataset_b = Some exs ∧
    length (filter is_production exs) = 1 ∧
    get_exchanges_index block_b = Some x ∧
    block_b !! x = Some marker ∧ head marker = Some "Products" ∧
    (∀ j r, j < x → block_b !! j = Some r → head r ≠ Some "Products") ∧
    block_b !! (x + 1) = Some line ∧
    line !! 1 = Some f1 ∧ demo_float f1 = Some amount ∧
    (∀ e, e ∈ exs → is_production e → exc_amount e = Some amount).
Proof.
  apply (process_data_one_production demo_float demo_units demo_hash
           "demo" "GLO" block_b demo_dataset_b (demo_process_data block_b).2).
  vm_compute. reflexivity.
Defined.

Lemma get_exchanges_skips_biosphere_witness :
  ∃ x idxs,
    get_exchanges_index block_b = Some x ∧
    let rows := drop (x + 3) block_b in
    idxs = filter (λ i, yields None rows i) (seq 0 (length rows)) ∧
    Forall2 (from_row demo_float demo_units None rows) idxs [widget] ∧
    (∀ i line lab, rows !! i = Some line → label_from None rows i = Some lab →
                   lab ∈ SIMAPRO_BIOSPHERE → i ∉ idxs) ∧
    (∀ i f, rows !! i = Some [f] → i ∉ idxs) ∧
    (∀ e, e ∈ [widget] → ∃ lab, exc_comment e = Some lab ∧ lab ∉ SIMAPRO_BIOSPHERE).
Proof.
  apply (get_exchanges_skips_biosphere demo_float demo_units block_b [widget]
           (get_exchanges demo_float demo_units block_b).2).
  vm_compute. reflexivity.
Defined.

Lemma get_exchanges_unbound_label_witness :
  get_exchanges demo_float demo_units block_d
  = (Raise (UnboundLocalError "label"), []) ∧
  taxonomy (UnboundLocalError "label") = None.
Proof.
  apply (proj1 (get_exchanges_unbound_label demo_float demo_units block_d 1
                  eq_refl eq_refl)
           [[]] ["Steel/RER U"; "2.5"; "kg"; "Undefined"] []);
    [reflexivity | repeat constructor | cbn; lia].
Defined.

Definition steel_blocks : list (list row) := [block_a; block_c].
Definition widget_blocks : list (list row) := [block_a; block_b].

Definition demo_dataset_c : dataset := value no_dataset (demo_process_data block_c).

Lemma importer_unlinked_exchange_witness :
  ∃ msg w1,
    demo_importer (demo_self "steel.csv" false) (World (list string) [] [] [])
    = (Raise (MissingExchange msg), w1) ∧
    taxonomy (MissingExchange msg) = Some UnlinkedExchangeError ∧
    w_store (list string) w1 = [] ∧
    ((∀ s0 db, db ∈ depends (demo_self "steel.csv" false) →
               (demo_load s0 db).2 = s0) →
     w_store (list string) w1 = []) ∧
    w_calls (list string) w1
    = [] ++ (CallLoad <$> depends (demo_self "steel.csv" false)) ∧
    Forall (λ c, is_load c = true)
      (CallLoad <$> depends (demo_self "steel.csv" false)).
Proof.
  apply (importer_unlinked_exchange demo_float demo_units demo_hash demo_pformat
           demo_read_csv (list string) demo_contains demo_load demo_register
           demo_write demo_process
           (demo_self "steel.csv" false) [] [] [] []
           (header ++ block_a ++ block_c) ["{SimaPro 7.3}"] "{SimaPro 7.3}" "demo"
           steel_blocks (demo_datasets steel_blocks) []
           (mapM demo_process_data steel_blocks).2 ∅
           demo_dataset_c (default [] (ds_exchanges demo_dataset_c))
           steel "Steel" "kg" (GeoStr "RER"));
    try (vm_compute; reflexivity).
  - apply (list_elem_of_lookup_2 _ 1). vm_compute. reflexivity.
  - apply (list_elem_of_lookup_2 _ 0). vm_compute. reflexivity.
  - discriminate.
Defined.

Definition widget_datasets : list dataset := demo_datasets widget_blocks.
Definition widget_linked : list dataset := value [] (demo_link widget_datasets).

Lemma importer_existing_name_witness :
  ∃ w1,
    demo_importer (demo_self "widgets.csv" true)
      (World (list string) ["demo"] [] [])
    = (Raise (AttributeError "warning"), w1) ∧
    taxonomy (AssertionError ALREADY_IMPORTED) = Some DuplicateImportError ∧
    taxonomy (AttributeError "warning") = None ∧
    w_store (list string) w1 = ["demo"] ∧
    w_calls (list string) w1
    = [] ++ (CallLoad <$> depends (demo_self "widgets.csv" true)).
Proof.
  apply (importer_existing_name demo_float demo_units demo_hash demo_pformat
           demo_read_csv (list string) demo_contains demo_load demo_register
           demo_write demo_process
           (demo_self "widgets.csv" true) ["demo"] ["demo"] [] []
           (header ++ block_a ++ block_b) ["{SimaPro 7.3}"] "{SimaPro 7.3}" "demo"
           widget_blocks widget_datasets []
           (mapM demo_process_data widget_blocks).2 ∅
           widget_linked (demo_link widget_datasets).2);
    vm_compute; reflexivity.
Defined.

Lemma importer_commit_then_raises_witness :
  ∃ w1,
    demo_importer (demo_self "widgets.csv" false) (World (list string) [] [] [])
    = (Raise (AttributeError "logile"), w1) ∧
    w_store (list string) w1 = ["demo"] ∧
    w_calls (list string) w1
    = (((([] ++ (CallLoad <$> depends (demo_self "widgets.csv" false)))
         ++ [CallRegister "demo" "{SimaPro 7.3}"
               (depends (demo_self "widgets.csv" false)) (length widget_linked)])
        ++ [CallWrite "demo" (by_code widget_linked)])
       ++ [CallProcess "demo"]).
Proof.
  apply (importer_commit_then_raises demo_float demo_units demo_hash demo_pformat
           demo_read_csv (list string) demo_contains demo_load demo_register
           demo_write demo_process
           (demo_self "widgets.csv" false) [] [] [] []
           (header ++ block_a ++ block_b) ["{SimaPro 7.3}"] "{SimaPro 7.3}" "demo"
           widget_blocks widget_datasets []
           (mapM demo_process_data widget_blocks).2 ∅
           widget_linked (demo_link widget_datasets).2
           ["demo"] ["demo"] ["demo"]);
    vm_compute; reflexivity.
Defined.

(** The end-to-end scenario: after linking, block B's exchange has block
    A's code as [input], amount 2.5 and type "technosphere". *)
Example widget_linked_to_block_a :
  ∃ a b e p,
    widget_linked = [a; b] ∧ ds_exchanges b = Some [e; p] ∧
    exc_input e = Some (ds_code a) ∧
    exc_amount e = Some (S754_finite false 5 (-1)) ∧
    exc_type e = Some "technosphere" ∧ exc_type p = Some "production".
Proof. vm_compute. by eexists _, _, _, _. Qed.

(** * Further properties of the importer *)

Lemma bind_assoc {A B C} (m : L A) (k : A → L B) (h : B → L C) :
  bind (bind m k) h = bind m (λ a, bind (k a) h).
Proof.
  unfold bind. destruct m as [[a|e] w]; [|reflexivity].
  destruct (k a) as [[b|e] w1]; [|reflexivity].
  destruct (h b) as [r w2]. by rewrite app_assoc.
Qed.

Lemma bind_ret_r {A} (m : L A) : bind m ret = m.
Proof.
  unfold bind, ret. destruct m as [[a|e] w]; [|reflexivity].
  by rewrite app_nil_r.
Qed.

Lemma bind_ext {A B} (m : L A) (k k' : A → L B) :
  (∀ a, k a = k' a) → bind m k = bind m k'.
Proof.
  intros Hk. unfold bind. destruct m as [[a|e] w]; [|reflexivity].
  by rewrite Hk.
Qed.

(** X1: [get_exchanges_index] returns the index of the first row whose
    first field is "Products", whatever else the row holds, and [None]
    exactly when the block has no such row. *)
Theorem get_exchanges_index_first (block : list row) :
  (∀ x, get_exchanges_index block = Some x ↔
        (∃ r, block !! x = Some r ∧ head r = Some "Products") ∧
        (∀ j r, j < x → block !! j = Some r → head r ≠ Some "Products")) ∧
  (get_exchanges_index block = None ↔
   ∀ j r, block !! j = Some r → head r ≠ Some "Products").
Proof.
  split.
  - intros x. split; [apply get_exchanges_index_Some|].
    intros [(r & Hr & Hhead) Hfirst].
    destruct (get_exchanges_index block) as [y|] eqn:Hy.
    + destruct (get_exchanges_index_Some block y Hy) as [(ry & Hry & Hheady) Hfirsty].
      f_equal. destruct (Nat.lt_trichotomy y x) as [Hlt|[->|Hgt]]; [|done|].
      * exfalso. by apply (Hfirst y ry).
      * exfalso. by apply (Hfirsty x r).
    + exfalso. by apply (get_exchanges_index_None block Hy x r).
  - split; [apply get_exchanges_index_None|]. intros Hnone.
    destruct (get_exchanges_index block) as [y|] eqn:Hy; [|done].
    destruct (get_exchanges_index_Some block y Hy) as [(ry & Hry & Hheady) _].
    exfalso. by apply (Hnone y ry).
Qed.

(** ** The exchange extractor at its edges *)

Section ExtractorEdges.

Variable py_float : string → option spec_float.
Variable normalize_units : string → string.

Local Abbreviation extract := (get_exchanges py_float normalize_units).
Local Abbreviation loop := (get_exchanges_loop py_float normalize_units).

(** X2: before it reads any exchange row, [get_exchanges] raises
    [TypeError] on a block without a "Products" row ([None + 2]),
    [IndexError] on a block that ends before row [p + 2], and the
    multi-output [AssertionError] when row [p + 2] is not empty. *)
Theorem get_exchanges_rejects (block : list row) :
  (get_exchanges_index block = None → extract block = (Raise TypeError, [])) ∧
  (∀ x, get_exchanges_index block = Some x → block !! (x + 2) = None →
        extract block = (Raise IndexError, [])) ∧
  (∀ x r, get_exchanges_index block = Some x → block !! (x + 2) = Some r →
          r ≠ [] →
          extract block
          = (Raise (AssertionError "Can't import multioutput datasets"), []) ∧
          taxonomy (AssertionError "Can't import multioutput datasets")
          = Some MultiOutputUnsupportedError).
Proof.
  unfold get_exchanges. split; [|split].
  - by intros ->.
  - intros x -> Hnone. cbn [plus_index]. rewrite bind_ret_l.
    unfold getitem. by rewrite Hnone.
  - intros x r -> Hr Hne. cbn [plus_index]. rewrite bind_ret_l.
    rewrite (getitem_Some _ _ _ Hr), bind_ret_l.
    rewrite bool_decide_eq_false_2; [done|].
    by intros ->%nil_length_inv.
Qed.

Lemma step_label_multi (l0 : option string) (line : row) :
  length line ≠ 1 → step_label l0 line = l0.
Proof. unfold step_label. by destruct line as [|? [|??]]. Qed.

Lemma get_exchanges_loop_app pre rest l0 acc :
  loop (pre ++ rest) l0 acc
  = bind (loop pre l0 acc)
      (λ acc', loop rest (label_from l0 pre (length pre)) acc').
Proof.
  revert l0 acc. induction pre as [|line pre IH]; intros l0 acc.
  - cbn [app get_exchanges_loop length]. by rewrite bind_ret_l, label_from_0.
  - cbn [app get_exchanges_loop length]. rewrite label_from_S.
    destruct (decide (length line = 0)) as [Hlen0|Hlen0].
    { rewrite !(bool_decide_eq_true_2 _ Hlen0).
      rewrite step_label_multi by lia. apply IH. }
    rewrite !(bool_decide_eq_false_2 _ Hlen0).
    destruct (decide (length line = 1)) as [Hlen1|Hlen1].
    { rewrite !(bool_decide_eq_true_2 _ Hlen1).
      destruct line as [|f [|??]]; try discriminate Hlen1.
      rewrite (getitem_Some [f] 0 f eq_refl), !bind_ret_l. apply IH. }
    rewrite !(bool_decide_eq_false_2 _ Hlen1).
    rewrite step_label_multi by done.
    destruct l0 as [lab|]; [|reflexivity].
    destruct (bool_decide (lab ∈ SIMAPRO_BIOSPHERE)); [apply IH|].
    rewrite !bind_assoc. apply bind_ext. intros f0.
    rewrite !bind_assoc. apply bind_ext. intros [name geo].
    rewrite !bind_assoc. apply bind_ext. intros f1.
    rewrite !bind_assoc. apply bind_ext. intros amount.
    rewrite !bind_assoc. apply bind_ext. intros f2.
    rewrite !bind_assoc. apply bind_ext. intros f3.
    apply IH.
Qed.

(** X3: extraction is one pass from left to right: the rows [pre ++
    rest] give what [pre] gives, followed by what [rest] gives when
    entered with the label and the exchanges that [pre] leaves; an
    exception in [pre] is the exception of the whole. *)
Theorem get_exchanges_loop_compose pre rest l0 acc :
  loop (pre ++ rest) l0 acc
  = bind (loop pre l0 acc)
      (λ acc', loop rest (label_from l0 pre (length pre)) acc').
Proof. apply get_exchanges_loop_app. Qed.

Lemma exchange_row_float_error line rest lab acc f0 f1 name geo w :
  lab ∉ SIMAPRO_BIOSPHERE → line !! 0 = Some f0 → line !! 1 = Some f1 →
  detoxify f0 = (Ok (name, geo), w) → py_float f1 = None →
  loop (line :: rest) (Some lab) acc = (Raise ValueError, w).
Proof.
  intros Hbio Hf0 Hf1 Hdetox Hfloat. cbn [get_exchanges_loop].
  pose proof (lookup_lt_Some _ _ _ Hf1) as Hlen.
  rewrite !bool_decide_eq_false_2 by (done || lia).
  rewrite (getitem_Some _ _ _ Hf0), bind_ret_l.
  rewrite (bind_Ok _ _ _ _ Hdetox).
  rewrite (getitem_Some _ _ _ Hf1), bind_ret_l.
  unfold float. rewrite Hfloat. cbn. f_equal. apply app_nil_r.
Qed.

Lemma exchange_row_short line rest lab acc f0 f1 name geo amount w :
  lab ∉ SIMAPRO_BIOSPHERE → line !! 0 = Some f0 → line !! 1 = Some f1 →
  detoxify f0 = (Ok (name, geo), w) → py_float f1 = Some amount →
  length line < 4 →
  loop (line :: rest) (Some lab) acc = (Raise IndexError, w).
Proof.
  intros Hbio Hf0 Hf1 Hdetox Hfloat Hshort. cbn [get_exchanges_loop].
  pose proof (lookup_lt_Some _ _ _ Hf1) as Hlen.
  rewrite !bool_decide_eq_false_2 by (done || lia).
  rewrite (getitem_Some _ _ _ Hf0), bind_ret_l.
  rewrite (bind_Ok _ _ _ _ Hdetox).
  rewrite (getitem_Some _ _ _ Hf1), bind_ret_l.
  unfold float. rewrite Hfloat. rewrite bind_ret_l.
  destruct (line !! 2) as [f2|] eqn:Hf2.
  - rewrite (getitem_Some _ _ _ Hf2), bind_ret_l.
    assert (line !! 3 = None) as Hf3 by (apply lookup_ge_None; lia).
    unfold getitem. rewrite Hf3. cbn. f_equal. apply app_nil_r.
  - unfold getitem. rewrite Hf2. cbn. f_equal. apply app_nil_r.
Qed.

(** X4: one bad exchange row aborts the extraction of the whole block,
    whatever was extracted before it and whatever follows: an amount
    that [float] rejects raises [ValueError] (NumericParseError), and a
    row of two or three fields with a good amount raises [IndexError],
    which is outside the taxonomy. *)
Theorem get_exchanges_bad_row block x pre line rest acc w0 lab f0 f1 name geo w :
  get_exchanges_index block = Some x → block !! (x + 2) = Some [] →
  drop (x + 3) block = pre ++ line :: rest →
  loop pre None [] = (Ok acc, w0) →
  label_from None pre (length pre) = Some lab → lab ∉ SIMAPRO_BIOSPHERE →
  line !! 0 = Some f0 → line !! 1 = Some f1 →
  detoxify f0 = (Ok (name, geo), w) →
  (py_float f1 = None →
   extract block = (Raise ValueError, w0 ++ w) ∧
   taxonomy ValueError = Some NumericParseError) ∧
  (∀ amount, py_float f1 = Some amount → length line < 4 →
   extract block = (Raise IndexError, w0 ++ w) ∧ taxonomy IndexError = None).
Proof.
  intros Hx Hrow Hdrop Hpre Hlab Hbio Hf0 Hf1 Hdetox.
  rewrite (get_exchanges_eq _ _ block x Hx Hrow), Hdrop.
  rewrite get_exchanges_loop_app, (bind_Ok _ _ _ _ Hpre), Hlab.
  split.
  - intros Hfloat. split; [|reflexivity].
    by rewrite (exchange_row_float_error _ _ _ _ _ _ _ _ _ Hbio Hf0 Hf1 Hdetox Hfloat).
  - intros amount Hfloat Hshort. split; [|reflexivity].
    by rewrite (exchange_row_short _ _ _ _ _ _ _ _ _ _ Hbio Hf0 Hf1 Hdetox
                  Hfloat Hshort).
Qed.

(** X5: rows under a biosphere label are not parsed at all: however
    malformed they are, they raise nothing, log nothing and add no
    exchange, until a one-field row changes the label. *)
Theorem biosphere_rows_not_parsed lines lab acc :
  lab ∈ SIMAPRO_BIOSPHERE → Forall (λ r : row, length r ≠ 1) lines →
  loop lines (Some lab) acc = (Ok acc, []).
Proof.
  intros Hbio Hlines. induction Hlines as [|line lines Hline _ IH]; [reflexivity|].
  cbn [get_exchanges_loop]. rewrite (bool_decide_eq_false_2 _ Hline).
  rewrite (bool_decide_eq_true_2 _ Hbio).
  by destruct (bool_decide (length line = 0)).
Qed.

End ExtractorEdges.

(** ** The metadata extractor *)

Lemma takewhile_app_stop {A} (p : A → bool) (l1 : list A) x l2 :
  p x = false → takewhile p (l1 ++ x :: l2) = takewhile p l1.
Proof.
  intros Hx. induction l1 as [|y l1 IH]; cbn; [by rewrite Hx|].
  destruct (p y); [by rewrite IH|reflexivity].
Qed.

Lemma products_row_not_continuation (r : row) :
  is_products_row r = true → is_continuation r = false.
Proof.
  destruct r as [|f r]; [done|]. cbn.
  intros ->%bool_decide_eq_true. reflexivity.
Qed.

Lemma lookup_0_app_cons {A} (l1 : list A) x l2 l3 :
  (l1 ++ x :: l2) !! 0 = (l1 ++ x :: l3) !! 0.
Proof. by destruct l1. Qed.

(** X6: the metadata of a block only depends on the rows up to its
    first "Products" row: whatever follows that row (the exchange table)
    changes neither the result nor the exceptions. *)
Theorem get_dataset_metadata_stops_at_products pre prod rest rest' :
  is_products_row prod = true →
  get_dataset_metadata (pre ++ prod :: rest)
  = get_dataset_metadata (pre ++ prod :: rest').
Proof.
  intros Hprod. unfold get_dataset_metadata. generalize (∅ : gmap string meta_value).
  induction pre as [|line pre IH]; intros m.
  - cbn [app get_dataset_metadata_loop]. by rewrite Hprod.
  - cbn [app get_dataset_metadata_loop].
    destruct (is_products_row line); [reflexivity|].
    destruct (negb (has_key_and_value line)); [apply IH|].
    replace (getitem (pre ++ prod :: rest) 0)
      with (getitem (pre ++ prod :: rest') 0)
      by (unfold getitem; by rewrite (lookup_0_app_cons pre prod rest rest')).
    apply bind_ext. intros next.
    apply bind_ext. intros f0. apply bind_ext. intros f1.
    rewrite !(takewhile_app_stop _ pre prod)
      by (by apply products_row_not_continuation).
    destruct (is_continuation next); [|apply IH].
    apply bind_ext. intros more. apply IH.
Qed.

(** X7: keys are not deduplicated, the last one wins: the key/value row
    just before the "Products" row is in the metadata as a scalar,
    whatever the rows before it stored under that key. *)
Theorem get_dataset_metadata_last_wins pre k v more prod rest m w :
  Forall (λ r, is_products_row r = false) pre →
  k ≠ "" → v ≠ "" → k ≠ "Products" → is_products_row prod = true →
  get_dataset_metadata (pre ++ (k :: v :: more) :: prod :: rest) = (Ok m, w) →
  m !! k = Some (MStr v).
Proof.
  intros Hpre Hk Hv Hkp Hprod. unfold get_dataset_metadata.
  generalize (∅ : gmap string meta_value). revert w.
  induction Hpre as [|line pre Hline _ IH]; intros w m0 Hmeta.
  - cbn [app get_dataset_metadata_loop is_products_row has_key_and_value] in Hmeta.
    rewrite !bool_decide_eq_false_2 in Hmeta by done. cbn [negb andb] in Hmeta.
    rewrite (getitem_Some (prod :: rest) 0 prod eq_refl), bind_ret_l in Hmeta.
    rewrite (getitem_Some (k :: v :: more) 0 k eq_refl), bind_ret_l in Hmeta.
    rewrite (getitem_Some (k :: v :: more) 1 v eq_refl), bind_ret_l in Hmeta.
    rewrite (products_row_not_continuation _ Hprod), Hprod in Hmeta.
    injection Hmeta as <- _. apply lookup_insert_eq.
  - cbn [app get_dataset_metadata_loop] in Hmeta. rewrite Hline in Hmeta.
    destruct (negb (has_key_and_value line)); [by eapply IH|].
    apply bind_Ok_inv in Hmeta as (next & ? & ? & _ & Hmeta & ->).
    apply bind_Ok_inv in Hmeta as (f0 & ? & ? & _ & Hmeta & ->).
    apply bind_Ok_inv in Hmeta as (f1 & ? & ? & _ & Hmeta & ->).
    destruct (is_continuation next); [|by eapply IH].
    apply bind_Ok_inv in Hmeta as (vals & ? & ? & _ & Hmeta & ->).
    by eapply IH.
Qed.

(** A header that gives one key twice. *)
Definition block_e : list row :=
  [ ["Process"]; ["Category type"; "energy"]; [];
    ["Category type"; "material"; "x"]; ["Products"];
    ["Widget"; "1"; "kg"; "100"; "not defined"; "Others"]; [] ].

Lemma get_dataset_metadata_last_wins_witness :
  value ∅ (get_dataset_metadata block_e) !! "Category type"
  = Some (MStr "material").
Proof.
  apply (get_dataset_metadata_last_wins
           [["Process"]; ["Category type"; "energy"]; []]
           "Category type" "material" ["x"] ["Products"]
           [["Widget"; "1"; "kg"; "100"; "not defined"; "Others"]; []]
           (value ∅ (get_dataset_metadata block_e))
           (get_dataset_metadata block_e).2);
    [repeat constructor | done | done | done | reflexivity
    | vm_compute; reflexivity].
Defined.

(** ** The definition of a dataset *)

Section Definition_.

Variable normalize_units : string → string.
Variable activity_hash : string → string → string → list string → string.

Local Abbreviation define := (define_dataset normalize_units activity_hash).

(** X8: a block is named after field 0 of the row that follows its
    "Products" row. When that name ends in the SimaPro suffix the dataset
    gets the stripped name and the geography code as location, with no
    log; when it has no suffix (and is plain ASCII) the dataset keeps the
    name, gets [default_geo] as location, and one warning is logged. The
    code pairs the database name with the hash of the four attributes. *)
Theorem define_dataset_location db_name default_geo block x line f0 f2 f5 :
  get_exchanges_index block = Some x → block !! (x + 1) = Some line →
  line !! 0 = Some f0 → line !! 2 = Some f2 → line !! 5 = Some f5 →
  let unit := normalize_units f2 in
  let categories := split backslash f5 in
  (∀ pre geo q c,
     f0 = pre +:+ suffix geo q c → is_group q → is_qualifier c →
     all_upper geo = true → 2 ≤ String.length geo → String.length geo ≤ 10 →
     define db_name default_geo block
     = (Ok (Dataset pre unit geo categories
              (db_name, activity_hash pre unit geo categories) None None), [])) ∧
  (findall 0 f0 = [] → all_ascii f0 = true →
   ∃ msg,
     define db_name default_geo block
     = (Ok (Dataset f0 unit default_geo categories
              (db_name, activity_hash f0 unit default_geo categories) None None),
        [Warning msg])).
Proof.
  intros Hx Hline Hf0 Hf2 Hf5 unit categories. unfold define_dataset.
  rewrite Hx. cbn [plus_index]. rewrite bind_ret_l.
  rewrite (getitem_Some _ _ _ Hline), bind_ret_l.
  rewrite (getitem_Some _ _ _ Hf0), bind_ret_l.
  rewrite (getitem_Some _ _ _ Hf2), (getitem_Some _ _ _ Hf5).
  split.
  - intros pre geo q c -> Hq Hc Hup Hmin Hmax.
    rewrite (bind_Ok _ _ _ _ (detoxify_suffix geo q c Hq Hc Hup Hmin Hmax pre)).
    rewrite !bind_ret_l. destruct geo as [|g geo]; [cbn in Hmin; lia|].
    reflexivity.
  - intros Hnone Hascii. pose proof (detoxify_no_match _ Hnone) as Hdetox.
    rewrite Hascii in Hdetox. rewrite (bind_Ok _ _ _ _ Hdetox).
    rewrite !bind_ret_l. eexists. reflexivity.
Qed.

End Definition_.

Lemma define_dataset_location_witness :
  ∃ msg,
    define_dataset demo_units demo_hash "demo" "GLO" block_a
    = (Ok (Dataset "Widget" "kg" "GLO" ["Others"; "Demo"]
             ("demo", demo_hash "Widget" "kg" "GLO" ["Others"; "Demo"]) None None),
       [Warning msg]).
Proof.
  apply (define_dataset_location demo_units demo_hash "demo" "GLO" block_a 3
           ["Widget"; "1"; "kg"; "100"; "not defined"; "Others\Demo"]
           "Widget" "kg" "Others\Demo");
    reflexivity.
Defined.

(** ** The foreground index *)

Lemma create_foreground_snoc (data : list dataset) (ds : dataset) :
  create_foreground (data ++ [ds])
  = <[(ds_name ds, ds_unit ds) := ds_code ds]> (create_foreground data).
Proof. unfold create_foreground. by rewrite foldl_app. Qed.

(** X9: the foreground index maps a [(name, unit)] pair to the code of
    the last dataset of the batch that has this name and unit, and holds
    nothing for a pair that no dataset has: on a collision the last
    block wins. *)
Theorem create_foreground_last (data : list dataset) (n u : string) :
  create_foreground data !! (n, u)
  = ds_code <$> last (filter (λ ds, ds_name ds = n ∧ ds_unit ds = u) data).
Proof.
  induction data as [|ds data IH] using rev_ind; [reflexivity|].
  rewrite create_foreground_snoc, filter_app, filter_cons, filter_nil.
  destruct (decide (ds_name ds = n ∧ ds_unit ds = u)) as [[<- <-]|Hne].
  - by rewrite lookup_insert_eq, last_snoc.
  - rewrite app_nil_r, lookup_insert_ne; [exact IH|].
    intros [= ??]. by apply Hne.
Qed.

(** ** The background index *)

Definition key3_of (v : bg_record) : bg_key :=
  Key3 (lower (rec_name v)) (rec_unit v) (GeoStr (rec_location v)).

Definition key2_of (v : bg_record) : bg_key :=
  Key2 (lower (rec_name v)) (rec_unit v).

Lemma index_background_spec (recs : gmap key bg_record) :
  (∀ bk k, index_background recs !! bk = Some k →
           ∃ v, recs !! k = Some v ∧ (bk = key3_of v ∨ bk = key2_of v)) ∧
  (∀ k v, recs !! k = Some v →
          is_Some (index_background recs !! key3_of v) ∧
          is_Some (index_background recs !! key2_of v)).
Proof.
  unfold index_background.
  apply (map_fold_weak_ind
           (λ (bg : gmap bg_key key) (m : gmap key bg_record),
              (∀ bk k, bg !! bk = Some k →
                       ∃ v, m !! k = Some v ∧ (bk = key3_of v ∨ bk = key2_of v)) ∧
              (∀ k v, m !! k = Some v →
                      is_Some (bg !! key3_of v) ∧ is_Some (bg !! key2_of v)))).
  - split; [intros bk k Hbk|intros k v Hk]; by rewrite lookup_empty in *.
  - intros i x m bg Hi [Hsound Hcomplete].
    fold (key3_of x). fold (key2_of x). split.
    + intros bk k Hbk.
      destruct (decide (bk = key2_of x)) as [->|Hne2].
      { rewrite lookup_insert_eq in Hbk. injection Hbk as <-.
        exists x. rewrite lookup_insert_eq. eauto. }
      rewrite lookup_insert_ne in Hbk by done.
      destruct (decide (bk = key3_of x)) as [->|Hne3].
      { rewrite lookup_insert_eq in Hbk. injection Hbk as <-.
        exists x. rewrite lookup_insert_eq. eauto. }
      rewrite lookup_insert_ne in Hbk by done.
      destruct (Hsound bk k Hbk) as (v & Hv & Hor). exists v. split; [|done].
      rewrite lookup_insert_ne; [done|]. intros <-. congruence.
    + intros k v Hk.
      assert (Hkeep : ∀ bk, is_Some (bg !! bk) →
                is_Some (<[key2_of x := i]> (<[key3_of x := i]> bg) !! bk)).
      { intros bk Hbk.
        destruct (decide (bk = key2_of x)) as [->|?];
          [by rewrite lookup_insert_eq|rewrite lookup_insert_ne by done].
        destruct (decide (bk = key3_of x)) as [->|?];
          [by rewrite lookup_insert_eq|by rewrite lookup_insert_ne]. }
      destruct (decide (i = k)) as [->|Hik].
      * rewrite lookup_insert_eq in Hk. injection Hk as <-. split.
        -- rewrite lookup_insert_ne by done. by rewrite lookup_insert_eq.
        -- by rewrite lookup_insert_eq.
      * rewrite lookup_insert_ne in Hk by done.
        destruct (Hcomplete k v Hk). split; by apply Hkeep.
Qed.

(** X10: the background index has, for every record of the
    dependencies, an entry under [(lower name, unit, location)] and one
    under [(lower name, unit)]; every entry leads to the key of a record
    with that lowered name and unit (and that location, for a 3-tuple).
    When two records share an index key, which one the entry names
    depends on the iteration order. *)
Theorem index_background_entries (recs : gmap key bg_record) :
  (∀ n u l k, index_background recs !! Key3 n u l = Some k →
     ∃ v, recs !! k = Some v ∧ lower (rec_name v) = n ∧ rec_unit v = u ∧
          l = GeoStr (rec_location v)) ∧
  (∀ n u k, index_background recs !! Key2 n u = Some k →
     ∃ v, recs !! k = Some v ∧ lower (rec_name v) = n ∧ rec_unit v = u) ∧
  (∀ k v, recs !! k = Some v →
     is_Some (index_background recs
                !! Key3 (lower (rec_name v)) (rec_unit v) (GeoStr (rec_location v))) ∧
     is_Some (index_background recs !! Key2 (lower (rec_name v)) (rec_unit v))).
Proof.
  destruct (index_background_spec recs) as [Hsound Hcomplete].
  split; [|split].
  - intros n u l k Hk. destruct (Hsound _ _ Hk) as (v & Hv & [Heq|Heq]);
      [|discriminate Heq].
    injection Heq as -> -> ->. by exists v.
  - intros n u k Hk. destruct (Hsound _ _ Hk) as (v & Hv & [Heq|Heq]);
      [discriminate Heq|].
    injection Heq as -> ->. by exists v.
  - exact Hcomplete.
Qed.

Section BackgroundLinking.

Variable pformat : exchange → string.
Variable foreground : gmap (string * string) key.
Variable recs : gmap key bg_record.

(** X11: an exchange whose name carries no geography ([location] is
    [False]) is never found in the background: the linker only looks up
    3-tuples, and every 3-tuple of the index holds a location string. So
    such an exchange links in the foreground or raises [MissingExchange];
    the [(name, unit)] entries of the background are never consulted. *)
Theorem link_exchange_without_location (exc : exchange) n u :
  exc_type exc ≠ Some "production" →
  exc_name exc = Some n → exc_unit exc = Some u →
  exc_location exc = Some GeoFalse →
  foreground !! (n, u) = None →
  link_exchange pformat foreground (index_background recs) exc
  = (Raise (MissingExchange
              ("Can't find exchange" +:+ String newline (pformat exc))), []).
Proof.
  intros Htype Hn Hu Hloc Hfg.
  rewrite link_exchange_third_test_dead. unfold link_exchange_two_tier.
  rewrite bool_decide_eq_false_2 by done. rewrite Hn, Hu.
  cbn [item bind ret]. rewrite Hfg, Hloc. cbn [item bind ret].
  destruct (index_background recs !! Key3 (lower n) u GeoFalse) as [k|] eqn:Hk;
    [|reflexivity].
  destruct (proj1 (index_background_spec recs) _ _ Hk) as (v & _ & [Heq|Heq]);
    discriminate Heq.
Qed.

End BackgroundLinking.

Definition demo_records : gmap key bg_record :=
  {[ ("ecoinvent", "w0") := BgRecord "Widget" "kg" "GLO" ]}.

Lemma link_exchange_without_location_witness :
  index_background demo_records !! Key2 "widget" "kg" = Some ("ecoinvent", "w0") ∧
  link_exchange demo_pformat ∅ (index_background demo_records) widget
  = (Raise (MissingExchange
              ("Can't find exchange" +:+ String newline (demo_pformat widget))), []).
Proof.
  split; [vm_compute; reflexivity|].
  apply (link_exchange_without_location demo_pformat ∅ demo_records widget
           "Widget" "kg"); [discriminate | reflexivity..].
Defined.

(** ** What linking changes *)

Section LinkShape.

Variable pformat : exchange → string.
Variables (foreground : gmap (string * string) key) (background : gmap bg_key key).

(** Key [k] is what the two tiers hold for exchange [e]. *)
Definition resolved (e : exchange) (k : key) : Prop :=
  ∃ n u, exc_name e = Some n ∧ exc_unit e = Some u ∧
    (foreground !! (n, u) = Some k ∨
     (foreground !! (n, u) = None ∧
      ∃ loc, exc_location e = Some loc ∧
             background !! Key3 (lower n) u loc = Some k)).

Definition linked (e e' : exchange) : Prop :=
  (is_production e ∧ e' = e) ∨
  (¬ is_production e ∧ ∃ k, resolved e k ∧ e' = linked_to k e).

Lemma link_exchange_Ok_inv (e e' : exchange) w :
  link_exchange pformat foreground background e = (Ok e', w) →
  linked e e' ∧ w = [].
Proof.
  rewrite link_exchange_third_test_dead. unfold link_exchange_two_tier.
  case_bool_decide as Hprod.
  { intros [= <- <-]. split; [by left|done]. }
  destruct (exc_name e) as [n|] eqn:Hn; [|discriminate].
  destruct (exc_unit e) as [u|] eqn:Hu; [|discriminate].
  cbn [item bind ret].
  destruct (foreground !! (n, u)) as [code|] eqn:Hfg.
  { cbn. intros [= <- <-]. split; [|done]. right. split; [done|].
    exists code. split; [|done]. exists n, u. eauto. }
  destruct (exc_location e) as [loc|] eqn:Hloc; [|discriminate].
  cbn [item bind ret].
  destruct (background !! Key3 (lower n) u loc) as [k|] eqn:Hbg; [|discriminate].
  cbn. intros [= <- <-]. split; [|done]. right. split; [done|].
  exists k. split; [|done]. exists n, u. split; [done|]. split; [done|].
  right. split; [done|]. by exists loc.
Qed.

Lemma mapM_link_exchange_Ok_inv exs exs' w :
  mapM (link_exchange pformat foreground background) exs = (Ok exs', w) →
  Forall2 linked exs exs' ∧ w = [].
Proof.
  revert exs' w. induction exs as [|e exs IH]; intros exs' w Hm.
  - cbn in Hm. injection Hm as <- <-. split; [constructor|done].
  - cbn [mapM] in Hm.
    apply bind_Ok_inv in Hm as (e' & we & ? & [He ->]%link_exchange_Ok_inv & Hm & ->).
    apply bind_Ok_inv in Hm as (exs1 & w1 & ? & [Hexs ->]%IH & Hm & ->).
    injection Hm as <- <-. split; [by constructor|done].
Qed.

(** X12: linking a dataset rewrites nothing but its exchanges, keeps
    their number and order, and logs nothing: a production exchange is
    left as it is, and any other exchange keeps its own keys and gains
    [input] (the code the foreground holds for its name and unit, or
    else the key the background holds for its lowered name, unit and
    location), [type] "technosphere" and [uncertainty type] 0. *)
Theorem link_exchanges_shape (ds ds' : dataset) w :
  link_exchanges pformat foreground background ds = (Ok ds', w) →
  ∃ exs exs',
    ds_exchanges ds = Some exs ∧ ds' = set_exchanges exs' ds ∧
    Forall2 linked exs exs' ∧ length exs' = length exs ∧ w = [].
Proof.
  unfold link_exchanges. intros Hlink.
  apply bind_Ok_inv in Hlink as (exs & ? & ? & [Hexs ->]%item_Ok_inv & Hlink & ->).
  apply bind_Ok_inv in Hlink
    as (exs' & ? & ? & [HF ->]%mapM_link_exchange_Ok_inv & Hlink & ->).
  injection Hlink as <- <-. exists exs, exs'.
  repeat split; try done. symmetry. by eapply Forall2_length.
Qed.

End LinkShape.

Lemma link_exchanges_shape_witness :
  ∃ exs exs',
    ds_exchanges demo_dataset_b = Some exs ∧
    value no_dataset
      (link_exchanges demo_pformat (create_foreground widget_datasets)
         (index_background ∅) demo_dataset_b)
    = set_exchanges exs' demo_dataset_b ∧
    Forall2 (linked (create_foreground widget_datasets) (index_background ∅))
      exs exs' ∧
    length exs' = length exs ∧
    (link_exchanges demo_pformat (create_foreground widget_datasets)
       (index_background ∅) demo_dataset_b).2 = [].
Proof.
  apply (link_exchanges_shape demo_pformat (create_foreground widget_datasets)
           (index_background ∅) demo_dataset_b).
  vm_compute. reflexivity.
Defined.

(** ** Runs that end before the linking *)

Section RunEdges.

Variable py_float : string → option spec_float.
Variable normalize_units : string → string.
Variable activity_hash : string → string → string → list string → string.
Variable pformat : exchange → string.
Variable read_csv : string → string → option (list row).
Variable store : Type.
Variable db_contains : store → string → bool.
Variable db_load : store → string → result (gmap key bg_record) * store.
Variable db_register :
  store → string → string → list string → nat → result unit * store.
Variable db_write : store → string → gmap key dataset → result unit * store.
Variable db_process : store → string → result unit * store.

Local Abbreviation run :=
  (importer py_float normalize_units activity_hash pformat read_csv store
     db_contains db_load db_register db_write db_process).
Local Abbreviation process :=
  (process_data py_float normalize_units activity_hash).

Lemma mbind_liftL {A B} (m : L A) (k : A → M store B) w :
  mbind store (liftL store m) k w
  = match m.1 with
    | Ok a => k a (World store (w_store store w) (w_calls store w)
                     (w_log store w ++ m.2))
    | Raise e => (Raise e, World store (w_store store w) (w_calls store w)
                             (w_log store w ++ m.2))
    end.
Proof. reflexivity. Qed.

(** X13: a file whose first field does not contain "SimaPro" is
    refused with the format [AssertionError] (FormatError) before
    anything else is read; an empty file, or one whose first row is
    empty, raises [IndexError] instead. In all three cases no call is
    made on the store. *)
Theorem importer_rejects_file self s calls log data :
  read_csv (filepath self) (delimiter self) = Some data →
  (∀ r0 f0, data !! 0 = Some r0 → r0 !! 0 = Some f0 →
            contains "SimaPro" f0 = false →
     ∃ log', run self (World store s calls log)
             = (Raise (AssertionError "File is not valid SimaPro export"),
                World store s calls log') ∧
             taxonomy (AssertionError "File is not valid SimaPro export")
             = Some FormatError) ∧
  (data !! 0 = None ∨ data !! 0 = Some [] →
     ∃ log', run self (World store s calls log)
             = (Raise IndexError, World store s calls log') ∧
             taxonomy IndexError = None).
Proof.
  intros Hread. split.
  - intros r0 f0 Hr0 Hf0 Hsima. eexists. split; [|reflexivity].
    unfold importer. rewrite mbind_liftL. cbn [tell fst snd].
    unfold mbind at 1. unfold load_file. rewrite Hread. cbn [mret].
    rewrite mbind_liftL. unfold verify_simapro_file.
    rewrite (getitem_Some _ _ _ Hr0), bind_ret_l.
    rewrite (getitem_Some _ _ _ Hf0), bind_ret_l, Hsima.
    cbn [assert raise fst snd w_store w_calls w_log]. reflexivity.
  - intros Hempty. eexists. split; [|reflexivity].
    unfold importer. rewrite mbind_liftL. cbn [tell fst snd].
    unfold mbind at 1. unfold load_file. rewrite Hread. cbn [mret].
    rewrite mbind_liftL. unfold verify_simapro_file.
    assert (Hverify :
      (let* r0 := getitem data 0 in let* f0 := getitem r0 0 in
       assert (contains "SimaPro" f0) "File is not valid SimaPro export")
      = (Raise IndexError, [])).
    { unfold getitem at 1. destruct Hempty as [-> | ->]; reflexivity. }
    rewrite Hverify. cbn [fst snd w_store w_calls w_log]. reflexivity.
Qed.

Lemma load_background_data_Raise oks db rest acc recs s s1 s2 calls log e :
  loaded_records store db_load s oks acc = (Ok recs, s1) →
  db_load s1 db = (Raise e, s2) →
  load_background_data store db_load (oks ++ db :: rest) acc
    (World store s calls log)
  = (Raise e, World store s2 (calls ++ (CallLoad <$> oks ++ [db])) log).
Proof.
  intros Hoks Hdb. revert acc s calls Hoks.
  induction oks as [|d oks IH]; intros acc s calls Hoks.
  - cbn in Hoks. injection Hoks as _ ->. cbn [app load_background_data].
    unfold mbind at 1, command, called, mbind. cbn [w_store w_calls w_log].
    by rewrite Hdb.
  - cbn [loaded_records] in Hoks. cbn [app load_background_data].
    unfold mbind at 1, command, called, mbind. cbn [w_store w_calls w_log].
    destruct (db_load s d) as [[r|e'] s'] eqn:Hd; [|discriminate Hoks].
    cbn [w_store w_calls w_log].
    rewrite (IH _ _ _ Hoks). cbn [fmap list_fmap]. by rewrite <- app_assoc.
Qed.

(** X14: when a dependency cannot be loaded, the run ends with the
    exception of that [load], after the whole file has been parsed and
    before any exchange is linked: the log holds the introduction, what
    the segmenter and the extraction of the blocks logged, and nothing
    else. The dependencies before the failing one have been loaded, in
    their order, the ones after it are not asked for, and no
    [register], [write] or [process] is called: the store is as those
    loads left it. *)
Theorem importer_dependency_fails self s s1 s2 calls log data r0 format name
    blocks dss l2 l3 oks db rest recs e :
  read_csv (filepath self) (delimiter self) = Some data →
  data !! 0 = Some r0 → r0 !! 0 = Some format →
  contains "SimaPro" format = true →
  clean_data (db_name self) data = (Ok (name, blocks), l2) →
  mapM (process name (default_geo self)) blocks = (Ok dss, l3) →
  depends self = oks ++ db :: rest →
  loaded_records store db_load s oks ∅ = (Ok recs, s1) →
  db_load s1 db = (Raise e, s2) →
  run self (World store s calls log)
  = (Raise e,
     World store s2 (calls ++ (CallLoad <$> oks ++ [db]))
       (log ++ [Info (INTRODUCTION self)] ++ l2
        ++ [Info ("Found " +:+ pretty (length blocks) +:+ " datasets")] ++ l3)).
Proof.
  intros Hread Hr0 Hformat Hsima Hclean Hproc Hdeps Hoks Hdb.
  unfold importer.
  rewrite mbind_liftL. cbn [tell fst snd w_store w_calls w_log].
  unfold mbind at 1. unfold load_file. rewrite Hread. cbn [mret].
  rewrite mbind_liftL. unfold verify_simapro_file.
  rewrite (getitem_Some _ _ _ Hr0), bind_ret_l.
  rewrite (getitem_Some _ _ _ Hformat), bind_ret_l.
  rewrite Hsima. cbn [assert ret fst snd w_store w_calls w_log].
  rewrite mbind_liftL. rewrite bind_ret_l, (getitem_Some _ _ _ Hformat).
  cbn [ret fst snd w_store w_calls w_log].
  rewrite mbind_liftL, Hclean. cbn [fst snd w_store w_calls w_log].
  rewrite mbind_liftL. cbn [tell fst snd w_store w_calls w_log].
  rewrite mbind_liftL, Hproc. cbn [fst snd w_store w_calls w_log].
  unfold mbind at 1. unfold load_background. unfold mbind at 1.
  rewrite Hdeps, (load_background_data_Raise _ _ _ _ _ _ _ _ _ _ _ Hoks Hdb).
  rewrite !app_nil_r, <- !app_assoc. reflexivity.
Qed.

End RunEdges.

(** ** The edge cases on concrete files *)

(** Block C with an amount that is not a number. *)
Definition block_f : list row :=
  [ ["Process"]; []; ["Products"];
    ["Gadget"; "1"; "kg"; "100"; "not defined"; "Others"]; [];
    ["Materials/fuels"]; ["Steel/RER U"; "lots"; "kg"; "Undefined"];
    ["Widget"; "2.5"; "kg"; "Undefined"] ].

Lemma get_exchanges_bad_row_witness :
  get_exchanges demo_float demo_units block_f = (Raise ValueError, []) ∧
  taxonomy ValueError = Some NumericParseError.
Proof.
  assert (Hlab : "Materials/fuels" ∉ SIMAPRO_BIOSPHERE).
  { apply (bool_decide_eq_false_1 _). vm_compute. reflexivity. }
  apply (proj1 (get_exchanges_bad_row demo_float demo_units block_f 2
                  [["Materials/fuels"]]
                  ["Steel/RER U"; "lots"; "kg"; "Undefined"]
                  [["Widget"; "2.5"; "kg"; "Undefined"]] [] []
                  "Materials/fuels" "Steel/RER U" "lots" "Steel" (GeoStr "RER") []
                  eq_refl eq_refl eq_refl eq_refl eq_refl
                  Hlab eq_refl eq_refl eq_refl)).
  reflexivity.
Defined.

Lemma biosphere_rows_not_parsed_witness :
  get_exchanges_loop demo_float demo_units
    [["Carbon dioxide"; "a lot"]; []; ["Methane"; "1"; "kg"]]
    (Some "Emissions to air") [widget]
  = (Ok [widget], []).
Proof.
  apply (biosphere_rows_not_parsed demo_float demo_units
           [["Carbon dioxide"; "a lot"]; []; ["Methane"; "1"; "kg"]]
           "Emissions to air" [widget]).
  - apply (bool_decide_eq_true_1 _). vm_compute. reflexivity.
  - repeat constructor; discriminate.
Defined.

Lemma get_dataset_metadata_stops_at_products_witness :
  get_dataset_metadata block_a
  = get_dataset_metadata
      [["Process"]; ["Category type"; "material"]; []; ["Products"]].
Proof.
  apply (get_dataset_metadata_stops_at_products
           [["Process"]; ["Category type"; "material"]; []] ["Products"]
           [["Widget"; "1"; "kg"; "100"; "not defined"; "Others\Demo"]; [];
            ["Materials/fuels"]; []] []).
  reflexivity.
Defined.

(** A spreadsheet that is not a SimaPro export. *)
Definition foreign_read_csv (path delimiter : string) : option (list row) :=
  Some [ ["Inventory"; "2014"]; ["Process"] ].

Lemma importer_rejects_file_witness :
  ∃ log',
    importer demo_float demo_units demo_hash demo_pformat foreign_read_csv
      (list string) demo_contains demo_load demo_register demo_write
      demo_process (demo_self "inventory.csv" false)
      (World (list string) [] [] [])
    = (Raise (AssertionError "File is not valid SimaPro export"),
       World (list string) [] [] log') ∧
    taxonomy (AssertionError "File is not valid SimaPro export")
    = Some FormatError.
Proof.
  apply (proj1 (importer_rejects_file demo_float demo_units demo_hash
                  demo_pformat foreign_read_csv (list string) demo_contains
                  demo_load demo_register demo_write demo_process
                  (demo_self "inventory.csv" false) [] [] []
                  [["Inventory"; "2014"]; ["Process"]] eq_refl)
           ["Inventory"; "2014"] "Inventory" eq_refl eq_refl eq_refl).
Defined.

(** A store in which only the registered databases can be loaded. *)
Definition strict_load (s : list string) (name : string)
  : result (gmap key bg_record) * list string :=
  if bool_decide (name ∈ s) then (Ok ∅, s) else (Raise (StoreError name), s).

Definition dependent_self : importer_self :=
  ImporterSelf "widgets.csv" tab ["local"; "ecoinvent 2.2"; "biosphere"] false
    None "GLO" "simapro-import.log".

Lemma importer_dependency_fails_witness :
  importer demo_float demo_units demo_hash demo_pformat demo_read_csv
    (list string) demo_contains strict_load demo_register demo_write
    demo_process dependent_self (World (list string) ["local"] [] [])
  = (Raise (StoreError "ecoinvent 2.2"),
     World (list string) ["local"]
       ([] ++ (CallLoad <$> ["local"] ++ ["ecoinvent 2.2"]))
       ([] ++ [Info (INTRODUCTION dependent_self)] ++ []
        ++ [Info ("Found " +:+ pretty (length widget_blocks) +:+ " datasets")]
        ++ (mapM demo_process_data widget_blocks).2)).
Proof.
  apply (importer_dependency_fails demo_float demo_units demo_hash demo_pformat
           demo_read_csv (list string) demo_contains strict_load demo_register
           demo_write demo_process dependent_self ["local"] ["local"] ["local"]
           [] [] (header ++ block_a ++ block_b) ["{SimaPro 7.3}"] "{SimaPro 7.3}"
           "demo" widget_blocks (demo_datasets widget_blocks) []
           (mapM demo_process_data widget_blocks).2
           ["local"] "ecoinvent 2.2" ["biosphere"] ∅
           (StoreError "ecoinvent 2.2"));
    vm_compute; reflexivity.
Defined.

(** ** The order of the calls on the store *)

Section Discipline.

Variable py_float : string → option spec_float.
Variable normalize_units : string → string.
Variable activity_hash : string → string → string → list string → string.
Variable pformat : exchange → string.
Variable read_csv : string → string → option (list row).
Variable store : Type.
Variable db_contains : store → string → bool.
Variable db_load : store → string → result (gmap key bg_record) * store.
Variable db_register :
  store → string → string → list string → nat → result unit * store.
Variable db_write : store → string → gmap key dataset → result unit * store.
Variable db_process : store → string → result unit * store.

Local Abbreviation run :=
  (importer py_float normalize_units activity_hash pformat read_csv store
     db_contains db_load db_register db_write db_process).

(** The calls of the last stage of a run that goes through. *)
Definition commit_calls (self : importer_self) (name format : string) (n : nat)
    (data : gmap key dataset) : list store_call :=
  (if overwrite self then [] else [CallRegister name format (depends self) n])
  ++ [CallWrite name data; CallProcess name].

(** The store after [Database(db).load()] for each of [loads], in
    their order. *)
Definition after_loads (s : store) (loads : list string) : store :=
  foldl (λ s db, (db_load s db).2) s loads.

(** What every run keeps to, from world [w] to world [w']. *)
Definition disciplined (self : importer_self) (w w' : world store) : Prop :=
  ∃ loads name format n data commit,
    w_calls store w' = w_calls store w ++ (CallLoad <$> loads) ++ commit ∧
    loads `prefix_of` depends self ∧
    commit `prefix_of` commit_calls self name format n data ∧
    (commit = [] → w_store store w' = after_loads (w_store store w) loads) ∧
    (commit ≠ [] → loads = depends self).

Lemma disciplined_no_call self s calls log log' :
  disciplined self (World store s calls log) (World store s calls log').
Proof.
  exists [], "", "", 0, ∅, []. cbn. rewrite app_nil_r.
  repeat split; try done; apply prefix_nil.
Qed.

Lemma disciplined_loads self s s1 calls log log' loads :
  s1 = after_loads s loads →
  loads `prefix_of` depends self →
  disciplined self (World store s calls log)
    (World store s1 (calls ++ (CallLoad <$> loads)) log').
Proof.
  intros -> Hloads. exists loads, "", "", 0, ∅, []. cbn. rewrite app_nil_r.
  repeat split; try done. apply prefix_nil.
Qed.

Lemma disciplined_commit self s s' calls log log' name format n data commit :
  commit ≠ [] →
  commit `prefix_of` commit_calls self name format n data →
  disciplined self (World store s calls log)
    (World store s' ((calls ++ (CallLoad <$> depends self)) ++ commit) log').
Proof.
  intros Hne Hcommit. exists (depends self), name, format, n, data, commit. cbn.
  rewrite <- app_assoc. repeat split; done.
Qed.

Lemma load_background_data_calls dbs acc s calls log :
  ∃ loads r,
    load_background_data store db_load dbs acc (World store s calls log)
    = (r, World store (after_loads s loads) (calls ++ (CallLoad <$> loads)) log) ∧
    loads `prefix_of` dbs ∧ (∀ a, r = Ok a → loads = dbs).
Proof.
  revert acc s calls. induction dbs as [|db dbs IH]; intros acc s calls.
  - exists [], (Ok acc). cbn. rewrite app_nil_r. by repeat split.
  - cbn [load_background_data].
    unfold mbind at 1, command, called, mbind. cbn [w_store w_calls w_log].
    destruct (db_load s db) as [[loaded|e] s1] eqn:Hload;
      cbn [w_store w_calls w_log].
    + destruct (IH (loaded ∪ acc) s1 (calls ++ [CallLoad db]))
        as (loads & r & -> & Hloads & Hall).
      exists (db :: loads), r. cbn [fmap list_fmap after_loads foldl].
      rewrite Hload. cbn [snd]. rewrite <- app_assoc. repeat split.
      * by apply prefix_cons.
      * intros a Ha. f_equal. by eapply Hall.
    + exists [db], (Raise e). cbn [fmap list_fmap after_loads foldl].
      rewrite Hload. repeat split; [|discriminate].
      apply (prefix_cons db [] dbs), prefix_nil.
Qed.

Ltac norm :=
  cbv beta iota delta [w_store w_calls w_log negb assert raise ret fst snd].
Ltac finish := do 2 eexists; split; [reflexivity|].

Ltac stage :=
  rewrite mbind_liftL; cbn [w_store w_calls w_log];
  match goal with
  | |- context [match fst ?m with _ => _ end] =>
      destruct m as [[?|?] ?]; cbn [fst snd];
      [|do 2 eexists; split; [reflexivity|]; apply disciplined_no_call]
  end.

(** X15: whatever the file and the store hold, a run calls the store in
    one fixed order: [load] on the dependencies in their order, stopping
    at the first that fails, and only when all are loaded and every
    exchange is linked [register] (never with [overwrite]), then
    [write], then [process], stopping at the first that raises. A run
    that has called none of those three has changed the store only
    through its loads: the store is what those loads, in their order,
    left. *)
Theorem importer_call_order self w :
  ∃ r w', run self w = (r, w') ∧ disciplined self w w'.
Proof.
  destruct w as [s calls log]. unfold importer.
  rewrite mbind_liftL. cbn [tell fst snd w_store w_calls w_log].
  unfold mbind at 1. unfold load_file.
  destruct (read_csv (filepath self) (delimiter self)) as [data|]; cbn [mret mraise];
    [|do 2 eexists; split; [reflexivity|]; apply disciplined_no_call].
  stage. stage. stage.
  match goal with p : (string * list (list row))%type |- _ =>
    destruct p as [name blocks] end.
  rewrite mbind_liftL. cbn [tell fst snd w_store w_calls w_log].
  stage.
  unfold mbind at 1. unfold load_background. unfold mbind at 1.
  match goal with |- context [load_background_data _ _ ?d ?a (World _ ?s ?c ?l)] =>
    destruct (load_background_data_calls d a s c l)
      as (loads & rb & -> & Hloads & Hall) end.
  destruct rb as [records|e];
    [|do 2 eexists; split; [reflexivity|]; by apply disciplined_loads].
  rewrite (Hall _ eq_refl). clear Hloads Hall. cbn [mret].
  remember (after_loads s (depends self)) as s0 eqn:Hs0.
  rewrite mbind_liftL; cbn [w_store w_calls w_log].
  match goal with
  | |- context [match fst ?m with _ => _ end] =>
      destruct m as [[linked_data|?] ?]; cbn [fst snd];
      [|do 2 eexists; split; [reflexivity|]; by apply disciplined_loads]
  end.
  unfold mbind, in_databases, liftL, command, called, mbind, mret.
  rewrite getattr_warning, getattr_logile. unfold mraise.
  pose proof (λ log', disciplined_loads self s s0 calls log log' (depends self)
                Hs0 (reflexivity _)) as Hstop.
  pose proof (λ s' calls log log', disciplined_commit self s s' calls log log'
                name a0 (length linked_data) (by_code linked_data)) as Hgo.
  destruct (overwrite self) eqn:Hov; norm.
  - destruct (db_contains s0 name); norm; [finish; by apply Hstop|].
    destruct (db_write s0 name (by_code linked_data)) as [[[]|e] s1]; norm.
    + destruct (db_process s1 name) as [[[]|e] s2]; norm; finish;
        (rewrite <- app_assoc; apply Hgo; [done|];
         unfold commit_calls; rewrite Hov; reflexivity).
    + finish. apply Hgo; [done|].
      unfold commit_calls; rewrite Hov. apply prefix_cons, prefix_nil.
  - destruct (db_contains s0 name); norm; [finish; by apply Hstop|].
    destruct (db_register s0 name a0 (depends self) (length linked_data))
      as [[[]|e] s1]; norm.
    + destruct (db_write s1 name (by_code linked_data)) as [[[]|e] s2]; norm.
      * destruct (db_process s2 name) as [[[]|e] s3]; norm; finish;
          (rewrite <- !app_assoc; rewrite (app_assoc calls);
           apply Hgo; [done|];
           unfold commit_calls; rewrite Hov; reflexivity).
      * finish. rewrite <- !app_assoc. rewrite (app_assoc calls).
        apply Hgo; [done|].
        unfold commit_calls; rewrite Hov. do 2 apply prefix_cons. apply prefix_nil.
    + finish. apply Hgo; [done|].
      unfold commit_calls; rewrite Hov. apply prefix_cons, prefix_nil.
Qed.

End Discipline.

(** ** The name of the imported database *)

(** X16: the blocks that [clean_data] cuts do not depend on the database
    name. With a name given, row 1 of the file is not looked at and
    nothing can fail; without one, the name is field 1 of row 1 when
    field 0 is "Project", the run stops with an [AssertionError] outside
    the taxonomy when field 0 is anything else, and with [IndexError]
    when the file has no row 1, or row 1 is empty or is the single field
    "Project". *)
Theorem clean_data_name (data : list row) :
  ∃ blocks,
    (∀ n, clean_data (Some n) data = (Ok (n, blocks), [])) ∧
    (∀ n rest, data !! 1 = Some ("Project" :: n :: rest) →
       clean_data None data = (Ok (n, blocks), [])) ∧
    (∀ f0 rest, data !! 1 = Some (f0 :: rest) → f0 ≠ "Project" →
       clean_data None data
       = (Raise (AssertionError "Can't determine SimaPro project name"), []) ∧
       taxonomy (AssertionError "Can't determine SimaPro project name") = None) ∧
    (data !! 1 = None ∨ data !! 1 = Some [] ∨ data !! 1 = Some ["Project"] →
       clean_data None data = (Raise IndexError, [])).
Proof.
  eexists. split; [intros n; reflexivity|]. split; [|split].
  - intros n rest Hrow. unfold clean_data.
    rewrite (getitem_Some _ _ _ Hrow). reflexivity.
  - intros f0 rest Hrow Hf0. split; [|reflexivity]. unfold clean_data.
    rewrite (getitem_Some _ _ _ Hrow). cbn [bind ret getitem lookup list_lookup].
    by rewrite (bool_decide_eq_false_2 _ Hf0).
  - unfold clean_data, getitem. intros [-> | [-> | ->]]; reflexivity.
Qed.

(** ** A block that cannot be parsed *)

Section ParseError.

Variable py_float : string → option spec_float.
Variable normalize_units : string → string.
Variable activity_hash : string → string → string → list string → string.
Variable pformat : exchange → string.
Variable read_csv : string → string → option (list row).
Variable store : Type.
Variable db_contains : store → string → bool.
Variable db_load : store → string → result (gmap key bg_record) * store.
Variable db_register :
  store → string → string → list string → nat → result unit * store.
Variable db_write : store → string → gmap key dataset → result unit * store.
Variable db_process : store → string → result unit * store.

Local Abbreviation run :=
  (importer py_float normalize_units activity_hash pformat read_csv store
     db_contains db_load db_register db_write db_process).
Local Abbreviation process :=
  (process_data py_float normalize_units activity_hash).

(** X17: the import is all or nothing over the blocks of the file: when
    one block cannot be structured, the run ends with the exception of
    the first such block, and no call at all is made on the store, not
    even to load a dependency. The blocks after it are not looked at:
    the log ends with what the blocks before it and the failing block
    itself logged, whatever the later blocks hold. *)
Theorem importer_bad_block self s calls log data r0 format name good bad rest
    dss l2 l3 e l4 :
  read_csv (filepath self) (delimiter self) = Some data →
  data !! 0 = Some r0 → r0 !! 0 = Some format →
  contains "SimaPro" format = true →
  clean_data (db_name self) data = (Ok (name, good ++ bad :: rest), l2) →
  mapM (process name (default_geo self)) good = (Ok dss, l3) →
  process name (default_geo self) bad = (Raise e, l4) →
  run self (World store s calls log)
  = (Raise e,
     World store s calls
       (log ++ [Info (INTRODUCTION self)] ++ l2
        ++ [Info ("Found " +:+ pretty (length (good ++ bad :: rest))
                  +:+ " datasets")]
        ++ l3 ++ l4)).
Proof.
  intros Hread Hr0 Hformat Hsima Hclean Hgood Hbad.
  assert (Hproc : mapM (process name (default_geo self)) (good ++ bad :: rest)
                  = (Raise e, l3 ++ l4)).
  { clear Hclean. revert dss l3 Hgood.
    induction good as [|b good IH]; intros dss l3 Hgood.
    - cbn in Hgood. injection Hgood as <- <-. cbn [app mapM].
      by rewrite (bind_Raise _ _ _ _ Hbad).
    - cbn [app mapM] in *.
      apply bind_Ok_inv in Hgood as (d & w1 & w2 & Hb & Hgood & ->).
      apply bind_Ok_inv in Hgood as (ds & w3 & w4 & Hgood & Hret & ->).
      injection Hret as <- <-.
      rewrite (bind_Ok _ _ _ _ Hb), (bind_Raise _ _ _ _ (IH _ _ Hgood)).
      cbn [fst snd]. by rewrite app_nil_r, app_assoc. }
  unfold importer.
  rewrite mbind_liftL. cbn [tell fst snd w_store w_calls w_log].
  unfold mbind at 1. unfold load_file. rewrite Hread. cbn [mret].
  rewrite mbind_liftL. unfold verify_simapro_file.
  rewrite (getitem_Some _ _ _ Hr0), bind_ret_l.
  rewrite (getitem_Some _ _ _ Hformat), bind_ret_l.
  rewrite Hsima. cbn [assert ret fst snd w_store w_calls w_log].
  rewrite mbind_liftL. rewrite bind_ret_l, (getitem_Some _ _ _ Hformat).
  cbn [ret fst snd w_store w_calls w_log].
  rewrite mbind_liftL, Hclean. cbn [fst snd w_store w_calls w_log].
  rewrite mbind_liftL. cbn [tell fst snd w_store w_calls w_log].
  rewrite mbind_liftL, Hproc. cbn [fst snd w_store w_calls w_log].
  rewrite !app_nil_r, <- !app_assoc. reflexivity.
Qed.

End ParseError.

(** A block with two products. *)
Definition block_g : list row :=
  [ ["Process"]; []; ["Products"];
    ["Gadget"; "1"; "kg"; "100"; "not defined"; "Others"];
    ["Gizmo"; "1"; "kg"; "100"; "not defined"; "Others"]; [];
    ["Materials/fuels"]; ["Widget"; "2.5"; "kg"; "Undefined"] ].

Definition gizmo_read_csv (path delimiter : string) : option (list row) :=
  Some (header ++ block_a ++ block_g ++ block_b).

Lemma importer_bad_block_witness :
  importer demo_float demo_units demo_hash demo_pformat gizmo_read_csv
    (list string) demo_contains strict_load demo_register demo_write
    demo_process dependent_self (World (list string) ["local"] [] [])
  = (Raise (AssertionError "Can't import multioutput datasets"),
     World (list string) ["local"] []
       ([] ++ [Info (INTRODUCTION dependent_self)] ++ []
        ++ [Info ("Found " +:+ pretty (length ([block_a] ++ block_g :: [block_b]))
                  +:+ " datasets")]
        ++ (mapM demo_process_data [block_a]).2 ++ (demo_process_data block_g).2)).
Proof.
  apply (importer_bad_block demo_float demo_units demo_hash demo_pformat
           gizmo_read_csv (list string) demo_contains strict_load demo_register
           demo_write demo_process dependent_self ["local"] [] []
           (header ++ block_a ++ block_g ++ block_b)
           ["{SimaPro 7.3}"] "{SimaPro 7.3}" "demo" [block_a] block_g [block_b]
           (demo_datasets [block_a]) []
           (mapM demo_process_data [block_a]).2
           (AssertionError "Can't import multioutput datasets")
           (demo_process_data block_g).2);
    vm_compute; reflexivity.
Defined.

(** * [bw2data.meta]: the mapping of object ids to integers *)

Module Mapping.

Section Mapping.

Context `{Countable K}.

(** [repr(key)], the argument of the [KeyError] of a missing key. *)
Variable repr : K → string.

(** [self.data], and the pickle file that [flush] writes it to. *)
Record mapping : Type := Mapping {
  data : gmap K Z;
  file : gmap K Z
}.

Definition flush (m : mapping) : mapping := Mapping (data m) (data m).

(** [self.data.values()] *)
Definition values (d : gmap K Z) : list Z := (map_to_list d).*2.

(** [max(self.data.values()) if self.data else 0] *)
Definition start_index (d : gmap K Z) : Z :=
  match values d with
  | [] => 0%Z
  | v :: vs => foldl Z.max v vs
  end.

(** The loop of [add], at position [i] of [enumerate(keys)]. *)
Fixpoint add_loop (index : Z) (i : nat) (keys : list K) (d : gmap K Z)
  : gmap K Z :=
  match keys with
  | [] => d
  | key :: keys' =>
      add_loop index (S i) keys'
        (match d !! key with
         | Some _ => d
         | None => <[key := (index + Z.of_nat i + 1)%Z]> d
         end)
  end.

Definition add (keys : list K) (m : mapping) : mapping :=
  flush (Mapping (add_loop (start_index (data m)) 0 keys (data m)) (file m)).

(** The loop of [delete]: [del self.data[key]] raises [KeyError] for a
    key that is not there, and what was deleted before stays deleted. *)
Fixpoint delete_loop (keys : list K) (d : gmap K Z) : result unit * gmap K Z :=
  match keys with
  | [] => (Ok tt, d)
  | key :: keys' =>
      match d !! key with
      | Some _ => delete_loop keys' (base.delete key d)
      | None => (Raise (KeyError (repr key)), d)
      end
  end.

Definition delete (keys : list K) (m : mapping) : result unit * mapping :=
  match delete_loop keys (data m) with
  | (Ok _, d) => (Ok tt, flush (Mapping d (file m)))
  | (Raise e, d) => (Raise e, Mapping d (file m))
  end.

(** No two keys share an index. *)
Definition injective (d : gmap K Z) : Prop :=
  ∀ k1 k2 v, d !! k1 = Some v → d !! k2 = Some v → k1 = k2.

Lemma foldl_max_ge (vs : list Z) (a x : Z) :
  (x ≤ a)%Z ∨ x ∈ vs → (x ≤ foldl Z.max a vs)%Z.
Proof.
  revert a. induction vs as [|v vs IH]; intros a [Hx|Hx]; cbn [foldl].
  - done.
  - by apply elem_of_nil in Hx.
  - apply IH. left. lia.
  - apply elem_of_cons in Hx as [->|Hx]; apply IH; [left; lia|by right].
Qed.

Lemma start_index_ge (d : gmap K Z) k v :
  d !! k = Some v → (v ≤ start_index d)%Z.
Proof.
  intros Hk. assert (Hv : v ∈ values d).
  { unfold values. apply list_elem_of_fmap. exists (k, v). split; [done|].
    by apply elem_of_map_to_list. }
  unfold start_index. destruct (values d) as [|a vs]; [by apply elem_of_nil in Hv|].
  apply foldl_max_ge. apply elem_of_cons in Hv as [->|Hv]; [by left|by right].
Qed.

Lemma add_loop_old index i keys d k v :
  d !! k = Some v → add_loop index i keys d !! k = Some v.
Proof.
  revert i d. induction keys as [|key keys IH]; intros i d Hk; [done|].
  cbn [add_loop]. apply IH. destruct (d !! key) eqn:Hkey; [done|].
  rewrite lookup_insert_ne; [done|]. intros ->. congruence.
Qed.

Lemma add_loop_other index i keys d k :
  d !! k = None → k ∉ keys → add_loop index i keys d !! k = None.
Proof.
  revert i d. induction keys as [|key keys IH]; intros i d Hk Hnot; [done|].
  cbn [add_loop]. apply not_elem_of_cons in Hnot as [Hne Hnot].
  apply IH; [|done]. destruct (d !! key); [done|].
  by rewrite lookup_insert_ne.
Qed.

Lemma add_loop_new index i pre k rest d :
  d !! k = None → k ∉ pre →
  add_loop index i (pre ++ k :: rest) d !! k
  = Some (index + Z.of_nat (i + length pre) + 1)%Z.
Proof.
  revert i d. induction pre as [|key pre IH]; intros i d Hk Hnot.
  - cbn [app add_loop length]. rewrite Hk. rewrite Nat.add_0_r.
    apply add_loop_old. by rewrite lookup_insert_eq.
  - apply not_elem_of_cons in Hnot as [Hne Hnot].
    cbn [app add_loop length]. rewrite IH; [f_equal; lia| |done].
    destruct (d !! key); [done|]. by rewrite lookup_insert_ne.
Qed.

Lemma add_loop_present index i keys d :
  (∀ k, k ∈ keys → is_Some (d !! k)) → add_loop index i keys d = d.
Proof.
  revert i. induction keys as [|key keys IH]; intros i Hall; [done|].
  cbn [add_loop]. destruct (Hall key) as [v ->]; [by left|].
  apply IH. intros k Hk. apply Hall. by right.
Qed.

(** X18: [add] keeps every index that is already in the mapping, gives
    an index to every key of the list and to nothing else, and flushes.
    Adding the same keys again changes nothing. *)
Theorem add_extends (keys : list K) (m : mapping) :
  (∀ k v, data m !! k = Some v → data (add keys m) !! k = Some v) ∧
  (∀ k, is_Some (data (add keys m) !! k) ↔ is_Some (data m !! k) ∨ k ∈ keys) ∧
  file (add keys m) = data (add keys m) ∧
  add keys (add keys m) = add keys m.
Proof.
  assert (Hdom : ∀ k, is_Some (data (add keys m) !! k)
                      ↔ is_Some (data m !! k) ∨ k ∈ keys).
  { intros k. cbn. split.
    - intros Hk. destruct (data m !! k) as [v|] eqn:Hold; [left; by eexists|].
      right. destruct (decide (k ∈ keys)) as [|Hnot]; [done|].
      rewrite (add_loop_other _ _ _ _ _ Hold Hnot) in Hk. by destruct Hk.
    - intros [[v Hk]|Hk].
      + exists v. by apply add_loop_old.
      + destruct (data m !! k) as [v|] eqn:Hold.
        * exists v. by apply add_loop_old.
        * apply list_elem_of_split_l in Hk as (pre & rest & -> & Hpre).
          rewrite (add_loop_new _ _ _ _ _ _ Hold Hpre). by eexists. }
  split; [intros k v; apply add_loop_old|]. split; [done|]. split; [done|].
  unfold add at 1. unfold flush. cbn [data file].
  rewrite add_loop_present.
  - reflexivity.
  - intros k Hk. apply Hdom. by right.
Qed.

(** X19: a new key gets [index + i + 1], where [index] is the largest
    index in the mapping before the call (0 for an empty mapping) and [i]
    the position of the key's first occurrence in the list: positions of
    keys that are already mapped are skipped, not reused, and every new
    index is larger than every old one. *)
Theorem add_new_index (keys : list K) (m : mapping) :
  (∀ pre k rest, keys = pre ++ k :: rest → k ∉ pre → data m !! k = None →
     data (add keys m) !! k
     = Some (start_index (data m) + Z.of_nat (length pre) + 1)%Z) ∧
  (∀ k v k' v', data m !! k = None → data (add keys m) !! k = Some v →
     data m !! k' = Some v' → (v' < v)%Z).
Proof.
  assert (Hnew : ∀ pre k rest, keys = pre ++ k :: rest → k ∉ pre →
            data m !! k = None →
            data (add keys m) !! k
            = Some (start_index (data m) + Z.of_nat (length pre) + 1)%Z).
  { intros pre k rest -> Hpre Hold. cbn.
    by rewrite (add_loop_new _ _ _ _ _ _ Hold Hpre). }
  split; [done|]. intros k v k' v' Hold Hk Hk'.
  destruct (decide (k ∈ keys)) as [Hin|Hnot].
  - apply list_elem_of_split_l in Hin as (pre & rest & Hkeys & Hpre).
    rewrite (Hnew pre k rest Hkeys Hpre Hold) in Hk. injection Hk as <-.
    pose proof (start_index_ge _ _ _ Hk'). lia.
  - cbn in Hk. by rewrite (add_loop_other _ _ _ _ _ Hold Hnot) in Hk.
Qed.

(** X20: [add] never gives one index to two keys: if no two keys of the
    mapping share an index before the call, none do after it. *)
Theorem add_injective (keys : list K) (m : mapping) :
  injective (data m) → injective (data (add keys m)).
Proof.
  intros Hinj k1 k2 v H1 H2.
  assert (Hcase : ∀ k, data (add keys m) !! k = Some v →
            data m !! k = Some v ∨
            (data m !! k = None ∧ ∃ pre rest, keys = pre ++ k :: rest ∧ (k ∉ pre) ∧
               v = (start_index (data m) + Z.of_nat (length pre) + 1)%Z)).
  { intros k Hk. destruct (data m !! k) as [v0|] eqn:Hold.
    - left. cbn in Hk. rewrite (add_loop_old _ _ _ _ _ _ Hold) in Hk. done.
    - right. split; [done|]. destruct (decide (k ∈ keys)) as [Hin|Hnot].
      + apply list_elem_of_split_l in Hin as (pre & rest & -> & Hpre).
        exists pre, rest. repeat split; [done|]. cbn in Hk.
        rewrite (add_loop_new _ _ _ _ _ _ Hold Hpre) in Hk. by injection Hk as <-.
      + cbn in Hk. by rewrite (add_loop_other _ _ _ _ _ Hold Hnot) in Hk. }
  destruct (Hcase k1 H1) as [Ho1|(Hn1 & pre1 & rest1 & Hk1 & Hp1 & Hv1)],
           (Hcase k2 H2) as [Ho2|(Hn2 & pre2 & rest2 & Hk2 & Hp2 & Hv2)].
  - by eapply Hinj.
  - pose proof (start_index_ge _ _ _ Ho1). lia.
  - pose proof (start_index_ge _ _ _ Ho2). lia.
  - assert (Hlen : length pre1 = length pre2) by lia.
    assert (Hl1 : keys !! length pre1 = Some k1).
    { rewrite Hk1. by apply list_lookup_middle. }
    assert (Hl2 : keys !! length pre2 = Some k2).
    { rewrite Hk2. by apply list_lookup_middle. }
    rewrite Hlen in Hl1. congruence.
Qed.

Lemma delete_loop_Ok keys d :
  NoDup keys → (∀ k, k ∈ keys → is_Some (d !! k)) →
  ∃ d', delete_loop keys d = (Ok tt, d') ∧
        ∀ k, d' !! k = if decide (k ∈ keys) then None else d !! k.
Proof.
  revert d. induction keys as [|key keys IH]; intros d Hnodup Hall.
  - exists d. split; [done|]. intros k. rewrite decide_False; [done|apply not_elem_of_nil].
  - apply NoDup_cons in Hnodup as [Hkey Hnodup].
    cbn [delete_loop]. destruct (Hall key) as [v ->]; [by left|].
    destruct (IH (base.delete key d) Hnodup) as (d' & -> & Hd').
    { intros k Hk. rewrite lookup_delete_ne; [apply Hall; by right|].
      intros ->. done. }
    exists d'. split; [done|]. intros k. rewrite Hd'.
    destruct (decide (k = key)) as [->|Hne].
    + rewrite decide_False by done. rewrite decide_True by (by left).
      by rewrite lookup_delete_eq.
    + destruct (decide (k ∈ keys)).
      * by rewrite decide_True by (by right).
      * rewrite decide_False by (by apply not_elem_of_cons).
        by rewrite lookup_delete_ne.
Qed.

Lemma delete_loop_app pre rest d d' :
  delete_loop pre d = (Ok tt, d') →
  delete_loop (pre ++ rest) d = delete_loop rest d'.
Proof.
  revert d. induction pre as [|key pre IH]; intros d Hpre.
  - by injection Hpre as ->.
  - cbn [app delete_loop] in *. destruct (d !! key); [by apply IH|done].
Qed.

(** X21: [delete] goes through exactly on a list of distinct keys that
    are all mapped, and then removes them and flushes. Otherwise it
    raises [KeyError] at the first key that is not mapped or was deleted
    earlier in the same call; the keys before it are already gone from
    the dictionary in memory, and the file is not rewritten. *)
Theorem delete_outcome (keys : list K) (m : mapping) :
  (NoDup keys → (∀ k, k ∈ keys → is_Some (data m !! k)) →
   ∃ d', delete keys m = (Ok tt, Mapping d' d') ∧
         ∀ k, d' !! k = if decide (k ∈ keys) then None else data m !! k) ∧
  (∀ pre key rest, keys = pre ++ key :: rest →
     NoDup pre → (∀ k, k ∈ pre → is_Some (data m !! k)) →
     data m !! key = None ∨ key ∈ pre →
     ∃ d', delete keys m = (Raise (KeyError (repr key)), Mapping d' (file m)) ∧
           ∀ k, d' !! k = if decide (k ∈ pre) then None else data m !! k).
Proof.
  split.
  - intros Hnodup Hall.
    destruct (delete_loop_Ok keys (data m) Hnodup Hall) as (d' & Hd' & Hlook).
    exists d'. unfold delete. by rewrite Hd'.
  - intros pre key rest -> Hnodup Hall Hkey.
    destruct (delete_loop_Ok pre (data m) Hnodup Hall) as (d' & Hd' & Hlook).
    exists d'. split; [|done]. unfold delete.
    rewrite (delete_loop_app _ _ _ _ Hd'). cbn [delete_loop].
    assert (d' !! key = None) as ->; [|done].
    rewrite Hlook. destruct (decide (key ∈ pre)); [done|]. by destruct Hkey.
Qed.

End Mapping.

(** The location mapping of a fresh project, as [GeoMapping.__init__]
    leaves it. *)
Definition geo : mapping (K := string) := add ["GLO"] (Mapping ∅ ∅).

Lemma add_injective_witness :
  data (add ["GLO"; "CH"; "DE"; "CH"] geo) !! "GLO" = Some 1%Z ∧
  data (add ["GLO"; "CH"; "DE"; "CH"] geo) !! "DE" = Some 4%Z ∧
  injective (data (add ["GLO"; "CH"; "DE"; "CH"] geo)).
Proof.
  split; [vm_compute; reflexivity|]. split; [vm_compute; reflexivity|].
  apply (add_injective ["GLO"; "CH"; "DE"; "CH"] geo).
  intros k1 k2 v H1 H2.
  change (data geo) with ({[ "GLO" := 1%Z ]} : gmap string Z) in H1, H2.
  apply lookup_singleton_Some in H1 as [<- _].
  by apply lookup_singleton_Some in H2 as [<- _].
Defined.

End Mapping.

(** * [bw2data.database]: the choice of a backend *)

(** What [DatabaseChooser] instantiates with the name: one of the three
    classes of the package, or the class registered in
    [config.backends] under a backend name. *)
Inductive database_class : Type :=
| SingleFileDatabase
| BlitzLCIDatabase
| JSONDatabase
| Configured (backend : string).

Section Chooser.

(** The entries of a database's metadata other than ["backend"]. *)
Variable entries : Type.

(** [databases[name]]: the backend name, when the metadata has one, and
    the rest. *)
Record metadata : Type := Metadata {
  md_backend : option string;
  md_entries : entries
}.

(** [databases]: the dictionary, and the file that [flush] writes it to. *)
Record registry : Type := Registry {
  reg_data : gmap string metadata;
  reg_file : gmap string metadata
}.

(** The keys of [config.backends]. *)
Variable backends : gset string.

(** [backend or u"blitz"]: [None] and the empty string are false. *)
Definition or_blitz (backend : option string) : string :=
  match backend with
  | Some b => if bool_decide (b = "") then "blitz" else b
  | None => "blitz"
  end.

(** The backend name that the call settles on. *)
Definition chosen (name : string) (backend : option string) (dbs : registry)
  : string :=
  match reg_data dbs !! name with
  | Some md => default (or_blitz backend) (md_backend md)
  | None => or_blitz backend
  end.

Definition DatabaseChooser (name : string) (backend : option string)
    (dbs : registry) : result database_class * registry :=
  let backend := chosen name backend dbs in
  if bool_decide (backend = "default") then
    match reg_data dbs !! name with
    | Some md =>
        let data :=
          <[name := Metadata (Some "singlefile") (md_entries md)]> (reg_data dbs) in
        (Ok SingleFileDatabase, Registry data data)
    | None => (Raise (KeyError name), dbs)
    end
  else if bool_decide (backend = "blitz") then (Ok BlitzLCIDatabase, dbs)
  else if bool_decide (backend = "singlefile") then (Ok SingleFileDatabase, dbs)
  else if bool_decide (backend = "json") then (Ok JSONDatabase, dbs)
  else if bool_decide (backend ∈ backends) then (Ok (Configured backend), dbs)
  else (Raise ValueError, dbs).

Lemma DatabaseChooser_migrates_step name backend dbs md :
  reg_data dbs !! name = Some md → chosen name backend dbs = "default" →
  ∃ dbs',
    DatabaseChooser name backend dbs = (Ok SingleFileDatabase, dbs') ∧
    (∀ other, is_Some (reg_data dbs' !! other) ↔ is_Some (reg_data dbs !! other)) ∧
    (∀ other, other ≠ name → reg_data dbs' !! other = reg_data dbs !! other).
Proof.
  intros Hname Hdefault. eexists. split; [|split].
  - unfold DatabaseChooser. rewrite Hdefault, Hname.
    rewrite bool_decide_eq_true_2 by done. reflexivity.
  - intros other. cbn [reg_data]. destruct (decide (other = name)) as [->|Hne].
    + rewrite lookup_insert_eq, Hname. split; intros _; by eexists.
    + by rewrite lookup_insert_ne.
  - intros other Hne. cbn [reg_data]. by rewrite lookup_insert_ne.
Qed.

(** X22: a registered database for which the call settles on the
    backend "default" (its metadata says so, or it names no backend and
    the caller asks for "default") is migrated by that call: the call
    returns a [SingleFileDatabase], the metadata names "singlefile" and
    keeps its other entries, the other databases are untouched and the
    file is rewritten. Every later call, whatever backend it asks for,
    returns a [SingleFileDatabase] again and writes nothing. *)
Theorem DatabaseChooser_migrates_once name backend dbs md :
  reg_data dbs !! name = Some md → chosen name backend dbs = "default" →
  ∃ dbs',
    DatabaseChooser name backend dbs = (Ok SingleFileDatabase, dbs') ∧
    reg_data dbs' !! name = Some (Metadata (Some "singlefile") (md_entries md)) ∧
    (∀ other, other ≠ name → reg_data dbs' !! other = reg_data dbs !! other) ∧
    reg_file dbs' = reg_data dbs' ∧
    ∀ backend', DatabaseChooser name backend' dbs' = (Ok SingleFileDatabase, dbs').
Proof.
  intros Hname Hdefault. eexists. split; [|split; [|split; [|split]]].
  - unfold DatabaseChooser. rewrite Hdefault, Hname.
    rewrite bool_decide_eq_true_2 by done. reflexivity.
  - cbn [reg_data]. by rewrite lookup_insert_eq.
  - intros other Hother. cbn [reg_data]. by rewrite lookup_insert_ne.
  - reflexivity.
  - intros backend'. unfold DatabaseChooser, chosen. cbn [reg_data].
    rewrite lookup_insert_eq. cbn [md_backend default].
    reflexivity.
Qed.

(** X23: apart from that migration, choosing a database changes
    nothing: no call adds or removes a database or touches the metadata
    of another one, and a call that does not settle on "default" leaves
    the dictionary and the file as they are. For a name that is not
    registered nothing is ever written: asking for "default" there is a
    [KeyError], not a new database. The three backend names of the
    package always give the package's classes, whatever
    [config.backends] registers under them. *)
Theorem DatabaseChooser_frame name backend dbs :
  ∃ r dbs',
    DatabaseChooser name backend dbs = (r, dbs') ∧
    (∀ other, is_Some (reg_data dbs' !! other) ↔ is_Some (reg_data dbs !! other)) ∧
    (∀ other, other ≠ name → reg_data dbs' !! other = reg_data dbs !! other) ∧
    (chosen name backend dbs ≠ "default" → dbs' = dbs) ∧
    (reg_data dbs !! name = None →
     dbs' = dbs ∧ (or_blitz backend = "default" → r = Raise (KeyError name))) ∧
    (∀ b cls, (b, cls) ∈ [("blitz", BlitzLCIDatabase);
                          ("singlefile", SingleFileDatabase);
                          ("json", JSONDatabase)] →
       chosen name backend dbs = b → r = Ok cls).
Proof.
  destruct (decide (chosen name backend dbs = "default")) as [Hdefault|Hother].
  - destruct (reg_data dbs !! name) as [md|] eqn:Hname.
    + destruct (DatabaseChooser_migrates_step name backend dbs md Hname Hdefault)
        as (dbs' & Hrun & Hdom & Hframe).
      exists (Ok SingleFileDatabase), dbs'. split; [done|].
      split; [done|]. split; [done|]. split; [done|]. split; [done|].
      intros b cls Hin Hb. rewrite Hdefault in Hb. subst b.
      repeat (apply elem_of_cons in Hin as [[=]|Hin]). by apply elem_of_nil in Hin.
    + exists (Raise (KeyError name)), dbs. unfold DatabaseChooser.
      rewrite Hdefault, Hname. rewrite bool_decide_eq_true_2 by done.
      split; [done|]. split; [done|]. split; [done|]. split; [done|].
      split; [done|].
      intros b cls Hin <-.
      repeat (apply elem_of_cons in Hin as [[=]|Hin]). by apply elem_of_nil in Hin.
  - assert (Hrun : ∃ r, DatabaseChooser name backend dbs = (r, dbs) ∧
              ∀ b cls, (b, cls) ∈ [("blitz", BlitzLCIDatabase);
                                   ("singlefile", SingleFileDatabase);
                                   ("json", JSONDatabase)] →
                chosen name backend dbs = b → r = Ok cls).
    { unfold DatabaseChooser. rewrite (bool_decide_eq_false_2 _ Hother).
      repeat case_bool_decide; eexists; (split; [reflexivity|]);
        intros b cls Hin Hb;
        repeat (apply elem_of_cons in Hin as [[= -> ->]|Hin]);
        try (by apply elem_of_nil in Hin); congruence. }
    destruct Hrun as (r & Hrun & Hbuiltin).
    exists r, dbs. split; [done|]. split; [done|]. split; [done|].
    split; [done|]. split; [|done].
    intros Hname. split; [done|]. intros Hor. exfalso. apply Hother.
    unfold chosen. by rewrite Hname.
Qed.

End Chooser.

(** A registry written by an old version of the package. *)
Definition old_registry : registry unit :=
  let data : gmap string (metadata unit) :=
    {[ "old" := Metadata unit (Some "default") tt;
       "new" := Metadata unit (Some "json") tt ]} in
  Registry unit data data.

Lemma DatabaseChooser_migrates_once_witness :
  ∃ dbs',
    DatabaseChooser unit ∅ "old" (Some "json") old_registry
    = (Ok SingleFileDatabase, dbs') ∧
    reg_data unit dbs' !! "old" = Some (Metadata unit (Some "singlefile") tt) ∧
    (∀ other, other ≠ "old" →
       reg_data unit dbs' !! other = reg_data unit old_registry !! other) ∧
    reg_file unit dbs' = reg_data unit dbs' ∧
    ∀ backend', DatabaseChooser unit ∅ "old" backend' dbs'
                = (Ok SingleFileDatabase, dbs').
Proof.
  apply (DatabaseChooser_migrates_once unit ∅ "old" (Some "json") old_registry
           (Metadata unit (Some "default") tt));
    vm_compute; reflexivity.
Defined.

(** ** A run whose dependency is chosen through [DatabaseChooser]

    The importer on a store that is the registry of the databases.
    [Database(db).load()] first chooses the backend, which may rewrite
    the registry, and then loads; the stored records play no part here
    and are left empty. The three methods of the commit stage are not
    reached by the run below. *)

Definition registry_load (dbs : registry unit) (db : string)
  : result (gmap key bg_record) * registry unit :=
  match DatabaseChooser unit ∅ db None dbs with
  | (Ok _, dbs') => (Ok ∅, dbs')
  | (Raise e, dbs') => (Raise e, dbs')
  end.

Definition registry_contains (dbs : registry unit) (name : string) : bool :=
  bool_decide (is_Some (reg_data unit dbs !! name)).

Definition registry_importer
  : importer_self → M (registry unit) (string * string) :=
  importer demo_float demo_units demo_hash demo_pformat demo_read_csv
    (registry unit) registry_contains registry_load
    (λ dbs _ _ _ _, (Ok tt, dbs)) (λ dbs _ _, (Ok tt, dbs))
    (λ dbs _, (Ok tt, dbs)).

(** The steel file, imported against the database "old". *)
Definition legacy_self : importer_self :=
  ImporterSelf "steel.csv" tab ["old"] false None "GLO" "simapro-import.log".

Definition legacy_run : result (string * string) * world (registry unit) :=
  registry_importer legacy_self (World (registry unit) old_registry [] []).

(** C1, the counterexample: the steel of block C is in neither index, so
    the run raises [MissingExchange] after a single [load] and without
    any [register], [write] or [process]; but choosing the backend of
    the dependency "old" has rewritten its metadata from "default" to
    "singlefile", in the dictionary and in the file: the store is not as
    it was before the run. *)
Lemma load_rewrites_registry :
  (∃ msg, legacy_run.1 = Raise (MissingExchange msg) ∧
          taxonomy (MissingExchange msg) = Some UnlinkedExchangeError) ∧
  w_calls (registry unit) legacy_run.2 = [CallLoad "old"] ∧
  reg_data unit old_registry !! "old" = Some (Metadata unit (Some "default") tt) ∧
  reg_data unit (w_store (registry unit) legacy_run.2) !! "old"
  = Some (Metadata unit (Some "singlefile") tt) ∧
  reg_file unit (w_store (registry unit) legacy_run.2) !! "old"
  = Some (Metadata unit (Some "singlefile") tt) ∧
  w_store (registry unit) legacy_run.2 ≠ old_registry.
Proof.
  assert (Hnew : reg_data unit (w_store (registry unit) legacy_run.2) !! "old"
                 = Some (Metadata unit (Some "singlefile") tt))
    by (vm_compute; reflexivity).
  split; [eexists; split; [vm_compute; reflexivity|reflexivity]|].
  split; [vm_compute; reflexivity|]. split; [vm_compute; reflexivity|].
  split; [exact Hnew|]. split; [vm_compute; reflexivity|].
  intros Heq. rewrite Heq in Hnew. vm_compute in Hnew. discriminate Hnew.
Qed.

(** * [bw2data.backends.schema]: matrix ids *)

(** [create_unique_id] on the module's list [ids]; [activity] and
    [product] are the [id] columns of the two tables as the two [select]
    queries return them. The result is the id and the new [ids]. *)
Definition create_unique_id (activity product : list Z) (ids : list Z)
  : Z * list Z :=
  let ids :=
    match ids with
    | [] => merge_sort Z.le (activity ++ product)
    | _ :: _ => ids
    end in
  match last ids with
  | None => (0%Z, ids)
  | Some m => ((m + 1)%Z, ids ++ [(m + 1)%Z])
  end.

(** Successive calls; each finds the tables in the state given for it. *)
Fixpoint create_unique_ids (tables : list (list Z * list Z)) (ids : list Z)
  : list Z * list Z :=
  match tables with
  | [] => ([], ids)
  | (activity, product) :: tables' =>
      let '(x, ids1) := create_unique_id activity product ids in
      let '(xs, ids2) := create_unique_ids tables' ids1 in
      (x :: xs, ids2)
  end.

(** [m + 1, ..., m + n] *)
Definition following (m : Z) (n : nat) : list Z :=
  (λ i, (m + 1 + Z.of_nat i)%Z) <$> seq 0 n.

Lemma last_sorted_max (l : list Z) (m : Z) :
  StronglySorted Z.le l → last l = Some m → Forall (λ x, (x ≤ m)%Z) l.
Proof.
  intros Hsorted Hlast. destruct l as [|a l] using rev_ind; [constructor|].
  clear IHl. rewrite last_snoc in Hlast. injection Hlast as ->.
  apply Forall_app. split; [|by repeat constructor].
  apply Forall_forall. intros x Hx.
  eapply (StronglySorted_app_1_elem_of _ _ _ _ _ Hsorted); [done|by left].
Qed.

(** X24: the first call, with the list still empty. When both tables are
    empty it returns 0 and records nothing, so it returns 0 again as
    long as they stay empty. Otherwise it returns one more than the
    largest [id] of the two tables, which is therefore the [id] of no
    row, and records the sorted ids followed by the new one. *)
Theorem create_unique_id_first (activity product : list Z) :
  (activity ++ product = [] → create_unique_id activity product [] = (0%Z, [])) ∧
  (activity ++ product ≠ [] →
   ∃ m sorted,
     create_unique_id activity product [] = ((m + 1)%Z, sorted ++ [(m + 1)%Z]) ∧
     m ∈ activity ++ product ∧
     Forall (λ x, (x ≤ m)%Z) (activity ++ product) ∧
     ((m + 1)%Z ∉ activity ++ product) ∧
     sorted ≡ₚ activity ++ product ∧ StronglySorted Z.le sorted).
Proof.
  unfold create_unique_id.
  pose proof (merge_sort_Permutation Z.le (activity ++ product)) as Hperm.
  pose proof (StronglySorted_merge_sort Z.le (activity ++ product)) as Hsorted.
  split.
  - intros Hempty. rewrite Hempty in Hperm |- *.
    apply Permutation_nil_r in Hperm. by rewrite Hperm.
  - intros Hrows.
    destruct (merge_sort Z.le (activity ++ product)) as [|a l] eqn:Hsort
      using rev_ind.
    { symmetry in Hperm. by apply Permutation_nil_r in Hperm. }
    clear IHl. rewrite last_snoc. exists a, (l ++ [a]).
    assert (Hmax : Forall (λ x, (x ≤ a)%Z) (activity ++ product)).
    { rewrite <- Hperm. apply last_sorted_max; [done|apply last_snoc]. }
    repeat split; try done.
    + rewrite <- Hperm. apply elem_of_app. right. by left.
    + intros Hin. rewrite Forall_forall in Hmax. apply Hmax in Hin. lia.
Qed.

Lemma create_unique_id_next activity product ids m :
  last ids = Some m →
  create_unique_id activity product ids = ((m + 1)%Z, ids ++ [(m + 1)%Z]).
Proof.
  intros Hlast. unfold create_unique_id.
  destruct ids as [|a ids]; [done|]. by rewrite Hlast.
Qed.

Lemma following_S (m : Z) (n : nat) :
  following m (S n) = (m + 1)%Z :: following (m + 1) n.
Proof.
  unfold following. cbn [seq fmap list_fmap]. f_equal; [lia|].
  rewrite <- fmap_S_seq, <- list_fmap_compose.
  apply list_fmap_ext. intros _ i _. cbn. lia.
Qed.

(** X25: once the list holds an id the tables are not read again: [n]
    further calls return the [n] numbers that follow the last recorded
    id, one after the other, whatever the tables hold by then, and
    record them in that order. *)
Theorem create_unique_ids_consecutive tables ids m :
  last ids = Some m →
  create_unique_ids tables ids
  = (following m (length tables), ids ++ following m (length tables)).
Proof.
  revert ids m. induction tables as [|[activity product] tables IH];
    intros ids m Hlast.
  - cbn. by rewrite app_nil_r.
  - cbn [create_unique_ids length].
    rewrite (create_unique_id_next _ _ _ _ Hlast).
    rewrite (IH (ids ++ [(m + 1)%Z]) (m + 1)%Z) by apply last_snoc.
    rewrite following_S, <- app_assoc. reflexivity.
Qed.

Lemma create_unique_ids_consecutive_witness :
  create_unique_ids [([7; 3], [5]); ([], []); ([100], [])]%Z []
  = ([8; 9; 10], [3; 5; 7; 8; 9; 10])%Z ∧
  create_unique_ids [([], []); ([100], [])]%Z [3; 5; 7; 8]%Z
  = (following 8 2, [3; 5; 7; 8]%Z ++ following 8 2).
Proof.
  split; [vm_compute; reflexivity|].
  apply (create_unique_ids_consecutive [([], []); ([100], [])]%Z [3; 5; 7; 8]%Z 8).
  reflexivity.
Defined.
